(** * Quiz solver: extraction, submission and the traversal loop

    A shallow embedding of [quiz_solver.py] (class [QuizSolver]), of the
    [POST /quiz] handler of [main.py] and of the file tools of
    [llm_agent.py], and the properties of the specification that can be
    stated on it.

    A Python [str] is the list of its characters, a character is its code
    point; a [bytes] object is a sequence of bytes.  The white-space class
    of the patterns and the pairing of characters under [re.IGNORECASE]
    are those of Python's [re] on [str]: Unicode white space, and the
    partners outside ASCII of the letters [i], [s] and [k].

    The readings of the clock are binary64 floats; the elapsed time is
    their rounded difference. *)

From Stdlib Require Import String Ascii List Bool Arith NArith ZArith QArith Lia.
From Stdlib Require Import Strings.Byte Floats.SpecFloat.
Import ListNotations.

Set Warnings "-register-all,-via-type-remapping,-via-type-mismatch".
Local Close Scope Q_scope.

(* ------------------------------------------------------------------------- *)
(** ** Text *)

Module Text.

(** A character is its code point. *)
Definition char : Set := N.

(** A [str]: its characters. *)
Definition str : Set := list char.

(** Literals: a text between double quotes is the [str] of its ASCII
    characters, and ["c"%ch] is the character [c]. *)
Inductive literal : Set :=
| LNil
| LCons (c : N) (s : literal).

Fixpoint literal_of_bytes (l : list byte) : option literal :=
  match l with
  | [] => Some LNil
  | b :: l' =>
      if N.ltb (Byte.to_N b) 128
      then option_map (LCons (Byte.to_N b)) (literal_of_bytes l')
      else None
  end.

Fixpoint bytes_of_literal (s : literal) : option (list byte) :=
  match s with
  | LNil => Some []
  | LCons c s' =>
      if N.ltb c 128 then
        match Byte.of_N c, bytes_of_literal s' with
        | Some b, Some l => Some (b :: l)
        | _, _ => None
        end
      else None
  end.

Definition char_of_bytes (l : list byte) : option N :=
  match l with
  | [b] => if N.ltb (Byte.to_N b) 128 then Some (Byte.to_N b) else None
  | _ => None
  end.

Definition bytes_of_char (c : N) : option (list byte) :=
  if N.ltb c 128 then option_map (fun b => [b]) (Byte.of_N c) else None.

Declare Scope str_scope.
Delimit Scope str_scope with str.
Bind Scope str_scope with str.
String Notation str literal_of_bytes bytes_of_literal
  (via literal mapping [[nil] => LNil, [cons] => LCons]) : str_scope.

Declare Scope ch_scope.
Delimit Scope ch_scope with ch.
Bind Scope ch_scope with char.
String Notation N char_of_bytes bytes_of_char : ch_scope.

(** [a == b] on characters and on texts. *)
Definition char_eqb (a b : char) : bool := N.eqb a b.

Fixpoint eqb (a b : str) : bool :=
  match a, b with
  | [], [] => true
  | x :: a', y :: b' => (N.eqb x y && eqb a' b')%bool
  | _, _ => false
  end.

(** [s.startswith(p)] *)
Fixpoint prefix (p s : str) : bool :=
  match p, s with
  | [], _ => true
  | c :: p', d :: s' => (N.eqb c d && prefix p' s')%bool
  | _ :: _, [] => false
  end.

End Text.

Import Text.
Local Open Scope str_scope.

(* ------------------------------------------------------------------------- *)
(** ** Python values that cross the network *)

Module Py.

(** What [json.loads] produces: [None], [bool], [int], [float], [str],
    [list], [dict].  A [dict] is kept as the association list of its items;
    [dict_get] reads the first binding of a key. *)
Inductive json : Type :=
| JNull
| JBool (b : bool)
| JInt (z : Z)
| JFloat (f : spec_float)
| JStr (s : str)
| JArr (l : list json)
| JObj (items : list (str * json)).

(** Exceptions, by class name and [str(e)]. *)
Record exn : Type := Exn { exn_class : str; exn_msg : str }.

Definition is_empty (s : str) : bool :=
  match s with [] => true | _ :: _ => false end.

(** [bool(v)] *)
Definition truthy (v : json) : bool :=
  match v with
  | JNull => false
  | JBool b => b
  | JInt z => negb (Z.eqb z 0)
  | JFloat f => match f with S754_zero _ => false | _ => true end
  | JStr s => negb (is_empty s)
  | JArr l => match l with [] => false | _ => true end
  | JObj items => match items with [] => false | _ => true end
  end.

Fixpoint assoc (k : str) (items : list (str * json)) : option json :=
  match items with
  | [] => None
  | (k', v) :: rest => if Text.eqb k k' then Some v else assoc k rest
  end.

(** [d.get(k)] on a dict: the value, or [None] when the key is missing. *)
Definition dict_get (items : list (str * json)) (k : str) : json :=
  match assoc k items with Some v => v | None => JNull end.

Definition type_name (v : json) : str :=
  match v with
  | JNull => "NoneType" | JBool _ => "bool" | JInt _ => "int"
  | JFloat _ => "float" | JStr _ => "str" | JArr _ => "list"
  | JObj _ => "dict"
  end.

(** [v.get(k)] on an arbitrary value: only a dict has the method. *)
Definition get (v : json) (k : str) : exn + json :=
  match v with
  | JObj items => inr (dict_get items k)
  | _ => inl (Exn "AttributeError"
                  ("'" ++ type_name v ++ "' object has no attribute 'get'"))
  end.

End Py.

(* ------------------------------------------------------------------------- *)
(** ** Characters and substrings *)

Module Chars.

Definition in_range (lo hi : N) (c : char) : bool :=
  (N.leb lo c && N.leb c hi)%bool.

Definition is_upper (c : char) : bool := in_range 65 90 c.
Definition is_lower (c : char) : bool := in_range 97 122 c.
Definition is_digit (c : char) : bool := in_range 48 57 c.

(** The lower case of an ASCII letter; any other character is left. *)
Definition to_lower (c : char) : char :=
  if is_upper c then (c + 32)%N else c.

(** The lower case of one character, as [str.lower] gives it, for the
    characters whose lower case holds an ASCII character: the ASCII
    capitals, the capital I with a dot above (U+0130, an [i] and a
    combining dot) and the Kelvin sign (U+212A, a [k]).  The lower case of
    any other character has no ASCII character; the program looks only for
    ASCII words in a lowered text, and the character is left as it is. *)
Definition lower_char (c : char) : str :=
  if is_upper c then [(c + 32)%N]
  else if N.eqb c 304 then [105; 775]%N
  else if N.eqb c 8490 then [107]%N
  else [c].

(** [s.lower()] *)
Definition lower (s : str) : str := flat_map lower_char s.

(** The white space of Python's [str] patterns, the characters [c] with
    [c.isspace()]: tab to carriage return, the four separators U+001C to
    U+001F, the space, U+0085, U+00A0, U+1680, U+2000 to U+200A, U+2028,
    U+2029, U+202F, U+205F and U+3000. *)
Definition is_space (c : char) : bool :=
  (in_range 9 13 c || in_range 28 32 c
   || N.eqb c 133 || N.eqb c 160 || N.eqb c 5760
   || in_range 8192 8202 c || in_range 8232 8233 c
   || N.eqb c 8239 || N.eqb c 8287 || N.eqb c 12288)%bool.

Definition one_of (cs : str) (c : char) : bool :=
  existsb (char_eqb c) cs.

(** [needle in hay] *)
Fixpoint contains (needle hay : str) : bool :=
  if prefix needle hay then true
  else match hay with
       | [] => false
       | _ :: hay' => contains needle hay'
       end.

(** [s[:n]] *)
Definition take (n : nat) (s : str) : str := firstn n s.

End Chars.

(* ------------------------------------------------------------------------- *)
(** ** The fragment of [re] the program uses

    Every pattern of the program is a sequence of literals, optional
    literals, single classes, greedy class repetitions, the lazy [.*?] and
    at most one capturing group.  A pattern is written as the list of its
    nodes, the group as a pair of markers.  [match_here] is the
    backtracking matcher of [re]: greedy repetition takes the longest run
    first and gives characters back, lazy repetition takes the shortest. *)

Module Re.

Import Chars.

Inductive node : Type :=
| Lit (c : char)
| Opt (c : char)
| One (cls : char -> bool)
| Plus (cls : char -> bool)
| Star (cls : char -> bool)
| LazyDot
| GOpen
| GClose.

Definition regex := list node.

(** A successful match from a position: the text consumed, the text up to
    the next group close (while inside the group), the text of group 1. *)
Record found : Type :=
  Found { whole : str; to_close : option str; grp : option str }.

Definition push (c : char) (x : found) : found :=
  Found (c :: whole x) (option_map (cons c) (to_close x)) (grp x).

(** The characters [re.IGNORECASE] takes for an ASCII letter besides its
    two cases: the dotted capital and the dotless small letter for [i]
    (U+0130, U+0131), the long s for [s] (U+017F), the Kelvin sign for [k]
    (U+212A). *)
Definition fold_partners (lo : char) : list char :=
  if char_eqb lo "i" then [304; 305]%N
  else if char_eqb lo "s" then [383]%N
  else if char_eqb lo "k" then [8490]%N
  else [].

(** A literal of a pattern against a character of the text.  The literals
    of the patterns of the program are ASCII characters. *)
Definition chr_eq (icase : bool) (p c : char) : bool :=
  if icase
  then (N.eqb (to_lower p) (to_lower c)
        || existsb (N.eqb c) (fold_partners (to_lower p)))%bool
  else N.eqb p c.

Definition orelse {A} (x : option A) (y : option A) : option A :=
  match x with Some _ => x | None => y end.

Definition take1 (ok : char -> bool) (k : str -> option found)
  (s : str) : option found :=
  match s with
  | a :: s' => if ok a then option_map (push a) (k s') else None
  | [] => None
  end.

Fixpoint greedy (cls : char -> bool) (k : str -> option found)
  (s : str) : option found :=
  match s with
  | a :: s' =>
      if cls a then orelse (option_map (push a) (greedy cls k s')) (k s)
      else k s
  | [] => k s
  end.

Definition not_newline (c : char) : bool := negb (N.eqb c 10).

Fixpoint lazy (k : str -> option found) (s : str) : option found :=
  match k s with
  | Some x => Some x
  | None =>
      match s with
      | a :: s' =>
          if not_newline a then option_map (push a) (lazy k s') else None
      | [] => None
      end
  end.

Fixpoint match_here (icase : bool) (r : regex) : str -> option found :=
  match r with
  | [] => fun _ => Some (Found "" None None)
  | Lit c :: r' => take1 (chr_eq icase c) (match_here icase r')
  | Opt c :: r' => fun s =>
      orelse (take1 (chr_eq icase c) (match_here icase r') s)
             (match_here icase r' s)
  | One cls :: r' => take1 cls (match_here icase r')
  | Plus cls :: r' => take1 cls (greedy cls (match_here icase r'))
  | Star cls :: r' => greedy cls (match_here icase r')
  | LazyDot :: r' => lazy (match_here icase r')
  | GOpen :: r' => fun s =>
      option_map (fun x => Found (whole x) None (to_close x))
                 (match_here icase r' s)
  | GClose :: r' => fun s =>
      option_map (fun x => Found (whole x) (Some "") (grp x))
                 (match_here icase r' s)
  end.

(** What the program reads from a match object. *)
Record match_obj : Type :=
  Match { groups : nat; group0 : str; group1 : option str }.

Definition count_groups (r : regex) : nat :=
  length (filter (fun n => match n with GOpen => true | _ => false end) r).

(** [re.search(pattern, s, flags)]: the leftmost position that matches. *)
Fixpoint search_from (icase : bool) (r : regex) (s : str) : option found :=
  match match_here icase r s with
  | Some x => Some x
  | None =>
      match s with
      | _ :: s' => search_from icase r s'
      | [] => None
      end
  end.

Definition search (icase : bool) (r : regex) (s : str) : option match_obj :=
  option_map (fun x => Match (count_groups r) (whole x) (grp x))
             (search_from icase r s).

(** [m.lastindex]: the index of the last matched group, [None] when no
    group took part in the match. *)
Definition lastindex (m : match_obj) : option nat :=
  match group1 m with Some _ => Some 1%nat | None => None end.

(** [m.group(1)]: [IndexError] when the pattern has no group 1, [None] when
    the group did not take part. *)
Definition group_1 (m : match_obj) : Py.exn + option str :=
  if Nat.ltb (groups m) 1 then inl (Py.Exn "IndexError" "no such group")
  else inr (group1 m).

Definition lits (s : str) : regex := map Lit s.

End Re.

(* ------------------------------------------------------------------------- *)
(** ** [base64.b64decode(...).decode('utf-8')]

    The library call of the decode step, after CPython's [binascii]: in the
    default, non-strict mode characters outside the alphabet are skipped, a
    pad sequence that completes a quad ends the input, and data left in an
    incomplete quad is an error.  A [str] argument must be ASCII.  The bytes
    must then be well-formed UTF-8, and the text is the characters they
    encode. *)

Module B64.

Import Chars.

Definition value (c : char) : option N :=
  if is_upper c then Some (c - 65)%N
  else if is_lower c then Some (c - 71)%N
  else if is_digit c then Some (c + 4)%N
  else if char_eqb c "+" then Some 62%N
  else if char_eqb c "/" then Some 63%N
  else None.

Fixpoint a2b_base64 (s : str) (quad_pos : nat) (leftchar : N) (pads : nat)
  (out : list N) : option (list N) :=
  match s with
  | [] => if Nat.eqb quad_pos 0 then Some (rev out) else None
  | c :: s' =>
      if char_eqb c "=" then
        if Nat.leb 2 quad_pos then
          if Nat.leb 4 (quad_pos + S pads) then Some (rev out)
          else a2b_base64 s' quad_pos leftchar (S pads) out
        else a2b_base64 s' quad_pos leftchar pads out
      else
        match value c with
        | None => a2b_base64 s' quad_pos leftchar pads out
        | Some v =>
            match quad_pos with
            | 0 => a2b_base64 s' 1 v 0 out
            | 1 => a2b_base64 s' 2 (N.land v 15) 0
                     (N.lor (N.shiftl leftchar 2) (N.shiftr v 4) :: out)
            | 2 => a2b_base64 s' 3 (N.land v 3) 0
                     (N.lor (N.shiftl leftchar 4) (N.shiftr v 2) :: out)
            | _ => a2b_base64 s' 0 0%N 0
                     (N.lor (N.shiftl leftchar 6) v :: out)
            end
        end
  end.

Definition between (lo hi b : N) : bool := (N.leb lo b && N.leb b hi)%bool.
Definition cont (b : N) : bool := between 128 191 b.

(** The payload bits of a continuation byte. *)
Definition low6 (b : N) : N := (b - 128)%N.

(** [bytes.decode('utf-8')]: the characters of well-formed UTF-8
    (shortest form, no surrogates, at most U+10FFFF), [None] for any other
    sequence of bytes. *)
Fixpoint utf8_decode (bs : list N) : option str :=
  match bs with
  | [] => Some []
  | b0 :: r0 =>
      if N.ltb b0 128 then option_map (cons b0) (utf8_decode r0)
      else if between 194 223 b0 then
        match r0 with
        | b1 :: r1 =>
            if cont b1
            then option_map (cons ((b0 - 192) * 64 + low6 b1)%N)
                   (utf8_decode r1)
            else None
        | _ => None
        end
      else if between 224 239 b0 then
        match r0 with
        | b1 :: b2 :: r2 =>
            if ((if N.eqb b0 224 then between 160 191 b1
                 else if N.eqb b0 237 then between 128 159 b1
                 else cont b1)
                && cont b2)%bool
            then option_map
                   (cons ((b0 - 224) * 4096 + low6 b1 * 64 + low6 b2)%N)
                   (utf8_decode r2)
            else None
        | _ => None
        end
      else if between 240 244 b0 then
        match r0 with
        | b1 :: b2 :: b3 :: r3 =>
            if ((if N.eqb b0 240 then between 144 191 b1
                 else if N.eqb b0 244 then between 128 143 b1
                 else cont b1)
                && cont b2 && cont b3)%bool
            then option_map
                   (cons ((b0 - 240) * 262144 + low6 b1 * 4096
                          + low6 b2 * 64 + low6 b3)%N)
                   (utf8_decode r3)
            else None
        | _ => None
        end
      else None
  end.

Definition is_ascii7 (c : char) : bool := N.ltb c 128.

Definition b64decode_utf8 (s : str) : option str :=
  if forallb is_ascii7 s then
    match a2b_base64 s 0 0%N 0 [] with
    | Some bs => utf8_decode bs
    | None => None
    end
  else None.

End B64.

(* ------------------------------------------------------------------------- *)
(** ** The question extractor: the pure part of [_get_quiz_question] *)

Module Extractor.

Import Chars Re.

Definition dquote : char := 34%N.

Definition not_backtick (c : char) : bool := negb (char_eqb c "`").
Definition quote (c : char) : bool :=
  (char_eqb c dquote || char_eqb c "'")%bool.
Definition not_quote (c : char) : bool := negb (quote c).
Definition colon_or_space (c : char) : bool :=
  (char_eqb c ":" || is_space c)%bool.
Definition b64_char (c : char) : bool :=
  (is_upper c || is_lower c || is_digit c || one_of "+/=" c)%bool.
(** The class of the URL patterns: anything but white space, angle
    brackets, the two quotes and a closing parenthesis. *)
Definition url_char (c : char) : bool :=
  negb (is_space c || one_of "<>')" c || char_eqb c dquote)%bool.
Definition not_slash (c : char) : bool := negb (char_eqb c "/").

(** The three base64 patterns, in the order of the source. *)
Definition atob_backtick : regex :=
  lits "atob(`" ++ [GOpen; Plus not_backtick; GClose] ++ lits "`)".
Definition atob_quoted : regex :=
  lits "atob(" ++ [One quote; GOpen; Plus not_quote; GClose; One quote]
  ++ lits ")".
Definition base64_label : regex :=
  lits "base64" ++ [Plus colon_or_space; GOpen; Plus b64_char; GClose].

Definition base64_patterns : list regex :=
  [atob_backtick; atob_quoted; base64_label].

Definition http_url : regex :=
  lits "http" ++ [Opt "s"] ++ lits "://" ++ [Plus url_char].

(** The four submit-URL patterns, in the order of the source. *)
Definition url_with_submit : regex :=
  http_url ++ lits "/submit" ++ [Star url_char].
Definition post_to : regex :=
  lits "Post" ++ [LazyDot] ++ lits "to" ++ [Plus is_space; GOpen]
  ++ http_url ++ [GClose].
Definition submit_to : regex :=
  lits "submit" ++ [LazyDot] ++ lits "to" ++ [Plus is_space; GOpen]
  ++ http_url ++ [GClose].
Definition url_ending_submit : regex :=
  http_url ++ lits "/submit".

Definition submit_patterns : list regex :=
  [url_with_submit; post_to; submit_to; url_ending_submit].

(** [(https?://[^/]+)] *)
Definition origin_pattern : regex :=
  [GOpen] ++ lits "http" ++ [Opt "s"] ++ lits "://"
  ++ [Plus not_slash; GClose].

Definition fallback_submit_url : str :=
  "https://tds-llm-analysis.s-anand.net/submit".

(** The [for pattern in patterns] loop of the decode step: the first
    pattern whose match decodes replaces the content; a failed decode is
    caught and the loop goes on. *)
Fixpoint decode_loop (patterns : list regex) (result_content : str)
  : str :=
  match patterns with
  | [] => result_content
  | pattern :: rest =>
      match search false pattern result_content with
      | Some base64_match =>
          match group_1 base64_match with
          | inr (Some payload) =>
              match B64.b64decode_utf8 payload with
              | Some decoded => decoded
              | None => decode_loop rest result_content
              end
          | _ => decode_loop rest result_content
          end
      | None => decode_loop rest result_content
      end
  end.

Definition signals_base64 (result_content : str) : bool :=
  (contains "atob" result_content
   || contains "base64" (lower result_content))%bool.

Definition decode_step (result_content : str) : str :=
  if signals_base64 result_content
  then decode_loop base64_patterns result_content
  else result_content.

(** [lastindex == 0] *)
Definition lastindex_is_0 (m : match_obj) : bool :=
  match lastindex m with Some n => Nat.eqb n 0 | None => false end.

(** The [for pattern in patterns] loop of the submit-URL step: the first
    pattern that matches decides, and reading its group may raise. *)
Fixpoint find_submit_url (patterns : list regex) (result_content : str)
  : Py.exn + option str :=
  match patterns with
  | [] => inr None
  | pattern :: rest =>
      match search true pattern result_content with
      | Some submit_url_match =>
          if lastindex_is_0 submit_url_match
          then inr (Some (group0 submit_url_match))
          else group_1 submit_url_match
      | None => find_submit_url rest result_content
      end
  end.

(** [if not submit_url] *)
Definition no_url (submit_url : option str) : bool :=
  match submit_url with None => true | Some u => Py.is_empty u end.

(** The default endpoint, from the origin of the current URL.  The URL is
    whatever the loop holds; [re.search] raises on anything but a string. *)
Definition default_submit_url (url : Py.json) : Py.exn + str :=
  match url with
  | Py.JStr u =>
      match search false origin_pattern u with
      | Some origin_match =>
          match group_1 origin_match with
          | inr (Some origin) => inr (origin ++ "/submit")
          | inr None => inl (Py.Exn "TypeError" "unsupported operand")
          | inl e => inl e
          end
      | None => inr fallback_submit_url
      end
  | _ => inl (Py.Exn "TypeError" "expected string or bytes-like object")
  end.

(** The dictionary [_get_quiz_question] returns (the [page] handle, which
    the caller passes on untouched, is left out). *)
Record quiz_data : Type :=
  QuizData { question : str; submit_url : str; url : Py.json }.

(** The submit-URL step and the [return]: from the content the decode
    step left. *)
Definition locate (content : str) (current_url : Py.json)
  : Py.exn + quiz_data :=
  match find_submit_url submit_patterns content with
  | inl e => inl e
  | inr found_url =>
      if no_url found_url then
        match default_submit_url current_url with
        | inl e => inl e
        | inr u => inr (QuizData content u current_url)
        end
      else
        match found_url with
        | Some u => inr (QuizData content u current_url)
        | None => inl (Py.Exn "TypeError" "unreachable")
        end
  end.

(** Everything after the page has been read, up to the [return]. *)
Definition extract (result_content : str) (current_url : Py.json)
  : Py.exn + quiz_data :=
  locate (decode_step result_content) current_url.

End Extractor.
(* ------------------------------------------------------------------------- *)
(** ** The session: [QuizSolver] in [quiz_solver.py]

    The browser, the clock, the language model and the network are the
    environment.  Each call of the program to one of them is a function of
    the state of the world that returns what the call returned and the world
    after it.  The program keeps a log of the calls it makes, so that
    navigations and solve/submit attempts can be counted. *)

Module Session.

Import Py Extractor.

Inductive res (A : Type) : Type :=
| Val (a : A)
| Raise (e : exn)
| OutOfFuel.
Arguments Val {A} a.
Arguments Raise {A} e.
Arguments OutOfFuel {A}.

(** The JSON body of a submission. *)
Record payload : Type :=
  Payload { p_email : str; p_secret : str; p_url : json;
            p_answer : json }.

(** How the [async with session.post(...)] block ends: [response.json()]
    returned a value; it raised and [response.text()] returned the body; an
    [aiohttp.ClientError] was raised; any other [Exception] was raised. *)
Inductive post_outcome : Type :=
| PostJson (v : json)
| PostText (text : str)
| PostClientError (msg : str)
| PostError (msg : str).

(** How the start of the browser ends: with a page; with a browser but an
    exception before the page exists; with an exception and no browser. *)
Inductive launch_outcome : Type :=
| Launched
| LaunchedNoPage (e : exn)
| NotLaunched (e : exn).

Inductive event : Type :=
| EvNavigate (url : json)
| EvSolve (question : str) (url : json)
| EvSubmit (submit_url : str) (p : payload)
| EvClose.

(** The collaborators of one session. *)
Record Env (World : Type) : Type := {
  launch_browser : World -> launch_outcome * World;
  loop_time : World -> spec_float * World;
  page_goto : json -> World -> option exn * World;
  page_result_html : World -> (exn + str) * World;
  page_inner_text : World -> (exn + str) * World;
  llm_solve : str -> json -> World -> (exn + json) * World;
  http_post : str -> payload -> World -> post_outcome * World;
  browser_close : World -> option exn * World
}.
Arguments launch_browser {World} _ _.
Arguments loop_time {World} _ _.
Arguments page_goto {World} _ _ _.
Arguments page_result_html {World} _ _.
Arguments page_inner_text {World} _ _.
Arguments llm_solve {World} _ _ _ _.
Arguments http_post {World} _ _ _ _.
Arguments browser_close {World} _ _.

Record QuizSolver : Type :=
  { email : str; secret : str; timeout_seconds : Z }.

Definition max_retries : nat := 2.

Definition completed : json :=
  JObj [("status", JStr "completed");
        ("message", JStr "Quiz solving completed")].
Definition timeout_exceeded : json :=
  JObj [("error", JStr "Timeout exceeded");
        ("reason", JStr "Quiz solving took longer than 3 minutes")].
Definition failed_to_parse : json :=
  JObj [("error", JStr "Failed to parse quiz");
        ("reason", JStr "Could not extract quiz question from page")].
Definition no_submit_url : json :=
  JObj [("error", JStr "No submit URL found");
        ("reason", JStr "Quiz page did not contain submit URL")].

Definition verdict_false (reason : str) : json :=
  JObj [("correct", JBool false); ("reason", JStr reason)].

(** The value [_submit_answer] returns for each way the request ends. *)
Definition verdict_of (o : post_outcome) : json :=
  match o with
  | PostJson result => result
  | PostText text =>
      verdict_false
        ("Invalid response from submit endpoint: " ++ Chars.take 200 text)
  | PostClientError msg => verdict_false ("Network error: " ++ msg)
  | PostError msg => verdict_false ("Failed to submit: " ++ msg)
  end.

(** The floats of Python are binary64: 53 bits of precision, exponents
    below 1024. *)
Definition prec : Z := 53.
Definition emax : Z := 1024.

(** [x - y] on floats: the difference, rounded to the nearest float. *)
Definition float_sub (x y : spec_float) : spec_float := SFsub prec emax x y.

(** The float of the integer [m] times two to the power [e]. *)
Definition dyadic (m e : Z) : spec_float :=
  binary_normalize prec emax m e false.

(** The float of a whole number of seconds. *)
Definition seconds (n : Z) : spec_float := dyadic n 0.

(** [elapsed > self.timeout_seconds], a float against an integer: Python
    compares the two numbers exactly.  A finite float is its mantissa
    times a power of two; nothing is greater than, or less than, a NaN. *)
Definition exceeds (elapsed : spec_float) (limit : Z) : bool :=
  match elapsed with
  | S754_zero _ => Z.ltb limit 0
  | S754_infinity negative => negb negative
  | S754_nan => false
  | S754_finite negative m e =>
      let mantissa := if negative then Z.neg m else Z.pos m in
      if Z.leb 0 e then Z.ltb limit (mantissa * 2 ^ e)
      else Z.ltb (limit * 2 ^ (- e)) mantissa
  end.

(** The number a finite float stands for. *)
Definition float_value (x : spec_float) : option Q :=
  match x with
  | S754_zero _ => Some (inject_Z 0)
  | S754_finite negative m e =>
      let mantissa := if negative then Z.neg m else Z.pos m in
      Some (if Z.leb 0 e then inject_Z (mantissa * 2 ^ e)
            else Qmake mantissa (Z.to_pos (2 ^ (- e))))
  | _ => None
  end.

Section Orchestrator.

Context {World : Type} (env : Env World).

Record state : Type := State { world : World; log : list event }.

Definition M (A : Type) : Type := state -> res A * state.

Definition ret {A} (a : A) : M A := fun s => (Val a, s).
Definition raise {A} (e : exn) : M A := fun s => (Raise e, s).
Definition out_of_fuel {A} : M A := fun s => (OutOfFuel, s).

Definition bind {A B} (c : M A) (k : A -> M B) : M B :=
  fun s =>
    match c s with
    | (Val a, s') => k a s'
    | (Raise e, s') => (Raise e, s')
    | (OutOfFuel, s') => (OutOfFuel, s')
    end.

Notation "x <- c ;; k" := (bind c (fun x => k))
  (at level 61, c at next level, right associativity).
Notation "c ;; k" := (bind c (fun _ => k))
  (at level 61, right associativity).

Definition emit (e : event) : M unit :=
  fun s => (Val tt, State (world s) (log s ++ [e])).

Definition ask {A} (call : World -> A * World) : M A :=
  fun s => let (a, w) := call (world s) in (Val a, State w (log s)).

Definition of_sum {A} (x : exn + A) : M A :=
  match x with inl e => raise e | inr a => ret a end.

(** [_get_quiz_question]: every exception of the body is caught and turned
    into [None]. *)
Definition _get_quiz_question (url : json) : M (option quiz_data) :=
  emit (EvNavigate url) ;;
  went <- ask (page_goto env url) ;;
  match went with
  | Some _ => ret None
  | None =>
      html <- ask (page_result_html env) ;;
      match html with
      | inl _ => ret None
      | inr result_html =>
          text <- (if is_empty result_html
                   then ask (page_inner_text env)
                   else ret (inr result_html)) ;;
          match text with
          | inl _ => ret None
          | inr result_content =>
              match extract result_content url with
              | inl _ => ret None
              | inr quiz => ret (Some quiz)
              end
          end
      end
  end.

(** [_solve_question]: the call of the language-model agent; what it raises
    is not caught. *)
Definition _solve_question (quiz : quiz_data) : M json :=
  emit (EvSolve (question quiz) (url quiz)) ;;
  answer <- ask (llm_solve env (question quiz) (url quiz)) ;;
  of_sum answer.

(** [_submit_answer] *)
Definition _submit_answer (self : QuizSolver) (submit_url : str)
  (quiz_url : json) (answer : json) : M json :=
  let p := Payload (email self) (secret self) quiz_url answer in
  emit (EvSubmit submit_url p) ;;
  outcome <- ask (http_post env submit_url p) ;;
  ret (verdict_of outcome).

(** The [while retry_count <= max_retries] loop.  It returns the variables
    [result] and [retry_count] as they are when the loop is left. *)
Fixpoint retry_loop (fuel : nat) (self : QuizSolver) (quiz : quiz_data)
  (current_url : json) (result : json) (retry_count : nat)
  : M (json * nat) :=
  if Nat.leb retry_count max_retries then
    match fuel with
    | O => out_of_fuel
    | S fuel' =>
        answer <- _solve_question quiz ;;
        result <- _submit_answer self (submit_url quiz) current_url answer ;;
        correct <- of_sum (get result "correct") ;;
        if truthy correct then ret (result, retry_count)
        else
          let retry_count := S retry_count in
          next <- of_sum (get result "url") ;;
          if truthy next then ret (result, retry_count)
          else retry_loop fuel' self quiz current_url result retry_count
    end
  else ret (result, retry_count).

(** The [# Handle result] block: the next value of [current_url]. *)
Definition handle_result (result : json) : exn + json :=
  match get result "correct" with
  | inl e => inl e
  | inr correct =>
      if truthy correct then get result "url"
      else
        match get result "url" with
        | inl e => inl e
        | inr next => if truthy next then get result "url" else inr JNull
        end
  end.

(** The [while current_url] loop. *)
Fixpoint quiz_loop (fuel : nat) (self : QuizSolver) (start_time : spec_float)
  (current_url : json) : M json :=
  if truthy current_url then
    match fuel with
    | O => out_of_fuel
    | S fuel' =>
        now <- ask (loop_time env) ;;
        let elapsed := float_sub now start_time in
        if exceeds elapsed (timeout_seconds self) then ret timeout_exceeded
        else
          quiz_data <- _get_quiz_question current_url ;;
          match quiz_data with
          | None => ret failed_to_parse
          | Some quiz =>
              if is_empty (submit_url quiz) then ret no_submit_url
              else
                r <- retry_loop (S max_retries) self quiz current_url
                       JNull 0 ;;
                next <- of_sum (handle_result (fst r)) ;;
                quiz_loop fuel' self start_time next
          end
    end
  else ret completed.

(** [finally: if browser: await browser.close()] *)
Definition finally_close {A} (body : M A) : M A :=
  fun s =>
    match body s with
    | (OutOfFuel, s') => (OutOfFuel, s')
    | (r, s') =>
        match (emit EvClose ;; ask (browser_close env)) s' with
        | (Val (Some e), s'') => (Raise e, s'')
        | (_, s'') => (r, s'')
        end
    end.

(** [solve_quiz] *)
Definition solve_quiz (fuel : nat) (self : QuizSolver) (initial_url : json)
  : M json :=
  started <- ask (launch_browser env) ;;
  match started with
  | NotLaunched e => raise e
  | LaunchedNoPage e => finally_close (raise e)
  | Launched =>
      finally_close
        (start_time <- ask (loop_time env) ;;
         quiz_loop fuel self start_time initial_url)
  end.

End Orchestrator.

End Session.

(* ------------------------------------------------------------------------- *)
(** ** The [POST /quiz] handler of [main.py] *)

Module Main.

Import Py Session.

(** [SECRET] and [EMAIL], read from the process environment at start. *)
Record config : Type := { SECRET : str; EMAIL : str }.

Definition TIMEOUT_SECONDS : Z := 180.

Record response : Type := Response { status_code : nat; content : json }.

(** [await request.json()] raised, or returned a value. *)
Inductive request_body : Type :=
| NotJson
| Json (body : json).

Record QuizRequest : Type :=
  { req_email : str; req_secret : str; req_url : str }.

(** What the caller receives for [raise HTTPException(status, detail)]. *)
Definition http_exception (status : nat) (detail : str) : response :=
  Response status (JObj [("detail", JStr detail)]).

(** The validation of the body by the [QuizRequest] model, for a dict:
    three str fields are required, further fields are allowed (strings
    are taken as they are; no other value is turned into a str). *)
Definition validate (items : list (str * json)) : option QuizRequest :=
  match assoc "email" items, assoc "secret" items, assoc "url" items with
  | Some (JStr e), Some (JStr s), Some (JStr u) =>
      Some {| req_email := e; req_secret := s; req_url := u |}
  | _, _, _ => None
  end.

Definition failed_to_solve (e : exn) : json :=
  JObj [("error", JStr "Failed to solve quiz"); ("reason", JStr (exn_msg e))].

Section Handler.

Context {World : Type} (env : Env World).
(** [LLMAgent()], run by the constructor of [QuizSolver]. *)
Context (new_agent : World -> option exn * World).
(** The text of a [ValidationError]. *)
Context (validation_text : list (str * json) -> str).
Context (cfg : config).

(** The inner [try] of [handle_quiz]: the session, and what is answered
    for its result and for an exception it raises. *)
Definition run_session (fuel : nat) (solver : QuizSolver) (url : str)
  : M response :=
  fun s =>
    match solve_quiz env fuel solver (JStr url) s with
    | (Val result, s') => (Val (Response 200 result), s')
    | (Raise e, s') => (Val (Response 500 (failed_to_solve e)), s')
    | (OutOfFuel, s') => (OutOfFuel, s')
    end.

Definition handle_quiz (fuel : nat) (request : request_body) : M response :=
  match request with
  | NotJson => ret (http_exception 400 "Invalid JSON payload")
  | Json (JObj items) =>
      match validate items with
      | None =>
          ret (http_exception 400
                 ("Invalid request: " ++ validation_text items))
      | Some quiz_request =>
          if negb (Text.eqb (req_secret quiz_request) (SECRET cfg))
          then ret (http_exception 403 "Invalid secret")
          else if negb (Text.eqb (req_email quiz_request) (EMAIL cfg))
          then ret (http_exception 403 "Email mismatch")
          else
            bind (ask new_agent)
              (fun made =>
                 match made with
                 | Some _ => ret (http_exception 500 "Internal server error")
                 | None =>
                     run_session fuel
                       {| email := req_email quiz_request;
                          secret := req_secret quiz_request;
                          timeout_seconds := TIMEOUT_SECONDS |}
                       (req_url quiz_request)
                 end)
      end
  | Json _ => ret (http_exception 500 "Internal server error")
  end.

End Handler.

End Main.

(* ------------------------------------------------------------------------- *)
(** ** A scripted environment

    A world that answers each kind of call from a list, in order: the
    readings of the clock, the markup of [#result] of the pages visited, the
    answers of the solver and the ways the submissions end.  The browser
    starts and closes without fault, navigation succeeds, and a call beyond
    the end of its list raises. *)

Module Scripted.

Import Py Session.

Record script : Type := Script {
  clock : list spec_float;
  pages : list str;
  answers : list json;
  posts : list post_outcome
}.

Definition exhausted : exn := Exn "RuntimeError" "script exhausted".

Definition next_time (w : script) : spec_float * script :=
  match clock w with
  | t :: rest => (t, Script rest (pages w) (answers w) (posts w))
  | [] => (seconds 0, w)
  end.

Definition next_page (w : script) : (exn + str) * script :=
  match pages w with
  | p :: rest => (inr p, Script (clock w) rest (answers w) (posts w))
  | [] => (inl exhausted, w)
  end.

Definition next_answer (w : script) : (exn + json) * script :=
  match answers w with
  | a :: rest => (inr a, Script (clock w) (pages w) rest (posts w))
  | [] => (inl exhausted, w)
  end.

Definition next_post (w : script) : post_outcome * script :=
  match posts w with
  | o :: rest => (o, Script (clock w) (pages w) (answers w) rest)
  | [] => (PostError "script exhausted", w)
  end.

Definition env : Env script := {|
  launch_browser := fun w => (Launched, w);
  loop_time := next_time;
  page_goto := fun _ w => (None, w);
  page_result_html := next_page;
  page_inner_text := fun w => (inr "", w);
  llm_solve := fun _ _ => next_answer;
  http_post := fun _ _ => next_post;
  browser_close := fun w => (None, w)
|}.

Definition start (w : script) : @state script := State w [].

Definition me : QuizSolver :=
  {| email := "me@example.com"; secret := "s3cret"; timeout_seconds := 180 |}.

Definition cfg : Main.config :=
  {| Main.SECRET := "s3cret"; Main.EMAIL := "me@example.com" |}.

Definition wrong : post_outcome :=
  PostJson (JObj [("correct", JBool false); ("reason", JStr "wrong")]).

Definition right_and_done : post_outcome :=
  PostJson (JObj [("correct", JBool true)]).

Definition first_url : json := JStr "https://host.example/q/1".
Definition second_url : json := JStr "https://host.example/q/2".

Definition wrong_but_next : post_outcome :=
  PostJson (JObj [("correct", JBool false); ("url", second_url)]).

(** Verdicts that have a [url] entry, with a falsy value. *)
Definition null_url : json :=
  JObj [("correct", JBool false); ("url", JNull)].
Definition empty_url : json := JObj [("url", JStr "")].

Definition plain_quiz : Extractor.quiz_data :=
  Extractor.QuizData "Answer is 42" "https://host.example/submit" first_url.

Definition solve_ev : event := EvSolve "Answer is 42" first_url.
Definition submit_ev (answer : json) : event :=
  EvSubmit "https://host.example/submit"
    (Payload "me@example.com" "s3cret" first_url answer).

Definition new_agent (w : script) : option exn * script := (None, w).
Definition validation_text (items : list (str * json)) : str :=
  "validation error".

Definition request : Main.request_body :=
  Main.Json (JObj [("email", JStr "me@example.com");
                   ("secret", JStr "s3cret");
                   ("url", JStr "https://host.example/q/1")]).

(** A page whose labelled payload is the base64 of
    [Post your answer to https://host.example/submit]. *)
Definition labelled_page : str :=
  "base64: UG9zdCB5b3VyIGFuc3dlciB0byBodHRwczovL2hvc3QuZXhhbXBsZS9zdWJtaXQ=".

(** A page whose call-style payload does not decode and whose labelled
    payload is the base64 of [What is 6 times 7?]. *)
Definition two_payloads_page : str :=
  "atob(`Q`) base64: V2hhdCBpcyA2IHRpbWVzIDc/".

End Scripted.

(* ------------------------------------------------------------------------- *)
(** ** Notions of the specification *)

Module Spec.

Import Py Chars Re Extractor Session.

Definition scheme_char (c : char) : bool :=
  (is_upper c || is_lower c || is_digit c || one_of "+-." c)%bool.
Definition host_char (c : char) : bool := negb (one_of "/?#" c).

Fixpoint span (ok : char -> bool) (s : str) : str * str :=
  match s with
  | c :: s' =>
      if ok c then let (a, b) := span ok s' in (c :: a, b)
      else ([], s)
  | [] => ([], [])
  end.

(** The origin of a well-formed absolute URL, in the words of the
    specification: its scheme and its host.  [None] for any other text. *)
Definition spec_origin (url : str) : option str :=
  let (scheme, after) := span scheme_char url in
  match scheme with
  | c :: _ =>
      if prefix "://" after then
        let (host, _) := span host_char (skipn 3 after) in
        if (is_upper c || is_lower c)%bool && negb (is_empty host)
        then Some (scheme ++ "://" ++ host)
        else None
      else None
  | [] => None
  end.

(** The submit URL the specification asks for when no pattern matches:
    origin plus [/submit], the literal for a URL that is not well formed. *)
Definition spec_default_submit_url (url : str) : str :=
  match spec_origin url with
  | Some origin => origin ++ "/submit"
  | None => fallback_submit_url
  end.

(** A decode candidate both matches and decodes: the text it yields. *)
Definition decodes_with (pattern : regex) (content : str)
  : option str :=
  match search false pattern content with
  | Some m =>
      match group1 m with
      | Some payload => B64.b64decode_utf8 payload
      | None => None
      end
  | None => None
  end.

Definition has_key (k : str) (d : json) : bool :=
  match d with
  | JObj items => match assoc k items with Some _ => true | None => false end
  | _ => false
  end.

(** A session ends in a failure state when it raises or returns a
    dictionary with an [error] entry. *)
Definition failure_state (r : res json) : bool :=
  match r with
  | Val d => has_key "error" d
  | Raise _ => true
  | OutOfFuel => false
  end.

(** The submissions among the calls of a log. *)
Definition is_submit (e : event) : bool :=
  match e with EvSubmit _ _ => true | _ => false end.
Definition is_navigate (e : event) : bool :=
  match e with EvNavigate _ => true | _ => false end.
Definition submissions (l : list event) : nat := length (filter is_submit l).
Definition navigations (l : list event) : nat :=
  length (filter is_navigate l).

(** The four dictionaries a session can return. *)
Definition session_results : list json :=
  [completed; timeout_exceeded; failed_to_parse; no_submit_url].

(** Several characters in front of a match. *)
Fixpoint pushes (run : str) (x : found) : found :=
  match run with
  | [] => x
  | c :: run' => push c (pushes run' x)
  end.

(** Every character of the text is in the class. *)
Definition all_in (cls : char -> bool) (s : str) : bool :=
  forallb cls s.

(** The text is empty or starts with a character outside the class. *)
Definition stops_at (cls : char -> bool) (s : str) : Prop :=
  match s with
  | [] => True
  | a :: _ => cls a = false
  end.

(** A verdict that calls for a retry: a dictionary whose [correct] and
    [url] are both missing or falsy. *)
Definition no_progress (v : json) : Prop :=
  exists items, v = JObj items
                /\ truthy (dict_get items "correct") = false
                /\ truthy (dict_get items "url") = false.

Section Steps.

Context {World : Type} (env : Env World) (self : QuizSolver).

(** [failed_attempts quiz url n r s r' s' evs]: from the state [s], [n]
    solve/submit attempts in a row each return and each get a verdict that
    calls for a retry; [r'] is the last verdict ([r] when [n] is 0), [s']
    the state after them and [evs] the calls made. *)
Inductive failed_attempts (quiz : quiz_data) (current_url : json)
  : nat -> json -> state -> json -> state -> list event -> Prop :=
| attempts_none r s : failed_attempts quiz current_url 0 r s r s []
| attempts_more n r s a s1 v s2 r' s' evs :
    _solve_question env quiz s = (Val a, s1) ->
    _submit_answer env self (submit_url quiz) current_url a s1
    = (Val v, s2) ->
    no_progress v ->
    failed_attempts quiz current_url n v s2 r' s' evs ->
    failed_attempts quiz current_url (S n) r s r' s'
      (EvSolve (question quiz) (url quiz)
       :: EvSubmit (submit_url quiz)
            (Payload (email self) (secret self) current_url a)
       :: evs).

(** The start of a step: the deadline check passes, the page is read and
    the question extracted. *)
Definition step_starts (start : spec_float) (current_url : json) s
  (quiz : quiz_data) s1 : Prop :=
  truthy current_url = true
  /\ exists now w,
       loop_time env (world s) = (now, w)
       /\ exceeds (float_sub now start) (timeout_seconds self) = false
       /\ _get_quiz_question env current_url (State w (log s))
          = (Val (Some quiz), s1)
       /\ is_empty (submit_url quiz) = false.

(** The two relations above, run: the attempts and the start of a step as
    the program makes them. *)
Definition calls_for_retry (v : json) : bool :=
  match v with
  | JObj items =>
      negb (truthy (dict_get items "correct"))
      && negb (truthy (dict_get items "url"))
  | _ => false
  end.

Fixpoint run_failed_attempts (n : nat) (quiz : quiz_data)
  (current_url : json) (r : json) (s : state)
  : option (json * state * list event) :=
  match n with
  | O => Some (r, s, [])
  | S n' =>
      match _solve_question env quiz s with
      | (Val a, s1) =>
          match _submit_answer env self (submit_url quiz) current_url a s1
          with
          | (Val v, s2) =>
              if calls_for_retry v then
                match run_failed_attempts n' quiz current_url v s2 with
                | Some (r', s', evs) =>
                    Some (r', s',
                          EvSolve (question quiz) (url quiz)
                          :: EvSubmit (submit_url quiz)
                               (Payload (email self) (secret self)
                                        current_url a)
                          :: evs)
                | None => None
                end
              else None
          | _ => None
          end
      | _ => None
      end
  end.

Definition run_step_start (start : spec_float) (current_url : json) (s : state)
  : option (quiz_data * state) :=
  if truthy current_url then
    let (now, w) := loop_time env (world s) in
    if exceeds (float_sub now start) (timeout_seconds self) then None
    else
      match _get_quiz_question env current_url (State w (log s)) with
      | (Val (Some quiz), s1) =>
          if is_empty (submit_url quiz) then None else Some (quiz, s1)
      | _ => None
      end
  else None.

End Steps.

End Spec.

(* ------------------------------------------------------------------------- *)
(** ** Reading a log of calls *)

Module Trace.

Import Py Extractor Session Spec.

Definition is_solve (e : event) : bool :=
  match e with EvSolve _ _ => true | _ => false end.
Definition is_close (e : event) : bool :=
  match e with EvClose => true | _ => false end.
Definition solves (l : list event) : nat := length (filter is_solve l).
Definition closes (l : list event) : nat := length (filter is_close l).

(** The page the browser is on after the calls of a log. *)
Fixpoint page_after (page : option json) (evs : list event) : option json :=
  match evs with
  | [] => page
  | EvNavigate u :: rest => page_after (Some u) rest
  | _ :: rest => page_after page rest
  end.

(** The calls of a log are calls of the loop of the solver [self], made
    from the page [page]: a question is solved for the page the browser is
    on; a submission goes to a submit URL that is not empty, with the email
    and the secret of the solver and the URL of the page the browser is on;
    the browser is not closed. *)
Fixpoint calls_ok (self : QuizSolver) (page : option json)
  (evs : list event) : Prop :=
  match evs with
  | [] => True
  | EvNavigate u :: rest => calls_ok self (Some u) rest
  | EvSolve _ u :: rest => page = Some u /\ calls_ok self page rest
  | EvSubmit target p :: rest =>
      is_empty target = false
      /\ p_email p = email self /\ p_secret p = secret self
      /\ page = Some (p_url p)
      /\ calls_ok self page rest
  | EvClose :: _ => False
  end.

Definition is_object (v : json) : bool :=
  match v with JObj _ => true | _ => false end.

(** The request ended with a body that [response.json()] accepted. *)
Definition is_json_body (o : post_outcome) : bool :=
  match o with PostJson _ => true | _ => false end.

(** A character with its case folded as the patterns of the program can
    tell: an ASCII capital is lowered, and the long s (U+017F), which
    [re.IGNORECASE] takes for an [s], is read as [s]. *)
Definition fold_s (c : char) : char :=
  if N.eqb c 383 then "s"%ch else Chars.to_lower c.

Definition fold (u : str) : str := map fold_s u.

(** The text starts with [http://] or [https://], its letters in either
    case and its [s], if any, possibly the long s. *)
Definition starts_http (u : str) : bool :=
  (prefix "http://" (fold u) || prefix "https://" (fold u))%bool.

(** The calls of a log of the loop, read from left to right, keep the
    pace of the loop: a question is solved only on a page that was
    visited and that still has an attempt left, [left] being the number of
    attempts the page the browser is on still has; a solve is followed at
    once by its submission, or is the last call of the log; nothing is
    submitted without a solve just before; a visit gives the page
    [max_retries + 1] attempts; the browser is not closed. *)
Fixpoint paced (left : nat) (evs : list event) : bool :=
  match evs with
  | [] => true
  | EvNavigate _ :: rest => paced (S max_retries) rest
  | EvSolve _ _ :: rest =>
      match left with
      | O => false
      | S left' =>
          match rest with
          | [] => true
          | EvSubmit _ _ :: rest' => paced left' rest'
          | _ => false
          end
      end
  | EvSubmit _ _ :: _ => false
  | EvClose :: _ => false
  end.

End Trace.

(* ------------------------------------------------------------------------- *)
(** ** Reading the results of the matcher *)

Module Cont.

Import Chars Re.

(** Whatever the matcher [k] finds has the property [Q]. *)
Definition yields (Q : found -> Prop) (k : str -> option found) : Prop :=
  forall s x, k s = Some x -> Q x.

(** The text up to the group close starts, its case folded, with [p1] or
    with [p2]. *)
Definition closes_with (p1 p2 : str) (x : found) : Prop :=
  exists t, to_close x = Some t
            /\ (prefix p1 (Trace.fold t) || prefix p2 (Trace.fold t))%bool
               = true.

(** The group has matched and its text starts, its case folded, with [p1]
    or with [p2]. *)
Definition group_with (p1 p2 : str) (x : found) : Prop :=
  exists t, grp x = Some t
            /\ (prefix p1 (Trace.fold t) || prefix p2 (Trace.fold t))%bool
               = true.

(** The group has matched a text that starts with [http://] or
    [https://], its case folded. *)
Definition http_group (o : option str) : Prop :=
  exists t, o = Some t /\ Trace.starts_http t = true.

(** A literal that is an ASCII character other than the letters [i] and
    [k]: the characters that match it are its two cases and, for [s], the
    long s. *)
Definition plain_lit (c : char) : bool :=
  (N.ltb c 128 && negb (N.eqb (to_lower c) "i"%ch)
   && negb (N.eqb (to_lower c) "k"%ch))%bool.

(** A node outside the group markers. *)
Definition plain (n : node) : bool :=
  match n with GOpen | GClose => false | _ => true end.

(** Where [k] finds a match, so does [k']. *)
Definition covers (k k' : str -> option found) : Prop :=
  forall s, k s <> None -> k' s <> None.

(** The text has no character [c]. *)
Definition lacks (c : char) (s : str) : Prop :=
  Spec.all_in (fun a => negb (char_eqb c a)) s = true.

End Cont.

(* ------------------------------------------------------------------------- *)
(** ** Which requests the handler accepts *)

Module Requests.

Import Py Main.

(** The request passes the checks of [handle_quiz]: its body is a JSON
    object with the three str fields, the secret is the configured one
    and the email is the configured one. *)
Definition accepted (cfg : config) (request : request_body) : bool :=
  match request with
  | Json (JObj items) =>
      match validate items with
      | Some q =>
          (Text.eqb (req_secret q) (SECRET cfg)
           && Text.eqb (req_email q) (EMAIL cfg))%bool
      | None => false
      end
  | _ => false
  end.

End Requests.

(* ------------------------------------------------------------------------- *)
(** ** [base64.b64encode(...).decode('utf-8')]

    The library call of the download of a PDF file: the standard alphabet,
    three bytes to four characters, [=] padding at the end.  The content
    is a sequence of bytes, one [ascii] per byte; the encoded text is the
    list of its bytes. *)

Module B64e.

Definition code (b : ascii) : N := N_of_ascii b.

(** The character of a digit, as a byte. *)
Definition digit (v : N) : N :=
  if N.ltb v 26 then (v + 65)%N
  else if N.ltb v 52 then (v + 71)%N
  else if N.ltb v 62 then (v - 4)%N
  else if N.eqb v 62 then 43%N
  else 47%N.

(** The four digits of three bytes. *)
Definition d0 (b0 : ascii) : N := N.shiftr (code b0) 2.
Definition d1 (b0 b1 : ascii) : N :=
  N.lor (N.shiftl (N.land (code b0) 3) 4) (N.shiftr (code b1) 4).
Definition d2 (b1 b2 : ascii) : N :=
  N.lor (N.shiftl (N.land (code b1) 15) 2) (N.shiftr (code b2) 6).
Definition d3 (b2 : ascii) : N := N.land (code b2) 63.

Definition zero : ascii := Ascii.zero.

(** The pad character [=], as a byte. *)
Definition pad : N := 61%N.

Fixpoint b64encode (content : string) : list N :=
  match content with
  | EmptyString => []
  | String b0 EmptyString =>
      [digit (d0 b0); digit (d1 b0 zero); pad; pad]
  | String b0 (String b1 EmptyString) =>
      [digit (d0 b0); digit (d1 b0 b1); digit (d2 b1 zero); pad]
  | String b0 (String b1 (String b2 rest)) =>
      digit (d0 b0) :: digit (d1 b0 b1) :: digit (d2 b1 b2)
      :: digit (d3 b2) :: b64encode rest
  end.

(** The bytes of a content. *)
Definition bytes (content : string) : list N :=
  map code (list_ascii_of_string content).

(** Every byte value. *)
Definition all_ascii : list ascii := map ascii_of_nat (seq 0 256).

Definition below (n : nat) : list N := map N.of_nat (seq 0 n).

(** A byte splits into its high and low bits, at 2, 4 and 6 bits. *)
Definition byte_ok (b : ascii) : bool :=
  let n := code b in
  (N.ltb (N.shiftr n 2) 64 && N.ltb (N.land n 3) 4
   && N.ltb (N.shiftr n 4) 16 && N.ltb (N.land n 15) 16
   && N.ltb (N.shiftr n 6) 4 && N.ltb (N.land n 63) 64
   && N.eqb (N.lor (N.shiftl (N.shiftr n 2) 2) (N.land n 3)) n
   && N.eqb (N.lor (N.shiftl (N.shiftr n 4) 4) (N.land n 15)) n
   && N.eqb (N.lor (N.shiftl (N.shiftr n 6) 6) (N.land n 63)) n)%bool.

(** Two parts put side by side, [lo] on [k] bits, come apart again. *)
Definition glue_ok (k : N) (hi lo : N) : bool :=
  let v := N.lor (N.shiftl hi k) lo in
  (N.ltb v 64 && N.eqb (N.shiftr v k) hi
   && N.eqb (N.land v (N.ones k)) lo)%bool.

(** What the decoder needs of a digit. *)
Definition digit_ok (v : N) : bool :=
  (match B64.value (digit v) with Some w => N.eqb w v | None => false end
   && negb (N.eqb (digit v) pad)
   && Extractor.b64_char (digit v)
   && B64.is_ascii7 (digit v))%bool.

End B64e.


(* ------------------------------------------------------------------------- *)
(** ** The file tools of the agent ([llm_agent.py])

    The libraries ([aiohttp], [pandas], [PyPDF2], [json]) and the page are
    oracles of a record; what the module itself does with their results is
    written out.  A [bytes] object is a [String.string], one [ascii] per
    byte. *)

Module Agent.

Import Chars Py B64e.

(** An anchor as [page.evaluate] returns it: [{text, href}]. *)
Record link : Type := Link { text : str; href : str }.

(** What [download_and_process_file] returns: a [bytes] object, or a value
    of the kinds [json.loads] produces (a [str] among them). *)
Inductive data : Type :=
| Bytes (content : string)
| Value (v : json).

Definition nl : str := [10%N].

Record Tools (World : Type) : Type := MkTools {
  (** the module flag set by [import PyPDF2] *)
  PDF_AVAILABLE : bool;
  (** [page.evaluate] of the anchor script *)
  page_links : World -> (exn + list link) * World;
  (** [session.get(url)] and [response.read()] *)
  session_get : str -> World -> (exn + string) * World;
  (** [pd.read_csv(buffer, encoding=...)] and [df.to_dict('records')] *)
  read_csv : option str -> string -> exn + data;
  (** [pd.read_excel(buffer)] and [df.to_dict('records')] *)
  read_excel : string -> exn + data;
  json_loads : str -> exn + json;
  (** what [bytes.decode('utf-8')] raises on these bytes *)
  decode_fault : list N -> exn;
  (** [content.decode('utf-8', errors='ignore')] *)
  decode_ignore : string -> str;
  (** what [base64.b64decode] raises on this argument *)
  b64decode_fault : data -> exn;
  (** [PyPDF2.PdfReader(BytesIO(pdf_bytes)).pages], each page with what
      its [extract_text()] gives *)
  pdf_pages : list N -> exn + list (exn + str);
  (** the block of a CSV file, from the data frame of its records *)
  csv_block : str -> data -> exn + str;
  (** [json.dumps(data, indent=2)] *)
  json_dumps : data -> exn + str;
  (** [str(data)] of a value that is no [str] *)
  repr : data -> str
}.

Arguments PDF_AVAILABLE {World}.
Arguments page_links {World}.
Arguments session_get {World}.
Arguments read_csv {World}.
Arguments read_excel {World}.
Arguments json_loads {World}.
Arguments decode_fault {World}.
Arguments decode_ignore {World}.
Arguments b64decode_fault {World}.
Arguments pdf_pages {World}.
Arguments csv_block {World}.
Arguments json_dumps {World}.
Arguments repr {World}.

Definition extensions : list str :=
  [".pdf"; ".csv"; ".json"; ".xlsx"; ".txt"; ".xls"].

(** [any(ext in link['href'].lower() for ext in [...])] *)
Definition is_file_link (l : link) : bool :=
  existsb (fun ext => contains ext (lower (href l))) extensions.

Definition _get_file_type (url : str) : str :=
  let url_lower := lower url in
  if contains ".pdf" url_lower then "pdf"
  else if contains ".csv" url_lower then "csv"
  else if contains ".json" url_lower then "json"
  else if (contains ".xlsx" url_lower || contains ".xls" url_lower)%bool
  then "excel"
  else if contains ".txt" url_lower then "txt"
  else "unknown".

(** The name [io] is never bound in the module: it imports [BytesIO] from
    [io], not [io] itself, so evaluating [io.BytesIO(content)] raises. *)
Definition name_error_io : exn := Exn "NameError" "name 'io' is not defined".

Definition io_BytesIO (content : string) : exn + string :=
  inl name_error_io.

Section Files.

Context {World : Type}.
Variable tools : Tools World.

(** [content.decode('utf-8')] *)
Definition decode_utf8 (content : list N) : exn + str :=
  match B64.utf8_decode content with
  | Some text => inr text
  | None => inl (decode_fault tools content)
  end.

(** One [pd.read_csv(io.BytesIO(content), ...)] with its [to_dict]. *)
Definition csv_attempt (encoding : option str) (content : string)
  : exn + data :=
  match io_BytesIO content with
  | inl e => inl e
  | inr buffer => read_csv tools encoding buffer
  end.

(** The [for encoding in [...]] loop of the handler, and its bare
    [raise], which raises again what the first attempt raised. *)
Fixpoint csv_retries (encodings : list str) (content : string)
  (first : exn) : exn + data :=
  match encodings with
  | [] => inl first
  | encoding :: rest =>
      match csv_attempt (Some encoding) content with
      | inr records => inr records
      | inl _ => csv_retries rest content first
      end
  end.

Definition download_and_process_file (url file_type : str)
  : World -> (exn + data) * World :=
  fun w =>
    match session_get tools url w with
    | (inl e, w') => (inl e, w')
    | (inr content, w') =>
        (if Text.eqb file_type "pdf" then
           match decode_utf8 (b64encode content) with
           | inl e => inl e
           | inr encoded => inr (Value (JStr encoded))
           end
         else if Text.eqb file_type "csv" then
           match csv_attempt None content with
           | inr records => inr records
           | inl first =>
               csv_retries ["utf-8"; "latin-1"; "iso-8859-1"] content first
           end
         else if Text.eqb file_type "json" then
           match decode_utf8 (bytes content) with
           | inl e => inl e
           | inr document =>
               match json_loads tools document with
               | inl e => inl e
               | inr v => inr (Value v)
               end
           end
         else if Text.eqb file_type "excel" then
           match io_BytesIO content with
           | inl e => inl e
           | inr buffer => read_excel tools buffer
           end
         else if Text.eqb file_type "txt" then
           inr (Value (JStr (decode_ignore tools content)))
         else inr (Bytes content),
         w')
    end.

(** [base64.b64decode(s)]: a [str] must be ASCII; the decoding is the
    lenient one. *)
Definition b64decode (s : data) : exn + list N :=
  match s with
  | Value (JStr t) =>
      if forallb B64.is_ascii7 t then
        match B64.a2b_base64 t 0 0%N 0 [] with
        | Some decoded => inr decoded
        | None => inl (b64decode_fault tools s)
        end
      else inl (b64decode_fault tools s)
  | Bytes t =>
      match B64.a2b_base64 (bytes t) 0 0%N 0 [] with
      | Some decoded => inr decoded
      | None => inl (b64decode_fault tools s)
      end
  | Value _ => inl (b64decode_fault tools s)
  end.

(** The [for page in pdf_reader.pages] loop. *)
Fixpoint page_texts (pages : list (exn + str)) (text : str)
  : exn + str :=
  match pages with
  | [] => inr text
  | inl e :: _ => inl e
  | inr page_text :: rest => page_texts rest (text ++ page_text ++ nl)
  end.

(** The body of the [try] of [_extract_pdf_text], from the decoded
    bytes on. *)
Definition read_pdf (pdf_bytes : list N) : exn + str :=
  match pdf_pages tools pdf_bytes with
  | inl e => inl e
  | inr pages => page_texts pages ""
  end.

Definition _extract_pdf_text (base64_data : data) : str :=
  if negb (PDF_AVAILABLE tools)
  then "PDF processing not available (PyPDF2 not installed)"
  else
    match b64decode base64_data with
    | inl e => "Error extracting PDF: " ++ exn_msg e
    | inr pdf_bytes =>
        match read_pdf pdf_bytes with
        | inl e => "Error extracting PDF: " ++ exn_msg e
        | inr text => text
        end
    end.

(** [str(data)] *)
Definition str_of (d : data) : str :=
  match d with
  | Value (JStr s) => s
  | _ => repr tools d
  end.

(** What the loop appends for a file that was downloaded. *)
Definition block (file_url file_type : str) (d : data) : exn + str :=
  if Text.eqb file_type "csv" then csv_block tools file_url d
  else if Text.eqb file_type "json" then
    match json_dumps tools d with
    | inl e => inl e
    | inr dumped => inr ("JSON file (" ++ file_url ++ "):" ++ nl ++ dumped)
    end
  else if Text.eqb file_type "pdf" then
    inr ("PDF file (" ++ file_url ++ ") text:" ++ nl
         ++ take 5000 (_extract_pdf_text d))
  else inr ("File (" ++ file_url ++ "): " ++ take 1000 (str_of d)).

Definition error_block (file_url : str) (e : exn) : str :=
  "Error processing " ++ file_url ++ ": " ++ exn_msg e.

(** One turn of the [for link in file_links] loop: what it appends. *)
Definition process_link (l : link) : World -> str * World :=
  fun w =>
    let file_url := href l in
    let file_type := _get_file_type file_url in
    match download_and_process_file file_url file_type w with
    | (inl e, w') => (error_block file_url e, w')
    | (inr d, w') =>
        (match block file_url file_type d with
         | inl e => error_block file_url e
         | inr b => b
         end, w')
    end.

Fixpoint process_links (file_links : list link) (processed_data : list str)
  : World -> list str * World :=
  fun w =>
    match file_links with
    | [] => (processed_data, w)
    | l :: rest =>
        let (b, w') := process_link l w in
        process_links rest (processed_data ++ [b]) w'
    end.

(** [sep.join(parts)] *)
Fixpoint join (sep : str) (parts : list str) : str :=
  match parts with
  | [] => ""
  | [p] => p
  | p :: rest => p ++ sep ++ join sep rest
  end.

Definition _process_files_from_question : World -> option str * World :=
  fun w =>
    match page_links tools w with
    | (inl _, w') => (None, w')
    | (inr links, w') =>
        let file_links := filter is_file_link links in
        match file_links with
        | [] => (None, w')
        | _ =>
            let (processed_data, w'') := process_links file_links [] w' in
            (match processed_data with
             | [] => None
             | _ => Some (join (nl ++ nl) processed_data)
             end, w'')
        end
    end.

End Files.

(** The labels a block can start with. *)
Definition labels : list str :=
  ["CSV file ("; "JSON file ("; "PDF file ("; "File ("; "Error processing "].

(** The block names the file it is about. *)
Definition names (l : link) (b : str) : Prop :=
  exists label, In label labels
                /\ prefix (label ++ href l) b = true.

End Agent.

(* ------------------------------------------------------------------------- *)
(** ** More scripted requests and pages *)

Module Scripted2.

Import Py Session Scripted.

(** A request with a wrong secret and a wrong email. *)
Definition wrong_request : Main.request_body :=
  Main.Json (JObj [("email", JStr "you@example.com");
                   ("secret", JStr "guess");
                   ("url", JStr "https://host.example/q/1")]).

(** A page with three links; the network has the first two. *)
Definition report_pdf : str := "https://host.example/files/report.pdf".
Definition sales_csv : str := "https://host.example/files/Sales.CSV".
Definition about_page : str := "https://host.example/about".

Definition pdf_content : string := "%PDF-1.4 one page"%string.

Definition tools : Agent.Tools unit :=
  Agent.MkTools unit
    true
    (fun w => (inr [Agent.Link "Report" report_pdf;
                    Agent.Link "About" about_page;
                    Agent.Link "Sales" sales_csv], w))
    (fun u w =>
       if Text.eqb u report_pdf then (inr pdf_content, w)
       else if Text.eqb u sales_csv then (inr "a,b"%string, w)
       else (inl (Exn "ClientError" "Not found"), w))
    (fun _ _ => inl (Exn "ParserError" "no columns"))
    (fun _ => inl (Exn "ValueError" "no workbook"))
    (fun _ => inl (Exn "JSONDecodeError" "Expecting value"))
    (fun _ => Exn "UnicodeDecodeError" "invalid start byte")
    (fun _ => "text")
    (fun _ => Exn "binascii.Error" "Incorrect padding")
    (fun pdf_bytes =>
       if list_eq_dec N.eq_dec pdf_bytes (B64e.bytes pdf_content)
       then inr [inr "Total: 42"]
       else inl (Exn "PdfReadError" "EOF marker not found"))
    (fun _ _ => inl (Exn "ValueError" "no frame"))
    (fun _ => inl (Exn "TypeError" "not serializable"))
    (fun _ => "b''").

End Scripted2.

Import Py Chars Re Extractor Session Spec Scripted.
Import Trace Cont Requests B64e Agent Scripted2.

(* ------------------------------------------------------------------------- *)
(** * Properties of text *)

Section Text_facts.

Lemma eqb_refl (a : str) : Text.eqb a a = true.
Proof.
  induction a as [|c a IH]; cbn [Text.eqb]; [reflexivity|].
  now rewrite N.eqb_refl, IH.
Qed.

Lemma eqb_eq (a b : str) : Text.eqb a b = true <-> a = b.
Proof.
  split; [|intros <-; apply eqb_refl].
  revert b. induction a as [|c a IH]; intros [|d b]; cbn [Text.eqb];
    try discriminate; [reflexivity|].
  intros H. apply andb_prop in H as [Hc Ha].
  apply N.eqb_eq in Hc. now rewrite Hc, (IH b Ha).
Qed.

Lemma eqb_spec (a b : str) : reflect (a = b) (Text.eqb a b).
Proof.
  destruct (Text.eqb a b) eqn:E; constructor.
  - now apply eqb_eq.
  - intros H. apply eqb_eq in H. congruence.
Qed.

End Text_facts.

(* ------------------------------------------------------------------------- *)
(** * Properties of the extractor *)

Section Matcher.


Lemma append_empty_r (s : str) : s ++ "" = s.
Proof. induction s as [|c s IH]; simpl; [reflexivity|now rewrite IH]. Qed.

Lemma append_assoc (a b c : str) : (a ++ b) ++ c = a ++ b ++ c.
Proof. induction a as [|x a IH]; simpl; [reflexivity|now rewrite IH]. Qed.

Lemma pushes_found run w tc g :
  pushes run (Found w tc g)
  = Found (run ++ w) (option_map (app run) tc) g.
Proof.
  induction run as [|c run IH]; simpl.
  - now destruct tc.
  - rewrite IH. unfold push. simpl. now destruct tc.
Qed.



(** A greedy repetition followed by something that always matches takes
    the whole run. *)
Lemma greedy_takes_run cls k x0 :
  (forall s, k s = Some x0) ->
  forall run rest,
    all_in cls run = true -> stops_at cls rest ->
    greedy cls k (run ++ rest) = Some (pushes run x0).
Proof.
  intros Hk run. induction run as [|c run IH]; intros rest Hall Hstop.
  - simpl. destruct rest as [|a r]; simpl; [apply Hk|].
    simpl in Hstop. rewrite Hstop. apply Hk.
  - unfold all_in in Hall. simpl in Hall.
    apply andb_prop in Hall as [Hc Hrun].
    simpl. rewrite Hc, (IH rest Hrun Hstop). reflexivity.
Qed.

Lemma take1_inv ok k s x :
  take1 ok k s = Some x ->
  exists a s' y, s = (a :: s') /\ ok a = true /\ k s' = Some y
                 /\ x = push a y.
Proof.
  destruct s as [|a s']; simpl; [discriminate|].
  destruct (ok a) eqn:Ha; [|discriminate].
  destruct (k s') as [y|] eqn:Hy; simpl; [|discriminate].
  intros [= <-]. now exists a, s', y.
Qed.

Lemma lit_inv c k s x :
  take1 (chr_eq false c) k s = Some x ->
  exists s' y, s = (c :: s') /\ k s' = Some y /\ x = push c y.
Proof.
  intros H. apply take1_inv in H as (a & s' & y & -> & Ha & Hy & ->).
  unfold chr_eq in Ha. apply N.eqb_eq in Ha as <-. now exists s', y.
Qed.

(** Where the origin pattern matches, the text starts with the scheme. *)
Lemma origin_match_prefix s x :
  match_here false origin_pattern s = Some x ->
  prefix "http://" s = true \/ prefix "https://" s = true.
Proof.
  unfold origin_pattern. cbn [app lits map match_here].
  intros H0.
  destruct (take1 (chr_eq false "h") _ s) as [y|] eqn:H; [clear H0|discriminate].
  apply lit_inv in H as (s1 & y1 & -> & H & _).
  apply lit_inv in H as (s2 & y2 & -> & H & _).
  apply lit_inv in H as (s3 & y3 & -> & H & _).
  apply lit_inv in H as (s4 & y4 & -> & H & _).
  unfold orelse in H.
  destruct (take1 (chr_eq false "s") _ s4) as [z|] eqn:Hs.
  - right. apply lit_inv in Hs as (s5 & y5 & -> & Hs & _).
    apply lit_inv in Hs as (s6 & y6 & -> & Hs & _).
    apply lit_inv in Hs as (s7 & y7 & -> & Hs & _).
    apply lit_inv in Hs as (s8 & y8 & -> & Hs & _).
    simpl. now destruct s8.
  - left. apply lit_inv in H as (s5 & y5 & -> & H & _).
    apply lit_inv in H as (s6 & y6 & -> & H & _).
    apply lit_inv in H as (s7 & y7 & -> & H & _).
    simpl. now destruct s7.
Qed.

Lemma search_origin_none u :
  contains "http://" u = false -> contains "https://" u = false ->
  search_from false origin_pattern u = None.
Proof.
  induction u as [|c u IH]; intros H1 H2.
  - reflexivity.
  - cbn [contains] in H1, H2.
    destruct (prefix "http://" ((c :: u))) eqn:P1; [discriminate|].
    destruct (prefix "https://" ((c :: u))) eqn:P2; [discriminate|].
    cbn [search_from].
    destruct (match_here false origin_pattern ((c :: u))) as [x|] eqn:Hm.
    + apply origin_match_prefix in Hm as [Hm|Hm]; congruence.
    + now apply IH.
Qed.

(** [prefix] and [contains], read as equations between texts. *)
Lemma prefix_split p s : prefix p s = true <-> exists r, s = p ++ r.
Proof.
  revert s. induction p as [|c p IH]; intros s; cbn [prefix].
  - split; [intros _; now exists s|reflexivity].
  - destruct s as [|d s].
    + split; [discriminate|intros [r Hr]; discriminate Hr].
    + rewrite andb_true_iff, N.eqb_eq, IH. split.
      * intros [-> [r ->]]. now exists r.
      * intros [r Hr]. injection Hr as -> ->. split; [reflexivity|now exists r].
Qed.

Lemma contains_split p s :
  contains p s = true <-> exists a r, s = a ++ p ++ r.
Proof.
  induction s as [|d s IH]; cbn [contains].
  - destruct (prefix p []) eqn:Hp.
    + apply prefix_split in Hp as [r Hr]. split; [|reflexivity].
      intros _. now exists [], r.
    + split; [discriminate|]. intros (a & r & Hs).
      destruct a as [|x a]; [|discriminate Hs].
      assert (H : prefix p [] = true) by (apply prefix_split; now exists r).
      congruence.
  - destruct (prefix p (d :: s)) eqn:Hp.
    + apply prefix_split in Hp as [r Hr]. split; [|reflexivity].
      intros _. now exists [], r.
    + rewrite IH. split.
      * intros (a & r & ->). now exists (d :: a), r.
      * intros (a & r & Hs). destruct a as [|x a].
        -- assert (H : prefix p (d :: s) = true)
             by (apply prefix_split; now exists r).
           congruence.
        -- injection Hs as -> ->. now exists a, r.
Qed.

Lemma lower_app a b : lower (a ++ b) = lower a ++ lower b.
Proof. unfold lower. apply flat_map_app. Qed.

(** A text found in a text is found, lowered, in the lowered text. *)
Lemma contains_lower p s :
  contains p s = true -> contains (lower p) (lower s) = true.
Proof.
  intros H. apply contains_split in H as (a & r & ->).
  apply contains_split. exists (lower a), (lower r).
  now rewrite !lower_app.
Qed.

End Matcher.

Section Extractor_facts.

Lemma match_lit c r s :
  match_here false (Lit c :: r) ((c :: s))
  = option_map (push c) (match_here false r s).
Proof. cbn [match_here take1 chr_eq]. now rewrite N.eqb_refl. Qed.

Lemma match_opt_skip c r a s :
  N.eqb c a = false ->
  match_here false (Opt c :: r) ((a :: s))
  = match_here false r ((a :: s)).
Proof. intros H. cbn [match_here take1 chr_eq]. now rewrite H. Qed.

Lemma match_opt_take c r s y :
  match_here false r s = Some y ->
  match_here false (Opt c :: r) ((c :: s)) = Some (push c y).
Proof.
  intros H. cbn [match_here take1 chr_eq].
  now rewrite N.eqb_refl, H.
Qed.

Lemma match_gopen icase r s :
  match_here icase (GOpen :: r) s
  = option_map (fun x => Found (whole x) None (to_close x))
      (match_here icase r s).
Proof. reflexivity. Qed.

Lemma search_from_hit icase r s x :
  match_here icase r s = Some x -> search_from icase r s = Some x.
Proof. intros H. destruct s; cbn [search_from]; now rewrite H. Qed.

(** A greedy class repetition that closes the group takes the whole run
    of the class. *)
Lemma plus_close_run cls c run rest :
  cls c = true -> all_in cls run = true -> stops_at cls rest ->
  match_here false [Plus cls; GClose] (c :: run ++ rest)
  = Some (Found (c :: run) (Some (c :: run)) None).
Proof.
  intros Hc Hall Hstop. cbn [match_here take1]. rewrite Hc.
  erewrite greedy_takes_run with (x0 := Found "" (Some "") None);
    [|intros; reflexivity|assumption|assumption].
  rewrite pushes_found. cbn. now rewrite append_empty_r.
Qed.

Lemma origin_of_http_url scheme host rest :
  scheme = "http" \/ scheme = "https" ->
  host <> "" -> all_in not_slash host = true -> stops_at not_slash rest ->
  search false origin_pattern (scheme ++ "://" ++ host ++ rest)
  = Some (Match 1 (scheme ++ "://" ++ host) (Some (scheme ++ "://" ++ host))).
Proof.
  intros Hs Hne Hall Hstop.
  destruct host as [|c host]; [congruence|].
  unfold all_in in Hall. cbn [forallb] in Hall.
  apply andb_prop in Hall as [Hc Hall].
  pose proof (plus_close_run not_slash c host rest Hc Hall Hstop) as Hrun.
  unfold search, origin_pattern.
  cbn [app lits map].
  destruct Hs as [-> | ->]; cbn [app];
    match goal with
    | |- option_map _ (search_from _ ?r ?u) = Some (Match _ ?o _) =>
        assert (Hm : match_here false r u = Some (Found o None (Some o)))
    end.
  - rewrite match_gopen, !match_lit.
    rewrite match_opt_skip by reflexivity.
    rewrite !match_lit, Hrun. reflexivity.
  - now rewrite (search_from_hit _ _ _ _ Hm).
  - rewrite match_gopen, !match_lit.
    erewrite match_opt_take
      by (rewrite !match_lit, Hrun; reflexivity).
    reflexivity.
  - now rewrite (search_from_hit _ _ _ _ Hm).
Qed.

Lemma find_submit_url_none ps content :
  (forall p, In p ps -> search true p content = None) ->
  find_submit_url ps content = inr None.
Proof.
  induction ps as [|p ps IH]; intros H; simpl; [reflexivity|].
  rewrite (H p (or_introl eq_refl)). apply IH.
  intros q Hq. apply H. now right.
Qed.

(** [lastindex] is [None] or the index of a group, which is at least 1. *)
Lemma lastindex_never_0 m : lastindex_is_0 m = false.
Proof. unfold lastindex_is_0, lastindex. now destruct (group1 m). Qed.

(** The first pattern has no group, so that reading group 1 of its match
    raises: extraction fails whenever the content holds a URL with a
    [/submit] segment. *)
Lemma locate_raises_on_submit_url content current_url m :
  search true url_with_submit content = Some m ->
  locate content current_url = inl (Exn "IndexError" "no such group").
Proof.
  intros H. unfold locate, submit_patterns. cbn [find_submit_url].
  rewrite H. unfold search in H.
  destruct (search_from true url_with_submit content) as [x|]; [|discriminate].
  injection H as <-. rewrite lastindex_never_0. reflexivity.
Qed.

Lemma decode_loop_first content :
  forall ps before p after d,
    ps = (before ++ p :: after)%list ->
    Forall (fun q => count_groups q = 1%nat) ps ->
    (forall q, In q before -> decodes_with q content = None) ->
    decodes_with p content = Some d ->
    decode_loop ps content = d.
Proof.
  assert (Hbody : forall q rest, count_groups q = 1%nat ->
            decode_loop (q :: rest) content
            = match decodes_with q content with
              | Some d => d
              | None => decode_loop rest content
              end).
  { intros q rest Hq. cbn [decode_loop]. unfold decodes_with, search.
    destruct (search_from false q content) as [x|]; cbn [option_map];
      [|reflexivity].
    unfold group_1. cbn [groups group1]. rewrite Hq. cbn.
    destruct (grp x); reflexivity. }
  intros ps before. revert ps.
  induction before as [|b before IH]; intros ps p after d -> Hall Hnone Hp.
  - cbn [app] in *. inversion Hall; subst. rewrite Hbody, Hp; auto.
  - cbn [app] in *. inversion Hall; subst. rewrite Hbody by assumption.
    rewrite (Hnone b (or_introl eq_refl)).
    eapply IH; eauto. intros q Hq. apply Hnone. now right.
Qed.

Lemma decode_loop_none content :
  forall ps,
    Forall (fun q => count_groups q = 1%nat) ps ->
    (forall q, In q ps -> decodes_with q content = None) ->
    decode_loop ps content = content.
Proof.
  induction ps as [|p ps IH]; intros Hall Hnone; [reflexivity|].
  inversion Hall; subst. cbn [decode_loop].
  pose proof (Hnone p (or_introl eq_refl)) as Hp.
  unfold decodes_with, search in *.
  destruct (search_from false p content) as [x|]; cbn [option_map] in *.
  - unfold group_1. cbn [groups group1] in *.
    match goal with H : count_groups p = _ |- _ => rewrite H end. cbn.
    destruct (grp x); [rewrite Hp|]; apply IH; auto;
      intros q Hq; apply Hnone; now right.
  - apply IH; auto. intros q Hq. apply Hnone. now right.
Qed.

Lemma base64_patterns_grouped :
  Forall (fun q => count_groups q = 1%nat) base64_patterns.
Proof. repeat constructor. Qed.

(** The white space of the patterns is the white space of Python's [str]
    patterns.  A no-break space (U+00A0) after [to] sets the address off,
    in the page itself and in the text of a payload; after the label of a
    payload it is part of the separator. *)
Example no_break_space_before_the_address :
  let u := JStr "https://host.example/q/1" in
  let page :=
    ("Post your answer to" ++ [160%N] ++ "https://other.example/api")%list in
  extract page u = inr (QuizData page "https://other.example/api" u)
  /\ extract
       "base64: UG9zdCB5b3VyIGFuc3dlciB0b8KgaHR0cHM6Ly9vdGhlci5leGFtcGxlL2FwaQ=="
       u
     = inr (QuizData page "https://other.example/api" u).
Proof. vm_compute. split; reflexivity. Qed.

Example no_break_space_after_the_label :
  decode_step ("base64:" ++ [160%N] ++ "V2hhdCBpcyA2IHRpbWVzIDc/")%list
  = "What is 6 times 7?".
Proof. vm_compute. reflexivity. Qed.

End Extractor_facts.

(** C2, at a page with a labelled payload that decodes to text holding a
    URL ending in [/submit]: the decode step yields the text and the first
    submit-URL pattern matches that URL, but reading group 1 of a pattern
    without groups raises [IndexError], so that the extractor returns no
    question and no URL, and the session ends with the parse error. *)
Theorem C2_encoded_submit_url_is_lost :
  decode_step labelled_page
  = "Post your answer to https://host.example/submit"
  /\ search true url_with_submit (decode_step labelled_page)
     = Some (Match 0 "https://host.example/submit" None)
  /\ extract labelled_page first_url
     = inl (Exn "IndexError" "no such group")
  /\ fst (_get_quiz_question env first_url
            (start (Script [] [labelled_page] [] []))) = Val None
  /\ fst (solve_quiz env 3 me first_url
            (start (Script [seconds 0; seconds 1] [labelled_page] [JInt 42]
                      [right_and_done]))) = Val failed_to_parse.
Proof. vm_compute. repeat split. Qed.

(** On the scenario of the specification its notion of origin and the
    program agree. *)
Lemma spec_origin_on_scenario :
  spec_default_submit_url "https://host.example/q/1"
  = "https://host.example/submit"
  /\ default_submit_url (JStr "https://host.example/q/1")
     = inr "https://host.example/submit".
Proof. vm_compute. split; reflexivity. Qed.

(** C7, as amended: when no submit-URL pattern matches, a current URL made
    of [http://] or [https://], a non-empty host without a slash and
    nothing or a path after it yields scheme, host and [/submit]; a current
    URL that nowhere holds [http://] or [https://], in whatever case of the
    letters, yields the literal fallback. *)
Theorem C7_default_submit_url content u :
  (forall p, In p submit_patterns ->
             search true p (decode_step content) = None) ->
  (forall scheme host rest,
      scheme = "http" \/ scheme = "https" ->
      host <> "" -> all_in not_slash host = true ->
      stops_at not_slash rest ->
      u = scheme ++ "://" ++ host ++ rest ->
      extract content (JStr u)
      = inr (QuizData (decode_step content)
               (scheme ++ "://" ++ host ++ "/submit") (JStr u)))
  /\ (contains "http://" (lower u) = false ->
      contains "https://" (lower u) = false ->
      extract content (JStr u)
      = inr (QuizData (decode_step content) fallback_submit_url (JStr u))).
Proof.
  intros Hnone. unfold extract, locate.
  rewrite (find_submit_url_none _ _ Hnone). cbn [no_url].
  split.
  - intros scheme host rest Hs Hne Hall Hstop ->.
    unfold default_submit_url.
    rewrite (origin_of_http_url scheme host rest Hs Hne Hall Hstop).
    cbn. now rewrite !append_assoc.
  - intros H1 H2. unfold default_submit_url, search.
    rewrite search_origin_none; [reflexivity| |].
    + destruct (contains "http://" u) eqn:E; [|reflexivity].
      apply contains_lower in E. exact (eq_trans (eq_sym E) H1).
    + destruct (contains "https://" u) eqn:E; [|reflexivity].
      apply contains_lower in E. exact (eq_trans (eq_sym E) H2).
Qed.

Lemma C7_default_submit_url_witness :
  extract "Answer is 42" (JStr "https://host.example/q/1")
  = inr (QuizData "Answer is 42" "https://host.example/submit"
           (JStr "https://host.example/q/1"))
  /\ extract "Answer is 42" (JStr "about:blank")
     = inr (QuizData "Answer is 42" fallback_submit_url (JStr "about:blank")).
Proof.
  assert (Hnone : forall p, In p submit_patterns ->
            search true p (decode_step "Answer is 42") = None).
  { intros p [<-|[<-|[<-|[<-|[]]]]]; vm_compute; reflexivity. }
  split.
  - apply (proj1 (C7_default_submit_url "Answer is 42"
                    "https://host.example/q/1" Hnone))
      with (scheme := "https") (host := "host.example") (rest := "/q/1").
    + right. reflexivity.
    + intros H. discriminate H.
    + vm_compute. reflexivity.
    + vm_compute. reflexivity.
    + vm_compute. reflexivity.
  - apply (proj2 (C7_default_submit_url "Answer is 42" "about:blank"
                    Hnone)); vm_compute; reflexivity.
Defined.

(** C7 as the specification states it fails for a well-formed absolute URL
    whose scheme is not [http] or [https]: no pattern matches the content,
    the URL has an origin, and the extractor returns the literal fallback
    instead of origin plus [/submit]. *)
Lemma C7_counterexample :
  (forall p, In p submit_patterns ->
             search true p (decode_step "Answer is 42") = None)
  /\ spec_origin "ftp://host.example/q/1" = Some "ftp://host.example"
  /\ exists quiz,
       extract "Answer is 42" (JStr "ftp://host.example/q/1") = inr quiz
       /\ submit_url quiz = fallback_submit_url
       /\ submit_url quiz
          <> spec_default_submit_url "ftp://host.example/q/1"
       /\ submit_url quiz <> "ftp://host.example/submit".
Proof.
  split; [intros p [<-|[<-|[<-|[<-|[]]]]]; vm_compute; reflexivity|].
  split; [vm_compute; reflexivity|].
  exists (QuizData "Answer is 42" fallback_submit_url
            (JStr "ftp://host.example/q/1")).
  repeat split; vm_compute; try reflexivity; intros H; discriminate H.
Qed.

(** C8: when the content signals a payload, the decode step yields the
    text of the first candidate, in the order of the list, that both
    matches and decodes, and extraction goes on from that text; when no
    candidate does, the content is left as it is and extraction goes on
    from the raw content. *)
Theorem C8_first_decodable_candidate content :
  signals_base64 content = true ->
  (forall before p after d,
      base64_patterns = (before ++ p :: after)%list ->
      (forall q, In q before -> decodes_with q content = None) ->
      decodes_with p content = Some d ->
      decode_step content = d
      /\ forall url, extract content url = locate d url)
  /\ ((forall q, In q base64_patterns -> decodes_with q content = None) ->
      decode_step content = content
      /\ forall url, extract content url = locate content url).
Proof.
  intros Hsig. unfold extract, decode_step. rewrite Hsig. split.
  - intros before p after d Hps Hbefore Hp.
    rewrite (decode_loop_first content _ before p after d Hps
               base64_patterns_grouped Hbefore Hp).
    now split.
  - intros Hnone.
    rewrite (decode_loop_none content _ base64_patterns_grouped Hnone).
    now split.
Qed.

Lemma C8_first_decodable_candidate_witness :
  decode_step two_payloads_page = "What is 6 times 7?"
  /\ decode_step "atob(`Q`) and base64 text" = "atob(`Q`) and base64 text".
Proof.
  split.
  - apply (proj1 (C8_first_decodable_candidate two_payloads_page eq_refl))
      with (before := [atob_backtick; atob_quoted]) (p := base64_label)
           (after := []).
    + reflexivity.
    + intros q [<-|[<-|[]]]; vm_compute; reflexivity.
    + vm_compute. reflexivity.
  - apply (proj2 (C8_first_decodable_candidate
                    "atob(`Q`) and base64 text" eq_refl)).
    intros q [<-|[<-|[<-|[]]]]; vm_compute; reflexivity.
Defined.

(* ------------------------------------------------------------------------- *)
(** * Properties of the submitter *)

Section Submitter.

Context {World : Type} (env : Env World).

Lemma string_length_append (a b : str) :
  length (a ++ b) = (length a + length b)%nat.
Proof. induction a as [|c a IH]; simpl; [reflexivity|now rewrite IH]. Qed.

Lemma take_length n s : (length (take n s) <= n)%nat.
Proof.
  revert s. induction n as [|n IH]; intros [|c s]; simpl; try lia.
  specialize (IH s). lia.
Qed.

Lemma submit_answer_run self su qu a (s : state) :
  _submit_answer env self su qu a s
  = (Val (verdict_of
            (fst (http_post env su
                    (Payload (email self) (secret self) qu a) (world s)))),
     State (snd (http_post env su
                   (Payload (email self) (secret self) qu a) (world s)))
           (log s ++ [EvSubmit su
                        (Payload (email self) (secret self) qu a)])).
Proof.
  unfold _submit_answer, bind, emit, ask, ret. cbn [world log].
  now destruct (http_post env su _ (world s)).
Qed.

End Submitter.

(** C9: [_submit_answer] always returns a verdict and never raises; a body
    that is not JSON, a client error and any other fault each give a
    dictionary with [correct] false and a reason; the reason for a body
    that is not JSON holds the words [Invalid response] and at most the
    first 200 characters of the body. *)
Theorem C9_submit_faults_become_verdicts {World : Type} (env : Env World)
  self submit_url quiz_url answer (s : state) :
  (exists v, fst (_submit_answer env self submit_url quiz_url answer s)
             = Val v
             /\ v = verdict_of
                      (fst (http_post env submit_url
                              (Payload (email self) (secret self)
                                       quiz_url answer) (world s))))
  /\ (forall text,
         exists reason,
           verdict_of (PostText text)
           = JObj [("correct", JBool false); ("reason", JStr reason)]
           /\ reason = "Invalid response from submit endpoint: "
                       ++ take 200 text
           /\ contains "Invalid response" reason = true
           /\ (length reason <= 39 + 200)%nat)
  /\ (forall msg,
         verdict_of (PostClientError msg)
         = JObj [("correct", JBool false);
                 ("reason", JStr ("Network error: " ++ msg))]
         /\ verdict_of (PostError msg)
            = JObj [("correct", JBool false);
                    ("reason", JStr ("Failed to submit: " ++ msg))]).
Proof.
  split; [|split].
  - rewrite submit_answer_run. eexists. split; reflexivity.
  - intros text. eexists. split; [reflexivity|].
    split; [reflexivity|]. split; [reflexivity|].
    rewrite string_length_append. pose proof (take_length 200 text).
    cbn [length]. lia.
  - intros msg. split; reflexivity.
Qed.

(* ------------------------------------------------------------------------- *)
(** * Properties of the traversal loop *)

Section Loop.

Context {World : Type} (env : Env World).
Variable self : QuizSolver.

Implicit Types s : @state World.



Lemma bind_val {A B} (c : M A) (k : A -> M B) s a s' :
  c s = (Val a, s') -> bind c k s = k a s'.
Proof. intros H. unfold bind. now rewrite H. Qed.

Lemma ask_run {A} (call : World -> A * World) s a w :
  call (world s) = (a, w) -> ask call s = (Val a, State w (log s)).
Proof. intros H. unfold ask. now rewrite H. Qed.

Lemma get_quiz_question_log current_url s r s' :
  _get_quiz_question env current_url s = (r, s') ->
  log s' = (log s ++ [EvNavigate current_url])%list.
Proof.
  unfold _get_quiz_question, bind, emit, ask, ret. cbn [world log].
  destruct (page_goto env current_url (world s)) as [[e|] w1];
    [now intros [= _ <-]|].
  cbn [world log].
  destruct (page_result_html env w1) as [[e|html] w2]; cbn [world log];
    [now intros [= _ <-]|].
  destruct (is_empty html); cbn [world log].
  - destruct (page_inner_text env w2) as [[e|text] w3]; cbn [world log];
      [now intros [= _ <-]|].
    destruct (extract text current_url); now intros [= _ <-].
  - destruct (extract html current_url); now intros [= _ <-].
Qed.

Lemma solve_question_log quiz s r s' :
  _solve_question env quiz s = (r, s') ->
  log s' = (log s ++ [EvSolve (question quiz) (url quiz)])%list.
Proof.
  unfold _solve_question, bind, emit, ask, of_sum, ret, raise.
  cbn [world log].
  destruct (llm_solve env _ _ (world s)) as [[e|a] w]; now intros [= _ <-].
Qed.

Lemma submit_answer_log su qu a s r s' :
  _submit_answer env self su qu a s = (r, s') ->
  log s' = (log s ++ [EvSubmit su
                        (Payload (email self) (secret self) qu a)])%list.
Proof. rewrite submit_answer_run. now intros [= _ <-]. Qed.

Lemma failed_attempts_log quiz current_url n r s r' s' evs :
  failed_attempts env self quiz current_url n r s r' s' evs ->
  log s' = (log s ++ evs)%list /\ submissions evs = n.
Proof.
  induction 1 as [r s|n r s a s1 v s2 r' s' evs Hsolve Hsubmit Hv _ [IH1 IH2]].
  - now rewrite app_nil_r.
  - apply solve_question_log in Hsolve.
    apply submit_answer_log in Hsubmit.
    rewrite IH1, Hsubmit, Hsolve, <- !app_assoc. split; [reflexivity|].
    unfold submissions in *. cbn. now rewrite IH2.
Qed.

Lemma failed_attempts_last quiz current_url n r s r' s' evs :
  failed_attempts env self quiz current_url (S n) r s r' s' evs -> no_progress r'.
Proof.
  remember (S n) as m eqn:Hm. intros H. revert n Hm.
  induction H as [|n r s a s1 v s2 r' s' evs _ _ Hv Hrest IH];
    intros k Hk; [discriminate|].
  destruct n as [|n]; [|now apply (IH n)].
  now inversion Hrest; subst.
Qed.

(** The loop is left at once when the counter is beyond the bound. *)
Lemma retry_loop_over fuel quiz current_url r rc s :
  (max_retries < rc)%nat ->
  retry_loop env fuel self quiz current_url r rc s = (Val (r, rc), s).
Proof.
  intros H. apply Nat.leb_gt in H.
  destruct fuel; cbn [retry_loop]; now rewrite H.
Qed.

(** One iteration whose attempt returns the verdict [v]. *)
Lemma retry_loop_step fuel quiz current_url r rc s a s1 items s2 :
  (rc <= max_retries)%nat ->
  _solve_question env quiz s = (Val a, s1) ->
  _submit_answer env self (submit_url quiz) current_url a s1
  = (Val (JObj items), s2) ->
  retry_loop env (S fuel) self quiz current_url r rc s
  = if truthy (dict_get items "correct") then (Val (JObj items, rc), s2)
    else if truthy (dict_get items "url")
         then (Val (JObj items, S rc), s2)
         else retry_loop env fuel self quiz current_url (JObj items)
                (S rc) s2.
Proof.
  intros Hrc Hsolve Hsubmit. apply Nat.leb_le in Hrc.
  cbn [retry_loop]. rewrite Hrc.
  rewrite (bind_val _ _ _ _ _ Hsolve), (bind_val _ _ _ _ _ Hsubmit).
  cbn [get of_sum]. unfold bind at 1. unfold ret at 1.
  destruct (truthy (dict_get items "correct")); [reflexivity|].
  unfold bind at 1. unfold ret at 1.
  destruct (truthy (dict_get items "url")); reflexivity.
Qed.

(** Attempts that call for a retry are gone through one by one, each
    adding one to the counter. *)
Lemma retry_loop_skip quiz current_url n r s r' s' evs :
  failed_attempts env self quiz current_url n r s r' s' evs ->
  forall rc fuel,
    (rc + n <= S max_retries)%nat ->
    retry_loop env (n + fuel) self quiz current_url r rc s
    = retry_loop env fuel self quiz current_url r' (rc + n) s'.
Proof.
  induction 1 as [r s|n r s a s1 v s2 r' s' evs Hsolve Hsubmit Hv _ IH];
    intros rc fuel Hrc.
  - now rewrite Nat.add_0_r.
  - destruct Hv as (items & -> & Hc & Hu).
    cbn [Nat.add].
    assert (Hle : (rc <= max_retries)%nat) by lia.
    rewrite (retry_loop_step _ _ _ _ _ _ _ _ _ _ Hle Hsolve Hsubmit).
    rewrite Hc, Hu, IH by lia. f_equal. lia.
Qed.

(** The fuel the outer loop gives the retry loop is enough: the retry
    loop always comes to an end by itself. *)
Lemma retry_loop_fuel_suffices quiz current_url :
  forall fuel r rc s,
    (S max_retries <= fuel + rc)%nat ->
    fst (retry_loop env fuel self quiz current_url r rc s) <> OutOfFuel.
Proof.
  induction fuel as [|fuel IH]; intros r rc s Hfuel.
  - rewrite retry_loop_over by (cbn in Hfuel; lia). discriminate.
  - destruct (Nat.leb_spec rc max_retries) as [Hle|Hgt];
      [|rewrite retry_loop_over by lia; discriminate].
    cbn [retry_loop]. rewrite (proj2 (Nat.leb_le _ _) Hle).
    unfold bind at 1.
    destruct (_solve_question env quiz s) as [[a|e|] s1] eqn:Hsolve.
    + rewrite (bind_val _ _ _ _ _ (submit_answer_run env self _ _ _ s1)).
      unfold bind at 1.
      destruct (get _ "correct") as [e|c]; cbn [of_sum];
        [discriminate|].
      unfold ret at 1. destruct (truthy c); [discriminate|].
      unfold bind at 1.
      destruct (get _ "url") as [e|u]; cbn [of_sum]; [discriminate|].
      unfold ret at 1. destruct (truthy u); [discriminate|].
      apply IH. lia.
    + discriminate.
    + exfalso. revert Hsolve.
      unfold _solve_question, bind, emit, ask, of_sum, ret, raise.
      cbn [world log].
      destruct (llm_solve env _ _ (world s)) as [[e|a] w]; discriminate.
Qed.

Lemma handle_result_no_progress v :
  no_progress v -> handle_result v = inr JNull.
Proof.
  intros (items & -> & Hc & Hu). unfold handle_result. cbn [get].
  now rewrite Hc, Hu.
Qed.

(** The loop ends as soon as there is no current URL. *)
Lemma quiz_loop_done fuel start current_url s :
  truthy current_url = false ->
  quiz_loop env fuel self start current_url s = (Val completed, s).
Proof. intros H. destruct fuel; cbn [quiz_loop]; now rewrite H. Qed.

(** [exceeds] is the strict comparison of the number the float stands for
    with the limit. *)
Lemma exceeds_iff elapsed limit q :
  float_value elapsed = Some q ->
  exceeds elapsed limit = true <-> (inject_Z limit < q)%Q.
Proof.
  destruct elapsed as [sign|sign| |sign m e]; try discriminate;
    cbn [float_value exceeds]; intros [= <-].
  - unfold Qlt. cbn. rewrite Z.ltb_lt. lia.
  - destruct (Z.leb_spec 0 e) as [He|He]; rewrite Z.ltb_lt.
    + now rewrite <- Zlt_Qlt.
    + unfold Qlt. cbn [Qnum Qden inject_Z].
      assert (Hpow : (0 < 2 ^ (- e))%Z) by (apply Z.pow_pos_nonneg; lia).
      rewrite Z2Pos.id by exact Hpow. lia.
Qed.

Lemma quiz_loop_step fuel start current_url s quiz s1 :
  step_starts env self start current_url s quiz s1 ->
  quiz_loop env (S fuel) self start current_url s
  = bind (retry_loop env (S max_retries) self quiz current_url JNull 0)
      (fun r => bind (of_sum (handle_result (fst r)))
                  (fun next => quiz_loop env fuel self start next)) s1
  /\ log s1 = (log s ++ [EvNavigate current_url])%list.
Proof.
  intros (Hurl & now & w & Hclock & Htime & Hpage & Hsubmit).
  split.
  - cbn [quiz_loop]. rewrite Hurl.
    rewrite (bind_val _ _ _ _ _ (ask_run _ _ _ _ Hclock)).
    rewrite Htime, (bind_val _ _ _ _ _ Hpage), Hsubmit. reflexivity.
  - now apply get_quiz_question_log in Hpage.
Qed.

Lemma run_failed_attempts_sound quiz current_url n :
  forall r s r' s' evs,
    run_failed_attempts env self n quiz current_url r s = Some (r', s', evs) ->
    failed_attempts env self quiz current_url n r s r' s' evs.
Proof.
  induction n as [|n IH]; intros r s r' s' evs; cbn [run_failed_attempts].
  - intros [= <- <- <-]. constructor.
  - destruct (_solve_question env quiz s) as [[a| |] s1] eqn:Hsolve;
      try discriminate.
    destruct (_submit_answer env self _ current_url a s1) as [[v| |] s2]
      eqn:Hsubmit; try discriminate.
    destruct (calls_for_retry v) eqn:Hv; [|discriminate].
    destruct (run_failed_attempts env self n quiz current_url v s2)
      as [[[r0 s0] evs0]|] eqn:Hrest; [|discriminate].
    intros [= <- <- <-].
    eapply attempts_more; eauto.
    destruct v as [| | | | | |items]; try discriminate.
    exists items. cbn in Hv. apply andb_prop in Hv as [Hc Hu].
    now rewrite negb_true_iff in Hc, Hu.
Qed.

Lemma run_step_start_sound start current_url s quiz s1 :
  run_step_start env self start current_url s = Some (quiz, s1) ->
  step_starts env self start current_url s quiz s1.
Proof.
  unfold run_step_start, step_starts.
  destruct (truthy current_url); [|discriminate].
  destruct (loop_time env (world s)) as [now w].
  destruct (exceeds _ _) eqn:Htime; [discriminate|].
  destruct (_get_quiz_question env current_url _) as [[[q|]| |] s2]
    eqn:Hpage; try discriminate.
  destruct (is_empty (submit_url q)) eqn:Hsubmit; [discriminate|].
  intros [= <- <-]. split; [reflexivity|]. now exists now, w.
Qed.

End Loop.

Section Session_results.

Context {World : Type} (env : Env World).
Variable self : QuizSolver.


(** The loop returns one of four dictionaries. *)
Lemma quiz_loop_returns fuel :
  forall start current_url (s : state) d s',
    quiz_loop env fuel self start current_url s = (Val d, s') ->
    In d session_results.
Proof.
  induction fuel as [|fuel IH]; intros start current_url s d s';
    cbn [quiz_loop]; destruct (truthy current_url);
    try (intros [= <- _]; cbn; tauto); try discriminate.
  unfold bind at 1.
  destruct (ask (loop_time env) s) as [[now| |] s1]; try discriminate.
  destruct (exceeds _ _); [intros [= <- _]; cbn; tauto|].
  unfold bind at 1.
  destruct (_get_quiz_question env current_url s1) as [[[quiz|]| |] s2];
    try discriminate; [|intros [= <- _]; cbn; tauto].
  destruct (is_empty _); [intros [= <- _]; cbn; tauto|].
  unfold bind at 1.
  destruct (retry_loop env _ self quiz current_url JNull 0 s2)
    as [[r| |] s3]; try discriminate.
  unfold bind at 1.
  destruct (handle_result (fst r)) as [e|next]; cbn [of_sum];
    [discriminate|].
  unfold ret at 1. apply IH.
Qed.

Lemma finally_close_returns (body : M json) (s : state) d s' :
  finally_close env body s = (Val d, s') ->
  exists s1, body s = (Val d, s1).
Proof.
  unfold finally_close, bind, emit, ask. cbn [world log].
  destruct (body s) as [[v|e|] s1]; try discriminate;
    destruct (browser_close env (world s1)) as [[e'|] w]; cbn;
    try discriminate; intros [= <- _]; now exists s1.
Qed.

Lemma solve_quiz_returns fuel initial_url (s : state) d s' :
  solve_quiz env fuel self initial_url s = (Val d, s') ->
  In d session_results.
Proof.
  unfold solve_quiz. unfold bind at 1.
  destruct (ask (launch_browser env) s) as [[[| e | e]| |] s1];
    try discriminate.
  - intros H. apply finally_close_returns in H as [s2 H].
    unfold bind at 1 in H.
    destruct (ask (loop_time env) s1) as [[t| |] s3]; try discriminate.
    now apply quiz_loop_returns in H.
  - intros H. now apply finally_close_returns in H as [s2 H].
Qed.

(** When the first check fails, the session makes no navigation. *)
Lemma solve_quiz_late_from_the_start fuel initial_url (s : state)
  w0 start w1 now w2 elapsed :
  truthy initial_url = true ->
  launch_browser env (world s) = (Launched, w0) ->
  loop_time env w0 = (start, w1) ->
  loop_time env w1 = (now, w2) ->
  float_value (float_sub now start) = Some elapsed ->
  (inject_Z (timeout_seconds self) < elapsed)%Q ->
  exists r s',
    solve_quiz env (S fuel) self initial_url s = (r, s')
    /\ log s' = (log s ++ [EvClose])%list
    /\ (r = Val timeout_exceeded \/ exists e, r = Raise e).
Proof.
  intros Hurl Hlaunch Hstart Hnow Hvalue Hlate.
  apply (exceeds_iff _ _ _ Hvalue) in Hlate.
  unfold solve_quiz.
  rewrite (bind_val _ _ _ _ _ (ask_run _ _ _ _ Hlaunch)).
  unfold finally_close.
  rewrite (bind_val _ _ _ _ _ (ask_run _ (State w0 (log s)) _ _ Hstart)).
  cbn [quiz_loop]. rewrite Hurl.
  rewrite (bind_val _ _ _ _ _ (ask_run _ (State w1 (log s)) _ _ Hnow)).
  rewrite Hlate. unfold ret at 1. unfold bind, emit, ask. cbn [world log].
  destruct (browser_close env w2) as [[e|] w3]; cbn;
    do 2 eexists; (split; [reflexivity|]); (split; [reflexivity|]);
    first [left; reflexivity | right; eexists; reflexivity].
Qed.

End Session_results.

(** C6: a step whose first submission gets a dictionary with a truthy
    [correct] and no (or a falsy) [url] ends the session with the
    [completed] result, after one navigation, one solve and exactly one
    submission for that step. *)
Theorem C6_correct_and_no_next_url_completes {World : Type}
  (env : Env World) self fuel start current_url (s : state)
  quiz s1 a s2 items s3 :
  step_starts env self start current_url s quiz s1 ->
  _solve_question env quiz s1 = (Val a, s2) ->
  _submit_answer env self (submit_url quiz) current_url a s2
  = (Val (JObj items), s3) ->
  truthy (dict_get items "correct") = true ->
  truthy (dict_get items "url") = false ->
  quiz_loop env (S fuel) self start current_url s = (Val completed, s3)
  /\ log s3
     = (log s ++ [EvNavigate current_url;
                  EvSolve (question quiz) (url quiz);
                  EvSubmit (submit_url quiz)
                    (Payload (email self) (secret self) current_url a)])%list.
Proof.
  intros Hstart Hsolve Hsubmit Hc Hu.
  destruct (quiz_loop_step env self fuel _ _ _ _ _ Hstart) as [-> Hlog].
  split.
  - unfold bind at 1.
    rewrite (retry_loop_step env self _ _ _ _ _ _ _ _ _ _
               (Nat.le_0_l _) Hsolve Hsubmit), Hc.
    cbn [fst]. unfold handle_result. cbn [get]. rewrite Hc.
    cbn [of_sum]. unfold bind, ret. now apply quiz_loop_done.
  - apply solve_question_log in Hsolve.
    apply (submit_answer_log env) in Hsubmit.
    now rewrite Hsubmit, Hsolve, Hlog, <- !app_assoc.
Qed.

Lemma C6_correct_and_no_next_url_completes_witness :
  quiz_loop env 1 me (seconds 0) first_url
    (start (Script [seconds 5] ["Answer is 42"] [JInt 42] [right_and_done]))
  = (Val completed,
     State (Script [] [] [] [])
           [EvNavigate first_url; solve_ev; submit_ev (JInt 42)])
  /\ [EvNavigate first_url; solve_ev; submit_ev (JInt 42)]
     = ([] ++ [EvNavigate first_url; solve_ev; submit_ev (JInt 42)])%list.
Proof.
  apply (C6_correct_and_no_next_url_completes env me 0 (seconds 0) first_url
           (start (Script [seconds 5] ["Answer is 42"] [JInt 42] [right_and_done]))
           plain_quiz
           (State (Script [] [] [JInt 42] [right_and_done])
                  [EvNavigate first_url])
           (JInt 42)
           (State (Script [] [] [] [right_and_done])
                  [EvNavigate first_url; solve_ev])
           [("correct", JBool true)]
           (State (Script [] [] [] [])
                  [EvNavigate first_url; solve_ev; submit_ev (JInt 42)])).
  - apply run_step_start_sound. vm_compute. reflexivity.
  - vm_compute. reflexivity.
  - vm_compute. reflexivity.
  - vm_compute. reflexivity.
  - vm_compute. reflexivity.
Defined.

(** C1, as amended: when the attempts of a step get more than
    [max_retries] verdicts in a row that call for a retry, the session
    ends after exactly [max_retries + 1] solve/submit attempts for that
    step; what it returns is the [completed] dictionary. *)
Theorem C1_retries_exhausted_ends_session {World : Type} (env : Env World)
  self fuel start current_url (s : state) quiz s1 last s' evs :
  step_starts env self start current_url s quiz s1 ->
  failed_attempts env self quiz current_url (S max_retries) JNull s1
    last s' evs ->
  quiz_loop env (S fuel) self start current_url s = (Val completed, s')
  /\ log s' = (log s ++ EvNavigate current_url :: evs)%list
  /\ submissions evs = S max_retries.
Proof.
  intros Hstart Hfail.
  destruct (quiz_loop_step env self fuel _ _ _ _ _ Hstart) as [-> Hlog].
  destruct (failed_attempts_log env self _ _ _ _ _ _ _ _ Hfail)
    as [Hlog' Hcount].
  split; [|split; [|exact Hcount]].
  - unfold bind at 1.
    pose proof (retry_loop_skip env self _ _ _ _ _ _ _ _ Hfail 0 0
                  (Nat.le_refl _)) as Hskip.
    rewrite Nat.add_0_r in Hskip. rewrite Hskip.
    rewrite retry_loop_over by (cbn; lia). cbn [fst].
    rewrite (handle_result_no_progress _
               (failed_attempts_last env self _ _ _ _ _ _ _ _ Hfail)).
    cbn [of_sum]. unfold bind, ret. now apply quiz_loop_done.
  - now rewrite Hlog', Hlog, <- app_assoc.
Qed.

Lemma C1_retries_exhausted_ends_session_witness :
  quiz_loop env 1 me (seconds 0) first_url
    (start (Script [seconds 5] ["Answer is 42"] [JInt 1; JInt 2; JInt 3; JInt 4]
              [wrong; wrong; wrong; wrong]))
  = (Val completed,
     State (Script [] [] [JInt 4] [wrong])
           [EvNavigate first_url; solve_ev; submit_ev (JInt 1);
            solve_ev; submit_ev (JInt 2); solve_ev; submit_ev (JInt 3)])
  /\ [EvNavigate first_url; solve_ev; submit_ev (JInt 1);
      solve_ev; submit_ev (JInt 2); solve_ev; submit_ev (JInt 3)]
     = ([] ++ EvNavigate first_url
           :: [solve_ev; submit_ev (JInt 1); solve_ev; submit_ev (JInt 2);
               solve_ev; submit_ev (JInt 3)])%list
  /\ submissions [solve_ev; submit_ev (JInt 1); solve_ev; submit_ev (JInt 2);
                  solve_ev; submit_ev (JInt 3)] = 3%nat.
Proof.
  apply (C1_retries_exhausted_ends_session env me 0 (seconds 0) first_url
           (start (Script [seconds 5] ["Answer is 42"]
                     [JInt 1; JInt 2; JInt 3; JInt 4]
                     [wrong; wrong; wrong; wrong]))
           plain_quiz
           (State (Script [] [] [JInt 1; JInt 2; JInt 3; JInt 4]
                     [wrong; wrong; wrong; wrong]) [EvNavigate first_url])
           (JObj [("correct", JBool false); ("reason", JStr "wrong")])).
  - apply run_step_start_sound. vm_compute. reflexivity.
  - apply run_failed_attempts_sound. vm_compute. reflexivity.
Defined.

(** C1 as the specification states it fails on the result: after three
    verdicts in a row with [correct] false and no next URL the session
    returns the dictionary of a completed quiz, which is no failure
    state. *)
Lemma C1_counterexample :
  let run :=
    solve_quiz env 5 me first_url
      (start (Script [seconds 0; seconds 1] ["Answer is 42"]
                [JInt 1; JInt 2; JInt 3; JInt 4]
                [wrong; wrong; wrong; wrong])) in
  submissions (log (snd run)) = 3%nat
  /\ fst run = Val completed
  /\ failure_state (fst run) = false.
Proof. vm_compute. repeat split. Qed.

(** C3, as amended: a verdict with a truthy [url], whatever its [correct],
    ends the retry loop at once and the outer loop goes on from that URL
    with no further attempt on the step; the retry counter is left as it
    is when [correct] is truthy and is one more when it is falsy. *)
Theorem C3_verdict_with_next_url_advances {World : Type} (env : Env World)
  self fuel start current_url (s : state) quiz s1 n last s2 evs a s3
  items s4 :
  step_starts env self start current_url s quiz s1 ->
  (n <= max_retries)%nat ->
  failed_attempts env self quiz current_url n JNull s1 last s2 evs ->
  _solve_question env quiz s2 = (Val a, s3) ->
  _submit_answer env self (submit_url quiz) current_url a s3
  = (Val (JObj items), s4) ->
  truthy (dict_get items "url") = true ->
  retry_loop env (S max_retries) self quiz current_url JNull 0 s1
  = (Val (JObj items,
          if truthy (dict_get items "correct") then n else S n), s4)
  /\ quiz_loop env (S fuel) self start current_url s
     = quiz_loop env fuel self start (dict_get items "url") s4
  /\ log s4
     = (log s ++ EvNavigate current_url :: evs
        ++ [EvSolve (question quiz) (url quiz);
            EvSubmit (submit_url quiz)
              (Payload (email self) (secret self) current_url a)])%list.
Proof.
  intros Hstart Hn Hfail Hsolve Hsubmit Hu.
  destruct (quiz_loop_step env self fuel _ _ _ _ _ Hstart) as [-> Hlog].
  destruct (failed_attempts_log env self _ _ _ _ _ _ _ _ Hfail)
    as [Hlog' _].
  assert (Hloop :
    retry_loop env (S max_retries) self quiz current_url JNull 0 s1
    = (Val (JObj items,
            if truthy (dict_get items "correct") then n else S n), s4)).
  { replace (S max_retries) with (n + S (max_retries - n))%nat by lia.
    rewrite (retry_loop_skip env self _ _ _ _ _ _ _ _ Hfail 0) by lia.
    cbn [Nat.add].
    rewrite (retry_loop_step env self _ _ _ _ _ _ _ _ _ _ Hn Hsolve Hsubmit).
    rewrite Hu. now destruct (truthy (dict_get items "correct")). }
  split; [exact Hloop|split].
  - unfold bind at 1. rewrite Hloop. cbn [fst].
    unfold handle_result. cbn [get]. rewrite Hu.
    now destruct (truthy (dict_get items "correct")).
  - apply solve_question_log in Hsolve.
    apply (submit_answer_log env) in Hsubmit.
    rewrite Hsubmit, Hsolve, Hlog', Hlog, <- !app_assoc. reflexivity.
Qed.

Lemma C3_verdict_with_next_url_advances_witness :
  retry_loop env 3 me plain_quiz first_url JNull 0
    (State (Script [] [] [JInt 1; JInt 2] [wrong; wrong_but_next])
           [EvNavigate first_url])
  = (Val (JObj [("correct", JBool false); ("url", second_url)], 2%nat),
     State (Script [] [] [] [])
           [EvNavigate first_url; solve_ev; submit_ev (JInt 1);
            solve_ev; submit_ev (JInt 2)])
  /\ quiz_loop env 2 me (seconds 0) first_url
       (start (Script [seconds 5] ["Answer is 42"] [JInt 1; JInt 2]
                 [wrong; wrong_but_next]))
     = quiz_loop env 1 me (seconds 0) second_url
         (State (Script [] [] [] [])
                [EvNavigate first_url; solve_ev; submit_ev (JInt 1);
                 solve_ev; submit_ev (JInt 2)])
  /\ [EvNavigate first_url; solve_ev; submit_ev (JInt 1);
      solve_ev; submit_ev (JInt 2)]
     = ([] ++ EvNavigate first_url
           :: [solve_ev; submit_ev (JInt 1)]
           ++ [solve_ev; submit_ev (JInt 2)])%list.
Proof.
  apply (C3_verdict_with_next_url_advances env me 1 (seconds 0) first_url
           (start (Script [seconds 5] ["Answer is 42"] [JInt 1; JInt 2]
                     [wrong; wrong_but_next]))
           plain_quiz
           (State (Script [] [] [JInt 1; JInt 2] [wrong; wrong_but_next])
                  [EvNavigate first_url])
           1%nat
           (JObj [("correct", JBool false); ("reason", JStr "wrong")])
           (State (Script [] [] [JInt 2] [wrong_but_next])
                  [EvNavigate first_url; solve_ev; submit_ev (JInt 1)])
           [solve_ev; submit_ev (JInt 1)]
           (JInt 2)
           (State (Script [] [] [] [wrong_but_next])
                  [EvNavigate first_url; solve_ev; submit_ev (JInt 1);
                   solve_ev])
           [("correct", JBool false); ("url", second_url)]).
  - apply run_step_start_sound. vm_compute. reflexivity.
  - unfold max_retries. lia.
  - apply run_failed_attempts_sound. vm_compute. reflexivity.
  - vm_compute. reflexivity.
  - vm_compute. reflexivity.
  - vm_compute. reflexivity.
Defined.

(** C3 as the specification states it fails on the counter: a first verdict
    with [correct] false and a next URL leaves the retry loop with the
    counter at 1, not at 0. *)
Lemma C3_counterexample :
  let run :=
    retry_loop env 3 me plain_quiz first_url JNull 0
      (State (Script [] [] [JInt 1] [wrong_but_next])
             [EvNavigate first_url]) in
  fst run
  = Val (JObj [("correct", JBool false); ("url", second_url)], 1%nat)
  /\ fst run
     <> Val (JObj [("correct", JBool false); ("url", second_url)], 0%nat).
Proof. vm_compute. split; [reflexivity|]. intros H. discriminate H. Qed.

(** C4, as amended: at the check before a navigation, the first one
    included, an elapsed time greater than the limit makes the loop return
    the timeout result at once: no call is made after the reading of the
    clock, so that no page is visited.  The elapsed time is the number the
    float difference of the two readings of the clock stands for. *)
Theorem C4_deadline_exceeded_stops {World : Type} (env : Env World)
  self fuel start current_url (s : state) now w elapsed :
  truthy current_url = true ->
  loop_time env (world s) = (now, w) ->
  float_value (float_sub now start) = Some elapsed ->
  (inject_Z (timeout_seconds self) < elapsed)%Q ->
  quiz_loop env (S fuel) self start current_url s
  = (Val timeout_exceeded, State w (log s)).
Proof.
  intros Hurl Hclock Hvalue Hlate.
  apply (exceeds_iff _ _ _ Hvalue) in Hlate.
  cbn [quiz_loop]. rewrite Hurl.
  rewrite (bind_val _ _ _ _ _ (ask_run _ _ _ _ Hclock)).
  now rewrite Hlate.
Qed.

Lemma C4_deadline_exceeded_stops_witness :
  quiz_loop env 1 me (seconds 0) first_url
    (start (Script [dyadic 361 (-1)] ["Answer is 42"] [JInt 42]
              [right_and_done]))
  = (Val timeout_exceeded,
     State (Script [] ["Answer is 42"] [JInt 42] [right_and_done]) []).
Proof.
  apply (C4_deadline_exceeded_stops env me 0 (seconds 0) first_url
           (start (Script [dyadic 361 (-1)] ["Answer is 42"] [JInt 42]
                     [right_and_done]))
           (dyadic 361 (-1))
           (Script [] ["Answer is 42"] [JInt 42] [right_and_done])
           (Qmake (361 * 2 ^ 44) (2 ^ 45))).
  - reflexivity.
  - reflexivity.
  - vm_compute. reflexivity.
  - vm_compute. reflexivity.
Defined.

(** C4 as the specification states it fails at the bound: with an elapsed
    time of exactly 180 seconds at the first check the session is not
    stopped; it visits the page and goes on to the end. *)
Lemma C4_counterexample :
  let run :=
    solve_quiz env 3 me first_url
      (start (Script [seconds 0; seconds 180] ["Answer is 42"] [JInt 42]
                [right_and_done])) in
  match float_value (float_sub (seconds 180) (seconds 0)) with
  | Some elapsed => (inject_Z 180 <= elapsed)%Q
  | None => False
  end
  /\ fst run <> Val timeout_exceeded
  /\ fst run = Val completed
  /\ navigations (log (snd run)) = 1%nat.
Proof.
  vm_compute. repeat split; try reflexivity; intros H; discriminate H.
Qed.

(** The elapsed time is the rounded difference: with the readings
    0.49999999999999994 and 180.5, whose exact difference is greater than
    180, the float difference is 180 and the page is visited. *)
Lemma elapsed_time_is_rounded :
  let first := S754_finite false 9007199254740991 (-54) in
  let run :=
    solve_quiz env 3 me first_url
      (start (Script [first; dyadic 361 (-1)] ["Answer is 42"] [JInt 42]
                [right_and_done])) in
  float_sub (dyadic 361 (-1)) first = seconds 180
  /\ exceeds (float_sub (dyadic 361 (-1)) first) 180 = false
  /\ fst run = Val completed
  /\ navigations (log (snd run)) = 1%nat.
Proof. vm_compute. repeat split. Qed.

(** C5, as amended: once the credentials are accepted and the solver is
    built, the caller gets status 200 with whatever dictionary the session
    returned, which is the [completed] one or one of the three [error]
    ones (timeout, failed extraction, no submit URL), and status 500 with
    an [error] and a [reason] when the session raised. *)
Theorem C5_response_after_validation {World : Type} (env : Env World)
  new_agent validation_text cfg fuel items quiz_request (s : state) w1 :
  Main.validate items = Some quiz_request ->
  Main.req_secret quiz_request = Main.SECRET cfg ->
  Main.req_email quiz_request = Main.EMAIL cfg ->
  new_agent (world s) = (None, w1) ->
  exists r s',
    solve_quiz env fuel
      {| email := Main.req_email quiz_request;
         secret := Main.req_secret quiz_request;
         timeout_seconds := Main.TIMEOUT_SECONDS |}
      (JStr (Main.req_url quiz_request)) (State w1 (log s)) = (r, s')
    /\ match r with
       | Val d =>
           Main.handle_quiz env new_agent validation_text cfg fuel
             (Main.Json (JObj items)) s
           = (Val (Main.Response 200 d), s')
           /\ In d session_results
       | Raise e =>
           Main.handle_quiz env new_agent validation_text cfg fuel
             (Main.Json (JObj items)) s
           = (Val (Main.Response 500
                     (JObj [("error", JStr "Failed to solve quiz");
                            ("reason", JStr (exn_msg e))])), s')
       | OutOfFuel =>
           Main.handle_quiz env new_agent validation_text cfg fuel
             (Main.Json (JObj items)) s
           = (OutOfFuel, s')
       end.
Proof.
  intros Hvalid Hsecret Hemail Hagent.
  unfold Main.handle_quiz. rewrite Hvalid, Hsecret, Hemail.
  rewrite !eqb_refl. cbn [negb].
  rewrite (bind_val _ _ _ _ _ (ask_run _ _ _ _ Hagent)).
  unfold Main.run_session. rewrite <- Hsecret, <- Hemail.
  destruct (solve_quiz env fuel _ _ (State w1 (log s))) as [[d|e|] s']
    eqn:Hrun; do 2 eexists; (split; [reflexivity|]); try reflexivity.
  split; [reflexivity|]. eapply solve_quiz_returns, Hrun.
Qed.

Lemma C5_response_after_validation_witness :
  exists r s',
    solve_quiz env 3 me first_url
      (start (Script [seconds 0; seconds 1] ["Answer is 42"] [JInt 42] [right_and_done]))
    = (r, s')
    /\ match r with
       | Val d =>
           Main.handle_quiz env new_agent validation_text cfg 3 request
             (start (Script [seconds 0; seconds 1] ["Answer is 42"] [JInt 42]
                       [right_and_done]))
           = (Val (Main.Response 200 d), s')
           /\ In d session_results
       | Raise e =>
           Main.handle_quiz env new_agent validation_text cfg 3 request
             (start (Script [seconds 0; seconds 1] ["Answer is 42"] [JInt 42]
                       [right_and_done]))
           = (Val (Main.Response 500
                     (JObj [("error", JStr "Failed to solve quiz");
                            ("reason", JStr (exn_msg e))])), s')
       | OutOfFuel =>
           Main.handle_quiz env new_agent validation_text cfg 3 request
             (start (Script [seconds 0; seconds 1] ["Answer is 42"] [JInt 42]
                       [right_and_done]))
           = (OutOfFuel, s')
       end.
Proof.
  apply (C5_response_after_validation env new_agent validation_text cfg 3
           [("email", JStr "me@example.com"); ("secret", JStr "s3cret");
            ("url", JStr "https://host.example/q/1")]
           {| Main.req_email := "me@example.com";
              Main.req_secret := "s3cret";
              Main.req_url := "https://host.example/q/1" |}
           (start (Script [seconds 0; seconds 1] ["Answer is 42"] [JInt 42]
                     [right_and_done]))
           (Script [seconds 0; seconds 1] ["Answer is 42"] [JInt 42] [right_and_done])).
  - vm_compute. reflexivity.
  - vm_compute. reflexivity.
  - vm_compute. reflexivity.
  - vm_compute. reflexivity.
Defined.

(** C5 as the specification states it fails for the faults the session
    returns: a session that runs out of time is answered with status 200
    and the [error] dictionary. *)
Lemma C5_counterexample :
  fst (Main.handle_quiz env new_agent validation_text cfg 3 request
         (start (Script [seconds 0; seconds 181] ["Answer is 42"] [JInt 42]
                   [right_and_done])))
  = Val (Main.Response 200 timeout_exceeded)
  /\ failure_state (Val timeout_exceeded) = true.
Proof. vm_compute. split; reflexivity. Qed.

(** C10, as amended: a response that is a JSON object without a truthy
    [correct] is returned as it is; reading it raises nothing; when its
    [url] is missing or falsy the loop goes on with the counter one
    higher, and when its [url] is truthy the loop is left and the next
    current URL is that value. *)
Theorem C10_object_without_correct {World : Type} (env : Env World)
  self fuel quiz current_url result rc (s : state) a s1 items w2 :
  (rc <= max_retries)%nat ->
  _solve_question env quiz s = (Val a, s1) ->
  http_post env (submit_url quiz)
    (Payload (email self) (secret self) current_url a) (world s1)
  = (PostJson (JObj items), w2) ->
  truthy (dict_get items "correct") = false ->
  exists s2,
    _submit_answer env self (submit_url quiz) current_url a s1
    = (Val (JObj items), s2)
    /\ (forall k, get (JObj items) k = inr (dict_get items k))
    /\ (truthy (dict_get items "url") = false ->
        retry_loop env (S fuel) self quiz current_url result rc s
        = retry_loop env fuel self quiz current_url (JObj items) (S rc) s2)
    /\ (truthy (dict_get items "url") = true ->
        retry_loop env (S fuel) self quiz current_url result rc s
        = (Val (JObj items, S rc), s2)
        /\ handle_result (JObj items) = inr (dict_get items "url")).
Proof.
  intros Hrc Hsolve Hpost Hc.
  assert (Hsubmit := submit_answer_run env self (submit_url quiz)
                       current_url a s1).
  rewrite Hpost in Hsubmit. cbn [fst snd verdict_of] in Hsubmit.
  eexists. split; [exact Hsubmit|]. split; [reflexivity|].
  pose proof (retry_loop_step env self fuel quiz current_url result rc
                _ _ _ _ _ Hrc Hsolve Hsubmit) as Hstep.
  rewrite Hc in Hstep. split; intros Hu; rewrite Hu in Hstep.
  - exact Hstep.
  - split; [exact Hstep|]. unfold handle_result. cbn [get].
    now rewrite Hc, Hu.
Qed.

Lemma C10_object_without_correct_witness :
  exists s2,
    _submit_answer env me "https://host.example/submit" first_url (JInt 1)
      (State (Script [] [] [JInt 2] [PostJson empty_url; wrong])
             [EvNavigate first_url; solve_ev])
    = (Val empty_url, s2)
    /\ (forall k, get empty_url k = inr (dict_get [("url", JStr "")] k))
    /\ (truthy (dict_get [("url", JStr "")] "url") = false ->
        retry_loop env 3 me plain_quiz first_url JNull 0
          (State (Script [] [] [JInt 1; JInt 2] [PostJson empty_url; wrong])
                 [EvNavigate first_url])
        = retry_loop env 2 me plain_quiz first_url empty_url 1 s2)
    /\ (truthy (dict_get [("url", JStr "")] "url") = true ->
        retry_loop env 3 me plain_quiz first_url JNull 0
          (State (Script [] [] [JInt 1; JInt 2] [PostJson empty_url; wrong])
                 [EvNavigate first_url])
        = (Val (empty_url, 1%nat), s2)
        /\ handle_result empty_url
           = inr (dict_get [("url", JStr "")] "url")).
Proof.
  apply (C10_object_without_correct env me 2 plain_quiz first_url JNull
           0%nat
           (State (Script [] [] [JInt 1; JInt 2]
                     [PostJson empty_url; wrong]) [EvNavigate first_url])
           (JInt 1)
           (State (Script [] [] [JInt 2] [PostJson empty_url; wrong])
                  [EvNavigate first_url; solve_ev])
           [("url", JStr "")]
           (Script [] [] [JInt 2] [wrong])).
  - unfold max_retries. lia.
  - vm_compute. reflexivity.
  - vm_compute. reflexivity.
  - vm_compute. reflexivity.
Defined.

(** C10 as the specification states it fails for a verdict that has a
    [url] entry with a falsy value: the orchestrator does not move on to
    that value, it solves and submits again until the retries are used
    up. *)
Lemma C10_counterexample :
  has_key "url" empty_url = true /\ has_key "url" null_url = true
  /\ submissions
       (log (snd (solve_quiz env 3 me first_url
                    (start (Script [seconds 0; seconds 1] ["Answer is 42"]
                              [JInt 1; JInt 2; JInt 3]
                              [PostJson empty_url; PostJson empty_url;
                               PostJson empty_url]))))) = 3%nat
  /\ submissions
       (log (snd (solve_quiz env 3 me first_url
                    (start (Script [seconds 0; seconds 1] ["Answer is 42"]
                              [JInt 1; JInt 2; JInt 3]
                              [PostJson null_url; PostJson null_url;
                               PostJson null_url]))))) = 3%nat.
Proof. vm_compute. repeat split. Qed.

(* ------------------------------------------------------------------------- *)
(** * Further properties of the session *)

Section Traces.

Context {World : Type} (env : Env World).
Variable self : QuizSolver.

Implicit Types s : @state World.

Lemma count_app (f : event -> bool) (a b : list event) :
  length (filter f (a ++ b))
  = (length (filter f a) + length (filter f b))%nat.
Proof. now rewrite filter_app, length_app. Qed.

Lemma calls_ok_app page a b :
  calls_ok self page (a ++ b)
  <-> calls_ok self page a /\ calls_ok self (page_after page a) b.
Proof.
  revert page. induction a as [|e a IH]; intros page; cbn.
  - tauto.
  - destruct e; cbn; rewrite ?IH; tauto.
Qed.

Lemma page_after_app page a b :
  page_after page (a ++ b) = page_after (page_after page a) b.
Proof.
  revert page. induction a as [|e a IH]; intros page; [reflexivity|].
  destruct e; cbn; apply IH.
Qed.

(** What one run of the retry loop adds to the log. *)
Lemma retry_loop_trace quiz current_url :
  is_empty (submit_url quiz) = false ->
  url quiz = current_url ->
  forall fuel r rc s res s',
    retry_loop env fuel self quiz current_url r rc s = (res, s') ->
    (rc <= S max_retries)%nat ->
    exists evs,
      log s' = (log s ++ evs)%list
      /\ calls_ok self (Some current_url) evs
      /\ page_after (Some current_url) evs = Some current_url
      /\ navigations evs = 0%nat
      /\ (submissions evs + rc <= S max_retries)%nat
      /\ (submissions evs <= solves evs <= submissions evs + 1)%nat
      /\ (forall v, res = Val v -> solves evs = submissions evs).
Proof.
  intros Hsu Hurl.
  induction fuel as [|fuel IH]; intros r rc s res s' Hrun Hrc;
    cbn [retry_loop] in Hrun;
    destruct (Nat.leb rc max_retries) eqn:Hle;
    try (injection Hrun as <- <-; exists []; rewrite app_nil_r;
         unfold max_retries in *; cbn;
         repeat split; try reflexivity; try lia; discriminate).
  apply Nat.leb_le in Hle. unfold bind at 1 in Hrun.
  destruct (_solve_question env quiz s) as [[a|e|] s1] eqn:Hsolve;
    pose proof (solve_question_log env _ _ _ _ Hsolve) as Hlog1;
    try (injection Hrun as <- <-; exists [EvSolve (question quiz) (url quiz)];
         rewrite Hurl in *; unfold max_retries in *; cbn;
         repeat split; auto; try lia; discriminate).
  rewrite (bind_val _ _ _ _ _ (submit_answer_run env self _ _ _ s1)) in Hrun.
  set (p := Payload (email self) (secret self) current_url a) in *.
  set (s2 := State _ _) in Hrun.
  assert (Hlog2 : log s2 = (log s ++ [EvSolve (question quiz) (url quiz);
                                      EvSubmit (submit_url quiz) p])%list).
  { subst s2. cbn [log]. rewrite Hlog1, <- app_assoc. reflexivity. }
  assert (Hpair : forall res0,
            (res0, s2) = (res, s') ->
            exists evs,
              log s' = (log s ++ evs)%list
              /\ calls_ok self (Some current_url) evs
              /\ page_after (Some current_url) evs = Some current_url
              /\ navigations evs = 0%nat
              /\ (submissions evs + rc <= S max_retries)%nat
              /\ (submissions evs <= solves evs <= submissions evs + 1)%nat
              /\ (forall v, res = Val v -> solves evs = submissions evs)).
  { intros res0 [= _ <-].
    exists [EvSolve (question quiz) (url quiz); EvSubmit (submit_url quiz) p].
    split; [exact Hlog2|].
    rewrite Hurl. unfold max_retries in *. cbn.
    repeat split; auto; lia. }
  unfold bind at 1 in Hrun.
  destruct (get _ "correct") as [e|c]; cbn [of_sum] in Hrun;
    [exact (Hpair _ Hrun)|].
  unfold ret at 1 in Hrun.
  destruct (truthy c); [exact (Hpair _ Hrun)|].
  unfold bind at 1 in Hrun.
  destruct (get _ "url") as [e|u]; cbn [of_sum] in Hrun;
    [exact (Hpair _ Hrun)|].
  unfold ret at 1 in Hrun.
  destruct (truthy u); [exact (Hpair _ Hrun)|].
  destruct (IH _ _ _ _ _ Hrun ltac:(lia))
    as (evs & Hlog & Hok & Hpage & Hnav & Hsub & Hsol & Hval).
  exists (EvSolve (question quiz) (url quiz)
          :: EvSubmit (submit_url quiz) p :: evs).
  rewrite Hlog, Hlog2, <- app_assoc. rewrite Hurl.
  unfold submissions, solves, navigations, max_retries in *. cbn.
  repeat split; auto; try lia.
  intros v Hv. specialize (Hval v Hv). lia.
Qed.

(** The question a page gives is a question for that page. *)
Lemma get_quiz_question_url current_url s quiz s' :
  _get_quiz_question env current_url s = (Val (Some quiz), s') ->
  url quiz = current_url
  /\ exists content, extract content current_url = inr quiz.
Proof.
  unfold _get_quiz_question, bind, emit, ask, ret. cbn [world log].
  destruct (page_goto env current_url (world s)) as [[e|] w1];
    [discriminate|]. cbn [world log].
  destruct (page_result_html env w1) as [[e|html] w2]; cbn [world log];
    [discriminate|].
  assert (Hx : forall content (st : state),
            match extract content current_url with
            | inl _ => (fun s0 : state => (Val (@None quiz_data), s0))
            | inr q => (fun s0 => (Val (Some q), s0))
            end st = (Val (Some quiz), s') ->
            url quiz = current_url
            /\ exists content, extract content current_url = inr quiz).
  { intros content st.
    destruct (extract content current_url) as [e|q] eqn:Hq;
      [discriminate|].
    intros [= <- _]. split; [|now exists content].
    unfold extract, locate in Hq.
    destruct (find_submit_url _ _) as [e|found]; [discriminate|].
    destruct (no_url found).
    - destruct (default_submit_url current_url); [discriminate|].
      now injection Hq as <-.
    - destruct found; [|discriminate]. now injection Hq as <-. }
  destruct (is_empty html); cbn [world log].
  - destruct (page_inner_text env w2) as [[e|text] w3]; cbn [world log];
      [discriminate|].
    apply Hx.
  - apply Hx.
Qed.

(** What one run of the outer loop adds to the log, however it ends. *)
Lemma quiz_loop_trace :
  forall fuel start current_url s out s',
    quiz_loop env fuel self start current_url s = (out, s') ->
    exists evs,
      log s' = (log s ++ evs)%list
      /\ (forall page, calls_ok self page evs)
      /\ (submissions evs <= S max_retries * navigations evs)%nat
      /\ (submissions evs <= solves evs <= submissions evs + 1)%nat
      /\ (navigations evs <= fuel)%nat
      /\ (forall v, out = Val v -> solves evs = submissions evs).
Proof.
  assert (Hnone : forall s (out : Session.res json) s' n,
            (out, s) = (out, s') ->
            exists evs,
              log s' = (log s ++ evs)%list
              /\ (forall page, calls_ok self page evs)
              /\ (submissions evs <= S max_retries * navigations evs)%nat
              /\ (submissions evs <= solves evs <= submissions evs + 1)%nat
              /\ (navigations evs <= n)%nat
              /\ (forall v, out = Val v -> solves evs = submissions evs)).
  { intros s out s' n [= <-]. exists []. rewrite app_nil_r. cbn.
    repeat split; auto; lia. }
  assert (Hone : forall s s1 (out : Session.res json) s' u n,
            log s1 = (log s ++ [EvNavigate u])%list ->
            (out, s1) = (out, s') ->
            exists evs,
              log s' = (log s ++ evs)%list
              /\ (forall page, calls_ok self page evs)
              /\ (submissions evs <= S max_retries * navigations evs)%nat
              /\ (submissions evs <= solves evs <= submissions evs + 1)%nat
              /\ (navigations evs <= S n)%nat
              /\ (forall v, out = Val v -> solves evs = submissions evs)).
  { intros s s1 out s' u n Hlog [= <-]. exists [EvNavigate u].
    split; [exact Hlog|]. cbn. repeat split; auto; lia. }
  induction fuel as [|fuel IH]; intros start current_url s out s' Hrun;
    cbn [quiz_loop] in Hrun; destruct (truthy current_url);
    try (injection Hrun as <- <-; eapply Hnone; reflexivity).
  unfold bind at 1, ask at 1 in Hrun.
  destruct (loop_time env (world s)) as [now w].
  destruct (exceeds _ _).
  { injection Hrun as <- <-.
    destruct (Hnone (State w (log s)) (Val timeout_exceeded) _ (S fuel)
                eq_refl) as (evs & H). now exists evs. }
  unfold bind at 1 in Hrun.
  destruct (_get_quiz_question env current_url (State w (log s)))
    as [[[quiz|]|e|] s1] eqn:Hpage;
    pose proof (get_quiz_question_log env _ _ _ _ Hpage) as Hlog1;
    cbn [log] in Hlog1;
    try (injection Hrun as <- <-; eapply Hone; [exact Hlog1|reflexivity]).
  destruct (is_empty (submit_url quiz)) eqn:Hsu;
    [injection Hrun as <- <-; eapply Hone; [exact Hlog1|reflexivity]|].
  destruct (get_quiz_question_url _ _ _ _ Hpage) as [Hurl _].
  unfold bind at 1 in Hrun.
  destruct (retry_loop env _ self quiz current_url JNull 0 s1)
    as [rout s2] eqn:Hretry.
  destruct (retry_loop_trace quiz current_url Hsu Hurl _ _ _ _ _ _ Hretry
              ltac:(lia))
    as (evr & Hlogr & Hokr & Hpager & Hnavr & Hsubr & Hsolr & Hvalr).
  assert (Hstep : forall out0 : Session.res json,
            (forall v, out0 = Val v -> exists v', rout = Val v') ->
            (out0, s2) = (out, s') ->
            exists evs,
              log s' = (log s ++ evs)%list
              /\ (forall page, calls_ok self page evs)
              /\ (submissions evs <= S max_retries * navigations evs)%nat
              /\ (submissions evs <= solves evs <= submissions evs + 1)%nat
              /\ (navigations evs <= S fuel)%nat
              /\ (forall v, out = Val v -> solves evs = submissions evs)).
  { intros out0 Hres0 [= <- <-]. exists (EvNavigate current_url :: evr).
    rewrite Hlogr, Hlog1, <- app_assoc.
    unfold submissions, solves, navigations, max_retries in *. cbn.
    repeat split; auto; try lia.
    intros v Hv. destruct (Hres0 v Hv) as [v' Hv'].
    specialize (Hvalr v' Hv'). lia. }
  destruct rout as [r|e|].
  2: { apply (Hstep (Raise e)); [intros v Hv; discriminate Hv|exact Hrun]. }
  2: { apply (Hstep OutOfFuel); [intros v Hv; discriminate Hv|exact Hrun]. }
  unfold bind at 1 in Hrun.
  destruct (handle_result (fst r)) as [e|next]; cbn [of_sum] in Hrun.
  { apply (Hstep (Raise e)); [intros v Hv; discriminate Hv|exact Hrun]. }
  unfold ret at 1 in Hrun.
  destruct (IH _ _ _ _ _ Hrun)
    as (evs & Hlog & Hok & Hsub & Hsol & Hnav & Hval).
  specialize (Hvalr r eq_refl).
  exists (EvNavigate current_url :: evr ++ evs).
  rewrite Hlog, Hlogr, Hlog1, <- !app_assoc.
  split; [reflexivity|].
  split.
  { intros page. cbn. apply calls_ok_app. split; [exact Hokr|].
    apply Hok. }
  unfold submissions, solves, navigations, max_retries in *.
  cbn. rewrite !count_app.
  repeat split; try lia.
  intros v Hv. specialize (Hval v Hv). lia.
Qed.

(** A log that keeps the pace from no page at all is empty or starts with
    a visit, and then keeps the pace whatever the page before had left. *)
Lemma paced_from_any left evs :
  paced 0 evs = true -> paced left evs = true.
Proof. destruct evs as [|[u|q u|t p|] evs]; cbn; congruence. Qed.

(** The calls of one run of the retry loop keep the pace, and so does what
    follows them when the loop returned. *)
Lemma retry_loop_paced quiz current_url :
  forall fuel r rc s res s',
    retry_loop env fuel self quiz current_url r rc s = (res, s') ->
    exists evs,
      log s' = (log s ++ evs)%list
      /\ forall left,
           (S max_retries - rc <= left)%nat ->
           paced left evs = true
           /\ (forall v rest,
                  res = Val v -> paced 0 rest = true ->
                  paced left (evs ++ rest) = true).
Proof.
  induction fuel as [|fuel IH]; intros r rc s res s' Hrun;
    cbn [retry_loop] in Hrun;
    destruct (Nat.leb rc max_retries) eqn:Hle;
    try (injection Hrun as <- <-; exists []; rewrite app_nil_r;
         split; [reflexivity|]; intros left _; split; [reflexivity|];
         intros v rest _ Hrest; now apply paced_from_any).
  apply Nat.leb_le in Hle. unfold bind at 1 in Hrun.
  destruct (_solve_question env quiz s) as [[a|e|] s1] eqn:Hsolve;
    pose proof (solve_question_log env _ _ _ _ Hsolve) as Hlog1;
    try (injection Hrun as <- <-;
         exists [EvSolve (question quiz) (url quiz)];
         split; [exact Hlog1|]; intros left Hleft;
         destruct left as [|left]; [unfold max_retries in *; lia|];
         split; [reflexivity|]; intros v rest Hv; discriminate Hv).
  rewrite (bind_val _ _ _ _ _ (submit_answer_run env self _ _ _ s1)) in Hrun.
  set (p := Payload (email self) (secret self) current_url a) in *.
  set (s2 := State _ _) in Hrun.
  assert (Hlog2 : log s2 = (log s ++ [EvSolve (question quiz) (url quiz);
                                      EvSubmit (submit_url quiz) p])%list).
  { subst s2. cbn [log]. rewrite Hlog1, <- app_assoc. reflexivity. }
  assert (Hpair : forall res0,
            (res0, s2) = (res, s') ->
            exists evs,
              log s' = (log s ++ evs)%list
              /\ forall left,
                   (S max_retries - rc <= left)%nat ->
                   paced left evs = true
                   /\ (forall v rest,
                          res = Val v -> paced 0 rest = true ->
                          paced left (evs ++ rest) = true)).
  { intros res0 [= _ <-].
    exists [EvSolve (question quiz) (url quiz); EvSubmit (submit_url quiz) p].
    split; [exact Hlog2|]. intros left Hleft.
    destruct left as [|left]; [unfold max_retries in *; lia|].
    split; [reflexivity|]. intros v rest _ Hrest. cbn.
    now apply paced_from_any. }
  unfold bind at 1 in Hrun.
  destruct (get _ "correct") as [e|c]; cbn [of_sum] in Hrun;
    [exact (Hpair _ Hrun)|].
  unfold ret at 1 in Hrun.
  destruct (truthy c); [exact (Hpair _ Hrun)|].
  unfold bind at 1 in Hrun.
  destruct (get _ "url") as [e|u]; cbn [of_sum] in Hrun;
    [exact (Hpair _ Hrun)|].
  unfold ret at 1 in Hrun.
  destruct (truthy u); [exact (Hpair _ Hrun)|].
  destruct (IH _ _ _ _ _ Hrun) as (evs & Hlog & Hpaced).
  exists (EvSolve (question quiz) (url quiz)
          :: EvSubmit (submit_url quiz) p :: evs).
  split; [rewrite Hlog, Hlog2, <- app_assoc; reflexivity|].
  intros left Hleft.
  destruct left as [|left]; [unfold max_retries in *; lia|].
  destruct (Hpaced left ltac:(lia)) as [Hhere Hthen].
  split; [exact Hhere|]. intros v rest Hv Hrest. cbn.
  exact (Hthen v rest Hv Hrest).
Qed.

(** The calls of one run of the outer loop keep the pace. *)
Lemma quiz_loop_paced :
  forall fuel start current_url s out s',
    quiz_loop env fuel self start current_url s = (out, s') ->
    exists evs, log s' = (log s ++ evs)%list /\ paced 0 evs = true.
Proof.
  induction fuel as [|fuel IH]; intros start current_url s out s' Hrun;
    cbn [quiz_loop] in Hrun; destruct (truthy current_url);
    try (injection Hrun as <- <-; exists []; now rewrite app_nil_r).
  unfold bind at 1, ask at 1 in Hrun.
  destruct (loop_time env (world s)) as [now w].
  destruct (exceeds _ _).
  { injection Hrun as <- <-. exists []. cbn [log]. now rewrite app_nil_r. }
  unfold bind at 1 in Hrun.
  destruct (_get_quiz_question env current_url (State w (log s)))
    as [[[quiz|]|e|] s1] eqn:Hpage;
    pose proof (get_quiz_question_log env _ _ _ _ Hpage) as Hlog1;
    cbn [log] in Hlog1;
    try (injection Hrun as <- <-; exists [EvNavigate current_url];
         split; [exact Hlog1|reflexivity]).
  destruct (is_empty (submit_url quiz)) eqn:Hsu;
    [injection Hrun as <- <-; exists [EvNavigate current_url];
     split; [exact Hlog1|reflexivity]|].
  unfold bind at 1 in Hrun.
  destruct (retry_loop env _ self quiz current_url JNull 0 s1)
    as [rout s2] eqn:Hretry.
  destruct (retry_loop_paced quiz current_url _ _ _ _ _ _ Hretry)
    as (evr & Hlogr & Hpaced).
  destruct (Hpaced (S max_retries) ltac:(lia)) as [Hhere Hthen].
  assert (Hstop : forall out0 : Session.res json,
            (out0, s2) = (out, s') ->
            exists evs, log s' = (log s ++ evs)%list /\ paced 0 evs = true).
  { intros out0 [= <- <-]. exists (EvNavigate current_url :: evr).
    split; [rewrite Hlogr, Hlog1, <- app_assoc; reflexivity|exact Hhere]. }
  destruct rout as [r|e|]; [|exact (Hstop _ Hrun)|exact (Hstop _ Hrun)].
  unfold bind at 1 in Hrun.
  destruct (handle_result (fst r)) as [e|next]; cbn [of_sum] in Hrun;
    [exact (Hstop _ Hrun)|].
  unfold ret at 1 in Hrun.
  destruct (IH _ _ _ _ _ Hrun) as (evs & Hlog & Hevs).
  exists (EvNavigate current_url :: evr ++ evs).
  split; [rewrite Hlog, Hlogr, Hlog1, <- !app_assoc; reflexivity|].
  exact (Hthen r evs eq_refl Hevs).
Qed.

End Traces.

Section Sessions.

Context {World : Type} (env : Env World).
Variable self : QuizSolver.

Implicit Types s : @state World.

Lemma calls_ok_closes page evs :
  calls_ok self page evs -> closes evs = 0%nat.
Proof.
  revert page. induction evs as [|e evs IH]; intros page; [reflexivity|].
  destruct e; cbn; try (intros H; now apply IH in H); try tauto.
  intros (_ & H). now apply IH in H.
  intros (_ & _ & _ & _ & H). now apply IH in H.
Qed.

(** What closing the browser adds to a run that came to an end. *)
Lemma finally_close_log (body : M json) s out s' :
  finally_close env body s = (out, s') ->
  out = OutOfFuel
  \/ log s' = (log (snd (body s)) ++ [EvClose])%list.
Proof.
  unfold finally_close, bind, emit, ask. cbn [world log].
  destruct (body s) as [[v|e|] s1]; cbn [snd];
    try (intros [= <- _]; now left);
    destruct (browser_close env (world s1)) as [[e'|] w]; cbn;
    intros [= _ <-]; now right.
Qed.

End Sessions.

(** X1: a session that started the browser and came to an end closed it,
    as its last call and only once, whatever the result; a session whose
    browser did not start raises that fault and makes no other call. *)
Theorem X1_browser_closed_on_every_exit {World : Type} (env : Env World)
  self fuel initial_url (s : state) :
  match fst (launch_browser env (world s)) with
  | NotLaunched e =>
      fst (solve_quiz env fuel self initial_url s) = Raise e
      /\ log (snd (solve_quiz env fuel self initial_url s)) = log s
  | _ =>
      fst (solve_quiz env fuel self initial_url s) = OutOfFuel
      \/ exists evs,
           log (snd (solve_quiz env fuel self initial_url s))
           = (log s ++ evs ++ [EvClose])%list
           /\ closes evs = 0%nat
  end.
Proof.
  unfold solve_quiz.
  destruct (launch_browser env (world s)) as [started w0] eqn:Hlaunch.
  rewrite (bind_val _ _ _ _ _ (ask_run _ _ _ _ Hlaunch)).
  destruct started as [|e|e]; cbn [fst].
  - destruct (finally_close env _ (State w0 (log s))) as [out s'] eqn:Hrun.
    cbn [fst snd].
    destruct (finally_close_log env _ _ _ _ Hrun) as [->|Hlog];
      [now left|right].
    unfold bind at 1, ask at 1 in Hlog. cbn [world log] in Hlog.
    destruct (loop_time env w0) as [start w1].
    destruct (quiz_loop env fuel self start initial_url (State w1 (log s)))
      as [out1 s1] eqn:Hloop.
    destruct (quiz_loop_trace env self _ _ _ _ _ _ Hloop)
      as (evs & Hevs & Hok & _).
    exists evs. cbn [snd log] in *. rewrite Hlog, Hevs, <- app_assoc.
    split; [reflexivity|]. exact (calls_ok_closes self None evs (Hok None)).
  - destruct (finally_close env _ (State w0 (log s))) as [out s'] eqn:Hrun.
    cbn [fst snd].
    destruct (finally_close_log env _ _ _ _ Hrun) as [->|Hlog];
      [now left|right].
    exists []. now rewrite Hlog.
  - split; reflexivity.
Qed.

(** X2: with an empty first URL (or any falsy one) the session ends at
    once, whatever the fuel: it visits no page, solves and submits nothing,
    closes the browser and returns the [completed] result, unless closing
    the browser raises. *)
Theorem X2_no_url_no_work {World : Type} (env : Env World)
  self fuel initial_url (s : state) w0 :
  truthy initial_url = false ->
  launch_browser env (world s) = (Launched, w0) ->
  exists out s',
    solve_quiz env fuel self initial_url s = (out, s')
    /\ log s' = (log s ++ [EvClose])%list
    /\ match fst (browser_close env (snd (loop_time env w0))) with
       | None => out = Val completed
       | Some e => out = Raise e
       end.
Proof.
  intros Hurl Hlaunch. unfold solve_quiz.
  rewrite (bind_val _ _ _ _ _ (ask_run _ _ _ _ Hlaunch)).
  destruct (loop_time env w0) as [start w1] eqn:Hclock. cbn [snd].
  unfold finally_close.
  rewrite (bind_val _ _ _ _ _ (ask_run _ (State w0 (log s)) _ _ Hclock)).
  rewrite quiz_loop_done by exact Hurl.
  unfold bind, emit, ask. cbn [world log].
  destruct (browser_close env w1) as [[e|] w2]; cbn;
    do 2 eexists; repeat split.
Qed.

Lemma X2_no_url_no_work_witness :
  exists out s',
    solve_quiz env 0 me (JStr "")
      (start (Script [seconds 7] ["Answer is 42"] [JInt 42] [right_and_done]))
    = (out, s')
    /\ log s' = ([] ++ [EvClose])%list
    /\ match fst (browser_close env
                    (snd (loop_time env
                            (Script [seconds 7] ["Answer is 42"] [JInt 42]
                               [right_and_done])))) with
       | None => out = Val completed
       | Some e => out = Raise e
       end.
Proof.
  apply (X2_no_url_no_work env me 0 (JStr "")
           (start (Script [seconds 7] ["Answer is 42"] [JInt 42] [right_and_done]))
           (Script [seconds 7] ["Answer is 42"] [JInt 42] [right_and_done])).
  - vm_compute. reflexivity.
  - vm_compute. reflexivity.
Defined.

(** X3: in every run of the loop, finished or not, the calls keep the
    pace of the loop.  Read from left to right, the log is a sequence of
    page visits; after a visit come at most [max_retries + 1] attempts on
    that page, each a call of the solver followed at once by one
    submission; nothing is solved before the first visit and nothing is
    submitted without a call of the solver just before; only the last call
    of the log can be a call of the solver without its submission.  So the
    submissions are at most [max_retries + 1] per visit and at most the
    calls of the solver, which are at most one more. *)
Theorem X3_attempts_bounded_per_page {World : Type} (env : Env World)
  self fuel start current_url (s : state) :
  exists evs,
    log (snd (quiz_loop env fuel self start current_url s))
    = (log s ++ evs)%list
    /\ paced 0 evs = true
    /\ (submissions evs <= S max_retries * navigations evs)%nat
    /\ (submissions evs <= solves evs <= submissions evs + 1)%nat.
Proof.
  destruct (quiz_loop env fuel self start current_url s) as [out s'] eqn:H.
  destruct (quiz_loop_trace env self _ _ _ _ _ _ H)
    as (evs & Hlog & _ & Hsub & Hsol & _).
  destruct (quiz_loop_paced env self _ _ _ _ _ _ H) as (evs' & Hlog' & Hpace).
  exists evs. cbn [snd]. split; [exact Hlog|].
  split; [|split; assumption].
  rewrite Hlog in Hlog'. apply app_inv_head in Hlog'. now subst evs'.
Qed.

(** X4: in every run of the loop each question is solved for the page the
    browser is on, and each submission goes to a submit URL that is not
    empty, with the email and secret of the solver and, as [url], the URL
    of the page the browser is on; the loop itself never closes the
    browser. *)
Theorem X4_submissions_are_for_the_current_page {World : Type}
  (env : Env World) self fuel start current_url (s : state) :
  exists evs,
    log (snd (quiz_loop env fuel self start current_url s))
    = (log s ++ evs)%list
    /\ forall page, calls_ok self page evs.
Proof.
  destruct (quiz_loop env fuel self start current_url s) as [out s'] eqn:H.
  destruct (quiz_loop_trace env self _ _ _ _ _ _ H)
    as (evs & Hlog & Hok & _).
  now exists evs.
Qed.

(** X5: a page that cannot be read or whose question cannot be extracted
    ends the session at once with the parse error: the page is visited
    once and nothing is solved or submitted. *)
Theorem X5_unreadable_page_is_fatal {World : Type} (env : Env World)
  self fuel start current_url (s : state) now w s1 :
  truthy current_url = true ->
  loop_time env (world s) = (now, w) ->
  exceeds (float_sub now start) (timeout_seconds self) = false ->
  _get_quiz_question env current_url (State w (log s)) = (Val None, s1) ->
  quiz_loop env (S fuel) self start current_url s
  = (Val failed_to_parse, s1)
  /\ log s1 = (log s ++ [EvNavigate current_url])%list.
Proof.
  intros Hurl Hclock Htime Hpage. split.
  - cbn [quiz_loop]. rewrite Hurl.
    rewrite (bind_val _ _ _ _ _ (ask_run _ _ _ _ Hclock)), Htime.
    now rewrite (bind_val _ _ _ _ _ Hpage).
  - now apply get_quiz_question_log in Hpage.
Qed.

Lemma X5_unreadable_page_is_fatal_witness :
  quiz_loop env 1 me (seconds 0) first_url (start (Script [seconds 5] [] [JInt 42] [wrong]))
  = (Val failed_to_parse,
     State (Script [] [] [JInt 42] [wrong]) [EvNavigate first_url])
  /\ [EvNavigate first_url] = ([] ++ [EvNavigate first_url])%list.
Proof.
  apply (X5_unreadable_page_is_fatal env me 0 (seconds 0) first_url
           (start (Script [seconds 5] [] [JInt 42] [wrong])) (seconds 5)
           (Script [] [] [JInt 42] [wrong])).
  - vm_compute. reflexivity.
  - vm_compute. reflexivity.
  - vm_compute. reflexivity.
  - vm_compute. reflexivity.
Defined.

(** X6: an exception of the language-model agent is not caught by the
    loop: at the first attempt or after retries, the session raises it
    without submitting anything for that attempt. *)
Theorem X6_solver_fault_ends_session {World : Type} (env : Env World)
  self fuel start current_url (s : state) quiz s1 n last s2 evs e s3 :
  step_starts env self start current_url s quiz s1 ->
  (n <= max_retries)%nat ->
  failed_attempts env self quiz current_url n JNull s1 last s2 evs ->
  _solve_question env quiz s2 = (Raise e, s3) ->
  quiz_loop env (S fuel) self start current_url s = (Raise e, s3)
  /\ log s3
     = (log s ++ EvNavigate current_url :: evs
        ++ [EvSolve (question quiz) (url quiz)])%list.
Proof.
  intros Hstart Hn Hfail Hsolve.
  destruct (quiz_loop_step env self fuel _ _ _ _ _ Hstart) as [-> Hlog].
  destruct (failed_attempts_log env self _ _ _ _ _ _ _ _ Hfail)
    as [Hlog' _].
  split.
  - unfold bind at 1.
    replace (S max_retries) with (n + S (max_retries - n))%nat by lia.
    rewrite (retry_loop_skip env self _ _ _ _ _ _ _ _ Hfail 0) by lia.
    cbn [Nat.add retry_loop]. rewrite (proj2 (Nat.leb_le _ _) Hn).
    unfold bind at 1. now rewrite Hsolve.
  - apply solve_question_log in Hsolve.
    now rewrite Hsolve, Hlog', Hlog, <- !app_assoc.
Qed.

Lemma X6_solver_fault_ends_session_witness :
  quiz_loop env 1 me (seconds 0) first_url
    (start (Script [seconds 5] ["Answer is 42"] [JInt 1] [wrong]))
  = (Raise exhausted,
     State (Script [] [] [] [])
           [EvNavigate first_url; solve_ev; submit_ev (JInt 1); solve_ev])
  /\ [EvNavigate first_url; solve_ev; submit_ev (JInt 1); solve_ev]
     = ([] ++ EvNavigate first_url :: [solve_ev; submit_ev (JInt 1)]
        ++ [solve_ev])%list.
Proof.
  apply (X6_solver_fault_ends_session env me 0 (seconds 0) first_url
           (start (Script [seconds 5] ["Answer is 42"] [JInt 1] [wrong]))
           plain_quiz
           (State (Script [] [] [JInt 1] [wrong]) [EvNavigate first_url])
           1%nat
           (JObj [("correct", JBool false); ("reason", JStr "wrong")])
           (State (Script [] [] [] [])
                  [EvNavigate first_url; solve_ev; submit_ev (JInt 1)])
           [solve_ev; submit_ev (JInt 1)]).
  - apply run_step_start_sound. vm_compute. reflexivity.
  - unfold max_retries. lia.
  - apply run_failed_attempts_sound. vm_compute. reflexivity.
  - vm_compute. reflexivity.
Defined.

(** X7: a response of the submit endpoint that is JSON but not an object
    (a list, a str, a number, [null]) is returned by the submitter as it
    is and makes the session raise [AttributeError], after that one
    submission. *)
Theorem X7_verdict_that_is_no_object_raises {World : Type}
  (env : Env World) self fuel start current_url (s : state) quiz s1 n
  last s2 evs a s3 v w4 :
  step_starts env self start current_url s quiz s1 ->
  (n <= max_retries)%nat ->
  failed_attempts env self quiz current_url n JNull s1 last s2 evs ->
  _solve_question env quiz s2 = (Val a, s3) ->
  http_post env (submit_url quiz)
    (Payload (email self) (secret self) current_url a) (world s3)
  = (PostJson v, w4) ->
  is_object v = false ->
  exists s4,
    quiz_loop env (S fuel) self start current_url s
    = (Raise (Exn "AttributeError"
                ("'" ++ type_name v ++ "' object has no attribute 'get'")),
       s4)
    /\ log s4
       = (log s ++ EvNavigate current_url :: evs
          ++ [EvSolve (question quiz) (url quiz);
              EvSubmit (submit_url quiz)
                (Payload (email self) (secret self) current_url a)])%list.
Proof.
  intros Hstart Hn Hfail Hsolve Hpost Hv.
  assert (Hget : get v "correct"
                 = inl (Exn "AttributeError"
                          ("'" ++ type_name v
                           ++ "' object has no attribute 'get'"))).
  { destruct v; try reflexivity. discriminate Hv. }
  destruct (quiz_loop_step env self fuel _ _ _ _ _ Hstart) as [-> Hlog].
  destruct (failed_attempts_log env self _ _ _ _ _ _ _ _ Hfail)
    as [Hlog' _].
  assert (Hsubmit := submit_answer_run env self (submit_url quiz)
                       current_url a s3).
  rewrite Hpost in Hsubmit. cbn [fst snd verdict_of] in Hsubmit.
  eexists. split.
  - unfold bind at 1.
    replace (S max_retries) with (n + S (max_retries - n))%nat by lia.
    rewrite (retry_loop_skip env self _ _ _ _ _ _ _ _ Hfail 0) by lia.
    cbn [Nat.add retry_loop]. rewrite (proj2 (Nat.leb_le _ _) Hn).
    rewrite (bind_val _ _ _ _ _ Hsolve), (bind_val _ _ _ _ _ Hsubmit).
    rewrite Hget. reflexivity.
  - apply solve_question_log in Hsolve. cbn [log].
    now rewrite Hsolve, Hlog', Hlog, <- !app_assoc.
Qed.

Lemma X7_verdict_that_is_no_object_raises_witness :
  exists s4,
    quiz_loop env 1 me (seconds 0) first_url
      (start (Script [seconds 5] ["Answer is 42"] [JInt 1] [PostJson (JArr [])]))
    = (Raise (Exn "AttributeError"
                ("'" ++ type_name (JArr [])
                 ++ "' object has no attribute 'get'")), s4)
    /\ log s4
       = ([] ++ EvNavigate first_url :: []
          ++ [EvSolve (Extractor.question plain_quiz)
                (Extractor.url plain_quiz);
              EvSubmit (Extractor.submit_url plain_quiz)
                (Payload (email me) (secret me) first_url (JInt 1))])%list.
Proof.
  apply (X7_verdict_that_is_no_object_raises env me 0 (seconds 0) first_url
           (start (Script [seconds 5] ["Answer is 42"] [JInt 1]
                     [PostJson (JArr [])]))
           plain_quiz
           (State (Script [] [] [JInt 1] [PostJson (JArr [])])
                  [EvNavigate first_url])
           0%nat JNull
           (State (Script [] [] [JInt 1] [PostJson (JArr [])])
                  [EvNavigate first_url])
           [] (JInt 1)
           (State (Script [] [] [] [PostJson (JArr [])])
                  [EvNavigate first_url; solve_ev])
           (JArr []) (Script [] [] [] [])).
  - apply run_step_start_sound. vm_compute. reflexivity.
  - unfold max_retries. lia.
  - apply run_failed_attempts_sound. vm_compute. reflexivity.
  - vm_compute. reflexivity.
  - vm_compute. reflexivity.
  - reflexivity.
Defined.

(** X8: a submission that ends without a JSON body (text that is not JSON,
    a client error, any other fault) counts as a wrong answer without a next
    URL: it uses up one retry and the loop goes on with the same question. *)
Theorem X8_failed_submission_uses_a_retry {World : Type} (env : Env World)
  self fuel quiz current_url result rc (s : state) a s1 o w2 :
  (rc <= max_retries)%nat ->
  _solve_question env quiz s = (Val a, s1) ->
  http_post env (submit_url quiz)
    (Payload (email self) (secret self) current_url a) (world s1) = (o, w2) ->
  is_json_body o = false ->
  no_progress (verdict_of o)
  /\ retry_loop env (S fuel) self quiz current_url result rc s
     = retry_loop env fuel self quiz current_url (verdict_of o) (S rc)
         (State w2 (log s1 ++ [EvSubmit (submit_url quiz)
                                 (Payload (email self) (secret self)
                                          current_url a)])).
Proof.
  intros Hrc Hsolve Hpost Ho.
  assert (Hv : exists reason, verdict_of o = verdict_false reason).
  { destruct o; try discriminate Ho; eexists; reflexivity. }
  destruct Hv as [reason Hv].
  assert (Hsubmit := submit_answer_run env self (submit_url quiz)
                       current_url a s1).
  rewrite Hpost in Hsubmit. cbn [fst snd] in Hsubmit.
  rewrite Hv in *. split.
  - eexists. repeat split; reflexivity.
  - now rewrite (retry_loop_step env self fuel quiz current_url result rc
                   _ _ _ _ _ Hrc Hsolve Hsubmit).
Qed.

Lemma X8_failed_submission_uses_a_retry_witness :
  no_progress (verdict_of (PostClientError "refused"))
  /\ retry_loop env 3 me plain_quiz first_url JNull 0
       (State (Script [] [] [JInt 1; JInt 2] [PostClientError "refused"])
              [EvNavigate first_url])
     = retry_loop env 2 me plain_quiz first_url
         (verdict_of (PostClientError "refused")) 1
         (State (Script [] [] [JInt 2] [])
                ([EvNavigate first_url; solve_ev]
                 ++ [EvSubmit (Extractor.submit_url plain_quiz)
                       (Payload (email me) (secret me) first_url
                                (JInt 1))])).
Proof.
  apply (X8_failed_submission_uses_a_retry env me 2 plain_quiz first_url
           JNull 0%nat
           (State (Script [] [] [JInt 1; JInt 2] [PostClientError "refused"])
                  [EvNavigate first_url])
           (JInt 1)
           (State (Script [] [] [JInt 2] [PostClientError "refused"])
                  [EvNavigate first_url; solve_ev])
           (PostClientError "refused") (Script [] [] [JInt 2] [])).
  - unfold max_retries. lia.
  - vm_compute. reflexivity.
  - vm_compute. reflexivity.
  - reflexivity.
Defined.

(* ------------------------------------------------------------------------- *)
(** * Further properties of the handler *)

(** X9: a request that does not pass the checks of the handler gets its
    answer without anything being started: the solver is not built, the
    browser is not launched, the state of the world and the log are as
    before.  The answer is 400 for a body that is not JSON or lacks a
    field, 500 for a JSON body that is no object, and 403 for a wrong
    secret, which is checked before the email, or a wrong email. *)
Theorem X9_rejected_request_starts_nothing {World : Type} (env : Env World)
  new_agent validation_text cfg fuel request (s : state) :
  accepted cfg request = false ->
  exists status detail,
    Main.handle_quiz env new_agent validation_text cfg fuel request s
    = (Val (Main.http_exception status detail), s)
    /\ match request with
       | Main.NotJson => status = 400%nat
       | Main.Json (JObj items) =>
           match Main.validate items with
           | None => status = 400%nat
           | Some q =>
               status = 403%nat
               /\ (Main.req_secret q <> Main.SECRET cfg ->
                   detail = "Invalid secret")
               /\ (Main.req_secret q = Main.SECRET cfg ->
                   detail = "Email mismatch")
           end
       | Main.Json _ => status = 500%nat
       end.
Proof.
  unfold accepted, Main.handle_quiz. intros H.
  destruct request as [|body]; [do 2 eexists; split; reflexivity|].
  destruct body; try (do 2 eexists; split; reflexivity).
  destruct (Main.validate items) as [q|];
    [|do 2 eexists; split; reflexivity].
  destruct (eqb_spec (Main.req_secret q) (Main.SECRET cfg))
    as [Hs|Hs]; cbn [negb andb] in *.
  - destruct (eqb_spec (Main.req_email q) (Main.EMAIL cfg));
      [discriminate|]. cbn [negb].
    do 2 eexists. split; [reflexivity|]. repeat split; congruence.
  - do 2 eexists. split; [reflexivity|]. repeat split; congruence.
Qed.

Lemma X9_rejected_request_starts_nothing_witness :
  exists status detail,
    Main.handle_quiz env new_agent validation_text cfg 3 wrong_request
      (start (Script [seconds 0; seconds 1] ["Answer is 42"] [JInt 42] [right_and_done]))
    = (Val (Main.http_exception status detail),
       start (Script [seconds 0; seconds 1] ["Answer is 42"] [JInt 42] [right_and_done]))
    /\ match wrong_request with
       | Main.NotJson => status = 400%nat
       | Main.Json (JObj items) =>
           match Main.validate items with
           | None => status = 400%nat
           | Some q =>
               status = 403%nat
               /\ (Main.req_secret q <> Main.SECRET cfg ->
                   detail = "Invalid secret")
               /\ (Main.req_secret q = Main.SECRET cfg ->
                   detail = "Email mismatch")
           end
       | Main.Json _ => status = 500%nat
       end.
Proof.
  apply (X9_rejected_request_starts_nothing env new_agent validation_text
           cfg 3 wrong_request
           (start (Script [seconds 0; seconds 1] ["Answer is 42"] [JInt 42]
                     [right_and_done]))).
  vm_compute. reflexivity.
Defined.

(** X10: the handler never lets an exception out: whenever it comes to an
    end the caller gets a response, with status 200, 400, 403 or 500; the
    status is 200 only for a request that passed the checks, and the body
    is then one of the dictionaries the session returns. *)
Theorem X10_every_request_gets_a_response {World : Type} (env : Env World)
  new_agent validation_text cfg fuel request (s : state) :
  match fst (Main.handle_quiz env new_agent validation_text cfg fuel
               request s) with
  | Val response =>
      In (Main.status_code response) [200; 400; 403; 500]%nat
      /\ (Main.status_code response = 200%nat ->
          accepted cfg request = true
          /\ In (Main.content response) session_results)
  | Raise _ => False
  | OutOfFuel => True
  end.
Proof.
  unfold accepted, Main.handle_quiz.
  destruct request as [|body];
    [cbn; split; [tauto|discriminate]|].
  destruct body; try (cbn; split; [tauto|discriminate]).
  destruct (Main.validate items) as [q|];
    [|cbn; split; [tauto|discriminate]].
  destruct (Text.eqb (Main.req_secret q) (Main.SECRET cfg));
    [|cbn; split; [tauto|discriminate]].
  destruct (Text.eqb (Main.req_email q) (Main.EMAIL cfg));
    [|cbn; split; [tauto|discriminate]].
  cbn [negb andb]. unfold bind, ask.
  destruct (new_agent (world s)) as [[e|] w1];
    [cbn; split; [tauto|discriminate]|].
  unfold Main.run_session.
  destruct (solve_quiz env fuel _ _ _) as [[d|e|] s'] eqn:Hrun; cbn.
  - split; [tauto|]. intros _. split; [reflexivity|].
    eapply solve_quiz_returns, Hrun.
  - split; [tauto|discriminate].
  - exact I.
Qed.

(* ------------------------------------------------------------------------- *)
(** * Further properties of the extractor *)

Section Captures.

Variable icase : bool.

Lemma to_lower_ascii c : (c < 128)%N -> (to_lower c < 128)%N.
Proof.
  unfold to_lower, is_upper, in_range. intros H.
  destruct (N.leb_spec 65 c), (N.leb_spec c 90); cbn [andb]; lia.
Qed.

(** Whatever matches a plain literal folds to the character the literal
    folds to. *)
Lemma chr_eq_fold c a :
  plain_lit c = true -> chr_eq icase c a = true -> fold_s a = fold_s c.
Proof.
  unfold plain_lit. intros Hc.
  apply andb_prop in Hc as [Hc Hk]. apply andb_prop in Hc as [Hc Hi].
  apply N.ltb_lt in Hc. apply negb_true_iff, N.eqb_neq in Hi, Hk.
  pose proof (to_lower_ascii c Hc) as Hlow.
  assert (Hfc : fold_s c = to_lower c).
  { unfold fold_s. destruct (N.eqb_spec c 383); [lia|reflexivity]. }
  rewrite Hfc. unfold chr_eq. destruct icase.
  - intros H. apply orb_prop in H as [H|H].
    + apply N.eqb_eq in H. unfold fold_s.
      destruct (N.eqb_spec a 383) as [->|_]; [|congruence].
      change (to_lower 383%N) with 383%N in H. lia.
    + unfold fold_partners, char_eqb in H.
      destruct (N.eqb_spec (to_lower c) "i"%ch); [contradiction|].
      destruct (N.eqb_spec (to_lower c) "s"%ch) as [Hs|_].
      * cbn [existsb] in H. rewrite orb_false_r in H.
        apply N.eqb_eq in H. subst a. now rewrite Hs.
      * destruct (N.eqb_spec (to_lower c) "k"%ch); [contradiction|].
        discriminate H.
  - intros H. apply N.eqb_eq in H. subst a. exact Hfc.
Qed.

Lemma prefix_cons c p t :
  prefix (c :: p) (c :: t) = prefix p t.
Proof. cbn [prefix]. now rewrite N.eqb_refl. Qed.

Lemma yields_search Q r :
  yields Q (match_here icase r) -> yields Q (search_from icase r).
Proof.
  intros H s. induction s as [|c s IH]; intros x; cbn [search_from].
  - destruct (match_here icase r "") as [y|] eqn:Hy;
      [intros [= <-]; exact (H _ _ Hy)|discriminate].
  - destruct (match_here icase r ((c :: s))) as [y|] eqn:Hy;
      [intros [= <-]; exact (H _ _ Hy)|exact (IH x)].
Qed.

(** The group text is not touched by what is matched in front of the
    group. *)
Lemma push_grp a x : grp (push a x) = grp x.
Proof. reflexivity. Qed.

Lemma yields_grp_take1 (P : option str -> Prop) ok k :
  yields (fun x => P (grp x)) k -> yields (fun x => P (grp x)) (take1 ok k).
Proof.
  intros H s x Hx. apply take1_inv in Hx as (a & s' & y & _ & _ & Hy & ->).
  exact (H _ _ Hy).
Qed.

Lemma yields_grp_greedy (P : option str -> Prop) cls k :
  yields (fun x => P (grp x)) k ->
  yields (fun x => P (grp x)) (greedy cls k).
Proof.
  intros H s. induction s as [|a s IH]; intros x; cbn [greedy];
    [apply H|].
  destruct (cls a); [|apply H].
  destruct (greedy cls k s) as [y|] eqn:Hy; cbn.
  - intros [= <-]. exact (IH _ eq_refl).
  - apply H.
Qed.

Lemma yields_grp_lazy (P : option str -> Prop) k :
  yields (fun x => P (grp x)) k -> yields (fun x => P (grp x)) (lazy k).
Proof.
  intros H s. induction s as [|a s IH]; intros x; cbn [lazy].
  - destruct (k "") as [y|] eqn:Hy;
      [intros [= <-]; exact (H _ _ Hy)|discriminate].
  - destruct (k ((a :: s))) as [y|] eqn:Hy;
      [intros [= <-]; exact (H _ _ Hy)|].
    destruct (not_newline a); [|discriminate].
    destruct (lazy k s) as [z|] eqn:Hz; cbn; [|discriminate].
    intros [= <-]. exact (IH _ eq_refl).
Qed.

Lemma yields_grp_prefix (P : option str -> Prop) pre r :
  forallb plain pre = true ->
  yields (fun x => P (grp x)) (match_here icase r) ->
  yields (fun x => P (grp x)) (match_here icase (pre ++ r)%list).
Proof.
  induction pre as [|n pre IH]; intros Hpre H; [exact H|].
  cbn [forallb] in Hpre. apply andb_prop in Hpre as [Hn Hpre].
  specialize (IH Hpre H).
  destruct n; try discriminate Hn; cbn [app match_here].
  - now apply yields_grp_take1.
  - intros s x. unfold orelse.
    destruct (take1 _ _ s) as [y|] eqn:Hy.
    + intros [= <-]. exact (yields_grp_take1 P _ _ IH _ _ Hy).
    + apply IH.
  - now apply yields_grp_take1.
  - now apply yields_grp_take1, yields_grp_greedy.
  - now apply yields_grp_greedy.
  - now apply yields_grp_lazy.
Qed.

(** The text up to the group close, read back node by node. *)
Lemma closes_with_close r :
  yields (closes_with "" "") (match_here icase (GClose :: r)).
Proof.
  intros s x. cbn [match_here].
  destruct (match_here icase r s); cbn; [|discriminate].
  intros [= <-]. now exists "".
Qed.

Lemma closes_with_push a p1 p2 x :
  closes_with p1 p2 x ->
  closes_with (fold_s a :: p1) (fold_s a :: p2) (push a x).
Proof.
  intros (t & Ht & Hp). exists (a :: t). split.
  - unfold push. cbn [to_close]. now rewrite Ht.
  - cbn [fold map]. now rewrite !prefix_cons.
Qed.

Lemma closes_with_any a x : closes_with "" "" x -> closes_with "" "" (push a x).
Proof.
  intros (t & Ht & _). exists ((a :: t)). split.
  - unfold push. cbn [to_close]. now rewrite Ht.
  - reflexivity.
Qed.

Lemma closes_with_plus cls r :
  yields (closes_with "" "") (match_here icase r) ->
  yields (closes_with "" "") (match_here icase (Plus cls :: r)).
Proof.
  intros H. cbn [match_here].
  assert (Hg : yields (closes_with "" "") (greedy cls (match_here icase r))).
  { intros s. induction s as [|a s IH]; intros x; cbn [greedy];
      [apply H|].
    destruct (cls a); [|apply H].
    destruct (greedy cls (match_here icase r) s) as [y|] eqn:Hy; cbn.
    - intros [= <-]. apply closes_with_any. exact (IH _ eq_refl).
    - apply H. }
  intros s x Hx. apply take1_inv in Hx as (a & s' & y & _ & _ & Hy & ->).
  apply closes_with_any. exact (Hg _ _ Hy).
Qed.

Lemma closes_with_lit c p1 p2 r :
  plain_lit c = true ->
  yields (closes_with p1 p2) (match_here icase r) ->
  yields (closes_with (fold_s c :: p1) (fold_s c :: p2))
    (match_here icase (Lit c :: r)).
Proof.
  intros Hc H s x. cbn [match_here]. intros Hx.
  apply take1_inv in Hx as (a & s' & y & _ & Ha & Hy & ->).
  rewrite <- (chr_eq_fold _ _ Hc Ha). apply closes_with_push.
  exact (H _ _ Hy).
Qed.

Lemma closes_with_opt c p r :
  plain_lit c = true ->
  yields (closes_with p p) (match_here icase r) ->
  yields (closes_with (fold_s c :: p) p)
    (match_here icase (Opt c :: r)).
Proof.
  intros Hc H s x. cbn [match_here]. unfold orelse.
  destruct (take1 _ _ s) as [y|] eqn:Hy.
  - intros [= <-].
    apply take1_inv in Hy as (a & s' & z & _ & Ha & Hz & ->).
    destruct (H _ _ Hz) as (t & Ht & Hp).
    exists (a :: t). split.
    + unfold push. cbn [to_close]. now rewrite Ht.
    + cbn [fold map].
      rewrite (chr_eq_fold _ _ Hc Ha), prefix_cons.
      rewrite orb_diag in Hp. unfold fold in Hp. now rewrite Hp.
  - intros Hx. destruct (H _ _ Hx) as (t & Ht & Hp).
    exists t. split; [exact Ht|]. rewrite orb_diag in Hp.
    rewrite Hp. apply orb_true_r.
Qed.

Lemma group_with_open p1 p2 r :
  yields (closes_with p1 p2) (match_here icase r) ->
  yields (group_with p1 p2) (match_here icase (GOpen :: r)).
Proof.
  intros H s x. cbn [match_here].
  destruct (match_here icase r s) as [y|] eqn:Hy; cbn; [|discriminate].
  intros [= <-]. exact (H _ _ Hy).
Qed.

(** The group of an URL: [https?://] and one class repeated. *)
Lemma group_of_url cls :
  yields (group_with "https://" "http://")
    (match_here icase
       ([GOpen] ++ lits "http" ++ [Opt "s"%ch] ++ lits "://"
        ++ [Plus cls; GClose])%list).
Proof.
  cbn [app lits map].
  apply group_with_open.
  apply (closes_with_lit "h" "ttps://" "ttp://" _ eq_refl).
  apply (closes_with_lit "t" "tps://" "tp://" _ eq_refl).
  apply (closes_with_lit "t" "ps://" "p://" _ eq_refl).
  apply (closes_with_lit "p" "s://" "://" _ eq_refl).
  apply (closes_with_opt "s" "://" _ eq_refl).
  apply (closes_with_lit ":" "//" "//" _ eq_refl).
  apply (closes_with_lit "/" "/" "/" _ eq_refl).
  apply (closes_with_lit "/" "" "" _ eq_refl).
  apply closes_with_plus, closes_with_close.
Qed.

End Captures.

Section Submit_urls.

Lemma group_of_phrase icase pre cls :
  forallb plain pre = true ->
  yields (fun x => http_group (grp x))
    (search_from icase
       (pre ++ [GOpen] ++ lits "http" ++ [Opt "s"%ch] ++ lits "://"
        ++ [Plus cls; GClose])%list).
Proof.
  intros Hpre. apply yields_search, yields_grp_prefix; [exact Hpre|].
  intros s x Hx. destruct (group_of_url icase cls s x Hx) as (t & Ht & Hp).
  exists t. split; [exact Ht|]. unfold starts_http.
  now rewrite orb_comm.
Qed.

Lemma fold_app a b : fold (a ++ b) = fold a ++ fold b.
Proof. apply map_app. Qed.

Lemma prefix_app p a b :
  prefix p a = true -> prefix p (a ++ b) = true.
Proof.
  revert a. induction p as [|c p IH]; intros a H;
    [now destruct (a ++ b)|].
  destruct a as [|d a]; cbn [prefix app] in *; [discriminate|].
  apply andb_prop in H as [-> H]. now apply IH.
Qed.

Lemma starts_http_app a b : starts_http a = true -> starts_http (a ++ b) = true.
Proof.
  unfold starts_http. rewrite fold_app. intros H.
  apply orb_true_iff in H as [H|H]; apply orb_true_iff; [left|right];
    now apply prefix_app.
Qed.

Lemma starts_http_not_empty u : starts_http u = true -> is_empty u = false.
Proof. now destruct u. Qed.

Lemma search_group icase r s m :
  search icase r s = Some m ->
  exists x, search_from icase r s = Some x
            /\ m = Match (count_groups r) (whole x) (grp x).
Proof.
  unfold search. destruct (search_from icase r s) as [x|]; cbn;
    [|discriminate].
  intros [= <-]. now exists x.
Qed.

End Submit_urls.

(** A question located in a text has a submit URL that starts with
    [http://] or [https://], in any case. *)
Lemma locate_url_starts_http c current_url quiz :
  locate c current_url = inr quiz ->
  starts_http (submit_url quiz) = true.
Proof.
  unfold locate, submit_patterns. cbn [find_submit_url].
  destruct (search true url_with_submit c) as [m|] eqn:H1.
  { apply search_group in H1 as (x & _ & ->).
    rewrite lastindex_never_0. discriminate. }
  destruct (search true post_to c) as [m|] eqn:H2.
  { apply search_group in H2 as (x & Hx & ->).
    rewrite lastindex_never_0.
    destruct (group_of_phrase true
                (lits "Post" ++ [LazyDot] ++ lits "to" ++ [Plus is_space])
                url_char eq_refl c x Hx) as (t & Ht & Hp).
    unfold group_1. cbn [groups group1]. rewrite Ht.
    change (count_groups post_to) with 1%nat. cbn [Nat.ltb Nat.leb no_url].
    rewrite (starts_http_not_empty _ Hp). now intros [= <-]. }
  destruct (search true submit_to c) as [m|] eqn:H3.
  { apply search_group in H3 as (x & Hx & ->).
    rewrite lastindex_never_0.
    destruct (group_of_phrase true
                (lits "submit" ++ [LazyDot] ++ lits "to" ++ [Plus is_space])
                url_char eq_refl c x Hx) as (t & Ht & Hp).
    unfold group_1. cbn [groups group1]. rewrite Ht.
    change (count_groups submit_to) with 1%nat. cbn [Nat.ltb Nat.leb no_url].
    rewrite (starts_http_not_empty _ Hp). now intros [= <-]. }
  destruct (search true url_ending_submit c) as [m|] eqn:H4.
  { apply search_group in H4 as (x & _ & ->).
    rewrite lastindex_never_0. discriminate. }
  cbn [no_url]. unfold default_submit_url.
  destruct current_url as [| | | |u| |]; try discriminate.
  destruct (search false origin_pattern u) as [m|] eqn:H5.
  - apply search_group in H5 as (x & Hx & ->).
    destruct (group_of_phrase false [] not_slash eq_refl u x Hx)
      as (t & Ht & Hp).
    unfold group_1. cbn [groups group1]. rewrite Ht.
    change (count_groups origin_pattern) with 1%nat. cbn [Nat.ltb Nat.leb].
    intros [= <-]. now apply starts_http_app.
  - now intros [= <-].
Qed.


(** X11: whatever the page and the current URL, a submit URL the extractor
    returns starts with [http://] or [https://], its letters in either
    case and the [s] of [https] possibly the long s (U+017F) that
    [re.IGNORECASE] takes for an [s]; in particular it is never empty. *)
Theorem X11_submit_url_is_an_http_url content current_url quiz :
  extract content current_url = inr quiz ->
  starts_http (submit_url quiz) = true
  /\ is_empty (submit_url quiz) = false.
Proof.
  unfold extract. intros H.
  pose proof (locate_url_starts_http _ _ _ H) as Hhttp.
  split; [exact Hhttp|]. now apply starts_http_not_empty.
Qed.

Lemma X11_submit_url_is_an_http_url_witness :
  let long_s_url := ("http" ++ [383%N] ++ "://evil.example/x")%list in
  let page := ("Post it to " ++ long_s_url)%list in
  extract page first_url = inr (QuizData page long_s_url first_url)
  /\ starts_http (submit_url (QuizData page long_s_url first_url)) = true
  /\ is_empty (submit_url (QuizData page long_s_url first_url)) = false.
Proof.
  split; [vm_compute; reflexivity|].
  apply (X11_submit_url_is_an_http_url
           ("Post it to " ++ ("http" ++ [383%N] ++ "://evil.example/x"))%list
           first_url).
  vm_compute. reflexivity.
Defined.

Section No_submit_url.

Context {World : Type} (env : Env World).
Variable self : QuizSolver.

Lemma quiz_loop_never_without_url fuel :
  forall start current_url (s : state),
    fst (quiz_loop env fuel self start current_url s) <> Val no_submit_url.
Proof.
  induction fuel as [|fuel IH]; intros start current_url s;
    cbn [quiz_loop]; destruct (truthy current_url);
    try (cbn; discriminate).
  unfold bind at 1, ask at 1.
  destruct (loop_time env (world s)) as [now w].
  destruct (exceeds _ _); [cbn; discriminate|].
  unfold bind at 1.
  destruct (_get_quiz_question env current_url _) as [[[quiz|]| |] s2]
    eqn:Hpage; try (cbn; discriminate).
  destruct (get_quiz_question_url env _ _ _ _ Hpage) as (_ & content & Hq).
  apply locate_url_starts_http in Hq.
  rewrite (starts_http_not_empty _ Hq).
  unfold bind at 1.
  destruct (retry_loop env _ self quiz current_url JNull 0 s2)
    as [[r| |] s3]; try (cbn; discriminate).
  unfold bind at 1.
  destruct (handle_result (fst r)) as [e|next]; cbn [of_sum];
    [cbn; discriminate|].
  unfold ret at 1. apply IH.
Qed.

Lemma solve_quiz_never_without_url fuel initial_url (s : state) :
  fst (solve_quiz env fuel self initial_url s) <> Val no_submit_url.
Proof.
  destruct (solve_quiz env fuel self initial_url s) as [out s'] eqn:Hrun.
  cbn [fst]. intros ->. revert Hrun. unfold solve_quiz. unfold bind at 1.
  destruct (ask (launch_browser env) s) as [[[| e | e]| |] s1];
    try discriminate.
  - intros H. apply finally_close_returns in H as [s2 H].
    unfold bind at 1 in H.
    destruct (ask (loop_time env) s1) as [[t| |] s3]; try discriminate.
    apply (quiz_loop_never_without_url fuel t initial_url s3).
    now rewrite H.
  - intros H. now apply finally_close_returns in H as [s2 H].
Qed.

End No_submit_url.

(** X12: the session never returns the [No submit URL found] error:
    whatever the pages, the clock, the solver and the endpoint do, a
    question that was extracted has a submit URL, so that a result the
    session returns is one of the three other dictionaries. *)
Theorem X12_no_submit_url_error_never_returned {World : Type}
  (env : Env World) self fuel initial_url (s : state) :
  match fst (solve_quiz env fuel self initial_url s) with
  | Val d => In d [completed; timeout_exceeded; failed_to_parse]
  | _ => True
  end.
Proof.
  pose proof (solve_quiz_never_without_url env self fuel initial_url s)
    as Hnever.
  destruct (solve_quiz env fuel self initial_url s) as [[d|e|] s'] eqn:Hrun;
    cbn [fst] in *; [|exact I|exact I].
  apply solve_quiz_returns in Hrun.
  unfold session_results in Hrun. cbn [In] in *.
  destruct Hrun as [H|[H|[H|[H|[]]]]]; auto.
  subst d. now elim Hnever.
Qed.

Section Coverage.

Variable icase : bool.

Lemma covers_take1 ok k k' :
  covers k k' -> covers (take1 ok k) (take1 ok k').
Proof.
  intros H [|a s]; cbn; [tauto|].
  destruct (ok a); [|tauto]. specialize (H s).
  destruct (k s), (k' s); cbn; intuition congruence.
Qed.

Lemma covers_greedy cls k k' :
  covers k k' -> covers (greedy cls k) (greedy cls k').
Proof.
  intros H s. induction s as [|a s IH]; cbn [greedy]; [apply H|].
  destruct (cls a); [|apply H].
  specialize (H ((a :: s))).
  destruct (greedy cls k s) as [y|], (greedy cls k' s) as [y'|]; cbn;
    intuition congruence.
Qed.

Lemma covers_lazy k k' : covers k k' -> covers (lazy k) (lazy k').
Proof.
  intros H s. induction s as [|a s IH]; cbn [lazy].
  - specialize (H ""). destruct (k ""), (k' ""); intuition congruence.
  - specialize (H ((a :: s))).
    destruct (k ((a :: s))), (k' ((a :: s))); try intuition congruence.
    destruct (not_newline a); [|tauto].
    destruct (lazy k s), (lazy k' s); cbn; intuition congruence.
Qed.

Lemma covers_map (f g : found -> found) k k' :
  covers k k' ->
  covers (fun s => option_map f (k s)) (fun s => option_map g (k' s)).
Proof.
  intros H s. specialize (H s).
  destruct (k s), (k' s); cbn; intuition congruence.
Qed.

(** Two patterns with the same start: where the one with the first ending
    matches, the one with the second ending matches, if that holds for the
    endings. *)
Lemma covers_prefix pre r r' :
  covers (match_here icase r) (match_here icase r') ->
  covers (match_here icase (pre ++ r)%list) (match_here icase (pre ++ r')%list).
Proof.
  intros H. induction pre as [|n pre IH]; [exact H|].
  destruct n; cbn [app match_here].
  - now apply covers_take1.
  - intros s. unfold orelse.
    pose proof (covers_take1 (chr_eq icase c) _ _ IH s) as H1.
    specialize (IH s).
    destruct (take1 _ (match_here icase (pre ++ r)%list) s),
      (take1 _ (match_here icase (pre ++ r')%list) s);
      intuition congruence.
  - now apply covers_take1.
  - now apply covers_take1, covers_greedy.
  - now apply covers_greedy.
  - now apply covers_lazy.
  - now apply covers_map.
  - now apply covers_map.
Qed.

Lemma covers_search r r' :
  covers (match_here icase r) (match_here icase r') ->
  covers (search_from icase r) (search_from icase r').
Proof.
  intros H s. induction s as [|a s IH]; cbn [search_from].
  - specialize (H ""). destruct (match_here icase r ""),
      (match_here icase r' ""); intuition congruence.
  - specialize (H ((a :: s))).
    destruct (match_here icase r ((a :: s))),
      (match_here icase r' ((a :: s))); intuition congruence.
Qed.

Lemma greedy_never_fails cls k :
  (forall s, k s <> None) -> forall s, greedy cls k s <> None.
Proof.
  intros H s. induction s as [|a s IH]; cbn [greedy]; [apply H|].
  destruct (cls a); [|apply H].
  destruct (greedy cls k s); cbn; [discriminate|apply H].
Qed.

End Coverage.

(** X13: the fourth submit-URL pattern never decides: wherever it matches,
    the first pattern matches too, so that the search for the submit URL
    gives the same with the first three patterns alone. *)
Theorem X13_fourth_pattern_never_decides content :
  (search true url_ending_submit content <> None ->
   search true url_with_submit content <> None)
  /\ find_submit_url submit_patterns content
     = find_submit_url [url_with_submit; post_to; submit_to] content.
Proof.
  assert (Hcov : search true url_ending_submit content <> None ->
                 search true url_with_submit content <> None).
  { unfold search. intros H.
    assert (Hs : search_from true url_ending_submit content <> None).
    { destruct (search_from true url_ending_submit content);
        [discriminate|]. now cbn in H. }
    assert (Hc : covers (search_from true url_ending_submit)
                   (search_from true url_with_submit)).
    { apply covers_search.
      change url_ending_submit
        with ((http_url ++ lits "/submit") ++ [])%list.
      change url_with_submit
        with ((http_url ++ lits "/submit") ++ [Star url_char])%list.
      apply covers_prefix. intros s _. cbn [match_here].
      apply greedy_never_fails. discriminate. }
    specialize (Hc content Hs).
    destruct (search_from true url_with_submit content);
      [discriminate|contradiction]. }
  split; [exact Hcov|].
  unfold submit_patterns. cbn [find_submit_url].
  destruct (search true url_with_submit content); [reflexivity|].
  destruct (search true post_to content); [reflexivity|].
  destruct (search true submit_to content); [reflexivity|].
  destruct (search true url_ending_submit content); [|reflexivity].
  exfalso. apply Hcov; [discriminate|reflexivity].
Qed.

(* ------------------------------------------------------------------------- *)
(** * Base64: encoding and decoding *)

Section Base64_round_trip.

Lemma in_all_ascii c : In c all_ascii.
Proof.
  unfold all_ascii. rewrite <- (ascii_nat_embedding c).
  apply in_map, in_seq. pose proof (nat_ascii_bounded c). lia.
Qed.

Lemma in_below n v : (v < N.of_nat n)%N -> In v (below n).
Proof.
  intros H. unfold below. rewrite <- (N2Nat.id v). apply in_map, in_seq. lia.
Qed.

Lemma all_bytes_ok : forallb byte_ok all_ascii = true.
Proof. vm_compute. reflexivity. Qed.

Lemma all_glue4_ok :
  forallb (fun hi => forallb (glue_ok 4 hi) (below 16)) (below 4) = true.
Proof. vm_compute. reflexivity. Qed.

Lemma all_glue2_ok :
  forallb (fun hi => forallb (glue_ok 2 hi) (below 4)) (below 16) = true.
Proof. vm_compute. reflexivity. Qed.

Lemma all_digits_ok : forallb digit_ok (below 64) = true.
Proof. vm_compute. reflexivity. Qed.

Ltac split_andb H :=
  repeat match type of H with
         | (_ && _)%bool = true =>
             let H' := fresh H in apply andb_prop in H as [H H']
         end.

Lemma byte_facts b :
  let n := code b in
  ((N.shiftr n 2 < 64 /\ N.land n 3 < 4 /\ N.shiftr n 4 < 16
    /\ N.land n 15 < 16 /\ N.shiftr n 6 < 4 /\ N.land n 63 < 64)
   /\ N.lor (N.shiftl (N.shiftr n 2) 2) (N.land n 3) = n
   /\ N.lor (N.shiftl (N.shiftr n 4) 4) (N.land n 15) = n
   /\ N.lor (N.shiftl (N.shiftr n 6) 6) (N.land n 63) = n)%N.
Proof.
  pose proof all_bytes_ok as H. rewrite forallb_forall in H.
  specialize (H b (in_all_ascii b)). unfold byte_ok in H. cbv zeta in *.
  split_andb H.
  repeat match goal with
         | X : N.ltb _ _ = true |- _ => apply N.ltb_lt in X
         | X : N.eqb _ _ = true |- _ => apply N.eqb_eq in X
         end.
  tauto.
Qed.

Lemma glue4_facts hi lo :
  (hi < 4 -> lo < 16 ->
   N.lor (N.shiftl hi 4) lo < 64
   /\ N.shiftr (N.lor (N.shiftl hi 4) lo) 4 = hi
   /\ N.land (N.lor (N.shiftl hi 4) lo) 15 = lo)%N.
Proof.
  intros Hhi Hlo. pose proof all_glue4_ok as H. rewrite forallb_forall in H.
  specialize (H hi (in_below 4 hi Hhi)). rewrite forallb_forall in H.
  specialize (H lo (in_below 16 lo Hlo)). unfold glue_ok in H.
  cbv zeta in H. split_andb H.
  apply N.ltb_lt in H. apply N.eqb_eq in H0, H1. tauto.
Qed.

Lemma glue2_facts hi lo :
  (hi < 16 -> lo < 4 ->
   N.lor (N.shiftl hi 2) lo < 64
   /\ N.shiftr (N.lor (N.shiftl hi 2) lo) 2 = hi
   /\ N.land (N.lor (N.shiftl hi 2) lo) 3 = lo)%N.
Proof.
  intros Hhi Hlo. pose proof all_glue2_ok as H. rewrite forallb_forall in H.
  specialize (H hi (in_below 16 hi Hhi)). rewrite forallb_forall in H.
  specialize (H lo (in_below 4 lo Hlo)). unfold glue_ok in H.
  cbv zeta in H. split_andb H.
  apply N.ltb_lt in H. apply N.eqb_eq in H0, H1. tauto.
Qed.

Lemma digit_facts v :
  (v < 64)%N ->
  B64.value (digit v) = Some v /\ N.eqb (digit v) pad = false
  /\ b64_char (digit v) = true /\ B64.is_ascii7 (digit v) = true.
Proof.
  intros Hv. pose proof all_digits_ok as H. rewrite forallb_forall in H.
  specialize (H v (in_below 64 v Hv)). unfold digit_ok in H.
  split_andb H.
  repeat match goal with
         | X : negb _ = true |- _ => apply negb_true_iff in X
         end.
  destruct (B64.value (digit v)) as [w|]; [|discriminate].
  apply N.eqb_eq in H. subst w. tauto.
Qed.

Lemma a2b_digit v rest quad_pos leftchar pads out :
  (v < 64)%N ->
  B64.a2b_base64 (digit v :: rest) quad_pos leftchar pads out
  = match quad_pos with
    | 0 => B64.a2b_base64 rest 1 v 0 out
    | 1 => B64.a2b_base64 rest 2 (N.land v 15) 0
             (N.lor (N.shiftl leftchar 2) (N.shiftr v 4) :: out)
    | 2 => B64.a2b_base64 rest 3 (N.land v 3) 0
             (N.lor (N.shiftl leftchar 4) (N.shiftr v 2) :: out)
    | _ => B64.a2b_base64 rest 0 0%N 0
             (N.lor (N.shiftl leftchar 6) v :: out)
    end%nat.
Proof.
  intros Hv. destruct (digit_facts v Hv) as (Hval & Hpad & _).
  cbn [B64.a2b_base64]. unfold char_eqb. change "="%ch with pad.
  now rewrite Hpad, Hval.
Qed.

(** The first two digits give back the first byte. *)
Lemma a2b_first b0 b1 rest leftchar pads out :
  B64.a2b_base64 (digit (d0 b0) :: digit (d1 b0 b1) :: rest)
    0 leftchar pads out
  = B64.a2b_base64 rest 2 (N.shiftr (code b1) 4) 0 (code b0 :: out).
Proof.
  destruct (byte_facts b0) as ((H0 & H0' & _) & Hj & _).
  destruct (byte_facts b1) as ((_ & _ & H1 & _) & _).
  destruct (glue4_facts _ _ H0' H1) as (Hlt & Hhi & Hlo).
  rewrite a2b_digit by exact H0. rewrite a2b_digit by exact Hlt.
  unfold d1, d0. now rewrite Hhi, Hlo, Hj.
Qed.

Lemma a2b_second b1 b2 rest pads out :
  B64.a2b_base64 (digit (d2 b1 b2) :: rest)
    2 (N.shiftr (code b1) 4) pads out
  = B64.a2b_base64 rest 3 (N.shiftr (code b2) 6) 0 (code b1 :: out).
Proof.
  destruct (byte_facts b1) as ((_ & _ & _ & H1 & _) & _ & Hj & _).
  destruct (byte_facts b2) as ((_ & _ & _ & _ & H2 & _) & _).
  destruct (glue2_facts _ _ H1 H2) as (Hlt & Hhi & Hlo).
  rewrite a2b_digit by exact Hlt.
  unfold d2. now rewrite Hhi, Hlo, Hj.
Qed.

Lemma a2b_third b2 rest pads out :
  B64.a2b_base64 (digit (d3 b2) :: rest)
    3 (N.shiftr (code b2) 6) pads out
  = B64.a2b_base64 rest 0 0%N 0 (code b2 :: out).
Proof.
  destruct (byte_facts b2) as ((_ & _ & _ & _ & _ & H2) & _ & _ & Hj).
  rewrite a2b_digit by exact H2. unfold d3. now rewrite Hj.
Qed.

Lemma zero_bits : N.shiftr (code zero) 4 = 0%N /\ N.shiftr (code zero) 6 = 0%N.
Proof. split; reflexivity. Qed.

(** Decoding an encoded content gives its bytes back. *)
Lemma a2b_of_b64encode n :
  forall content leftchar pads out,
    (String.length content <= n)%nat ->
    B64.a2b_base64 (b64encode content) 0 leftchar pads out
    = Some (rev out ++ bytes content)%list.
Proof.
  induction n as [n IH] using lt_wf_ind.
  intros content leftchar pads out Hn.
  destruct content as [|b0 [|b1 [|b2 rest]]]; cbn [b64encode].
  - cbn. now rewrite app_nil_r.
  - rewrite a2b_first. cbn. reflexivity.
  - rewrite a2b_first, a2b_second. cbn. now rewrite <- !app_assoc.
  - rewrite a2b_first, a2b_second, a2b_third.
    cbn [String.length] in Hn.
    rewrite (IH (n - 3)%nat) by lia.
    unfold bytes. cbn. now rewrite <- !app_assoc.
Qed.

(** Bytes below 128 are well-formed UTF-8 and decode to themselves. *)
Lemma utf8_decode_ascii bs :
  forallb B64.is_ascii7 bs = true -> B64.utf8_decode bs = Some bs.
Proof.
  induction bs as [|b bs IH]; cbn [forallb B64.utf8_decode]; intros H;
    [reflexivity|].
  apply andb_prop in H as [Hb Hbs]. unfold B64.is_ascii7 in Hb.
  rewrite Hb, (IH Hbs). reflexivity.
Qed.

(** The encoded text is made of the alphabet and the pad character. *)
Lemma b64encode_chars n :
  forall content,
    (String.length content <= n)%nat ->
    all_in b64_char (b64encode content) = true
    /\ all_in B64.is_ascii7 (b64encode content) = true.
Proof.
  induction n as [n IH] using lt_wf_ind. intros content Hn.
  assert (Hd0 : forall b, b64_char (digit (d0 b)) = true
                          /\ B64.is_ascii7 (digit (d0 b)) = true).
  { intros b. destruct (byte_facts b) as ((H & _) & _).
    now destruct (digit_facts _ H) as (_ & _ & ? & ?). }
  assert (Hd3 : forall b, b64_char (digit (d3 b)) = true
                          /\ B64.is_ascii7 (digit (d3 b)) = true).
  { intros b. destruct (byte_facts b) as ((_ & _ & _ & _ & _ & H) & _).
    now destruct (digit_facts _ H) as (_ & _ & ? & ?). }
  assert (Hd1 : forall b b', b64_char (digit (d1 b b')) = true
                             /\ B64.is_ascii7 (digit (d1 b b')) = true).
  { intros b b'. destruct (byte_facts b) as ((_ & H & _) & _).
    destruct (byte_facts b') as ((_ & _ & H' & _) & _).
    destruct (glue4_facts _ _ H H') as (Hlt & _).
    now destruct (digit_facts _ Hlt) as (_ & _ & ? & ?). }
  assert (Hd2 : forall b b', b64_char (digit (d2 b b')) = true
                             /\ B64.is_ascii7 (digit (d2 b b')) = true).
  { intros b b'. destruct (byte_facts b) as ((_ & _ & _ & H & _) & _).
    destruct (byte_facts b') as ((_ & _ & _ & _ & H' & _) & _).
    destruct (glue2_facts _ _ H H') as (Hlt & _).
    now destruct (digit_facts _ Hlt) as (_ & _ & ? & ?). }
  unfold all_in in *.
  destruct content as [|b0 [|b1 [|b2 rest]]];
    cbn [b64encode forallb].
  - split; reflexivity.
  - destruct (Hd0 b0) as [-> ->], (Hd1 b0 zero) as [-> ->].
    split; reflexivity.
  - destruct (Hd0 b0) as [-> ->], (Hd1 b0 b1) as [-> ->],
      (Hd2 b1 zero) as [-> ->].
    split; reflexivity.
  - destruct (Hd0 b0) as [-> ->], (Hd1 b0 b1) as [-> ->],
      (Hd2 b1 b2) as [-> ->], (Hd3 b2) as [-> ->].
    cbn [String.length] in Hn. cbn [andb].
    apply (IH (n - 3)%nat); lia.
Qed.

End Base64_round_trip.

(* ------------------------------------------------------------------------- *)
(** ** The file tools of the agent *)

Section File_tools.

Context {World : Type}.
Variable tools : Tools World.

Lemma b64encode_ascii content :
  forallb B64.is_ascii7 (b64encode content) = true.
Proof.
  now destruct (b64encode_chars (String.length content) content (le_n _)).
Qed.

Lemma b64decode_b64encode content :
  b64decode tools (Value (JStr (b64encode content))) = inr (bytes content).
Proof.
  unfold b64decode. rewrite b64encode_ascii.
  now rewrite (a2b_of_b64encode (String.length content)) by apply le_n.
Qed.

Lemma download_pdf url w content w' :
  session_get tools url w = (inr content, w') ->
  download_and_process_file tools url "pdf" w
  = (inr (Value (JStr (b64encode content))), w').
Proof.
  intros Hget. unfold download_and_process_file. rewrite Hget.
  cbn [Text.eqb N.eqb Bool.eqb]. unfold decode_utf8.
  now rewrite (utf8_decode_ascii _ (b64encode_ascii content)).
Qed.

(** A CSV or an Excel file is never parsed: the buffer cannot be built. *)
Lemma csv_retries_raise encodings content first :
  csv_retries tools encodings content first = inl first.
Proof. induction encodings as [|enc rest IH]; cbn; [reflexivity|exact IH]. Qed.

Lemma download_csv_or_excel url file_type w :
  file_type = "csv" \/ file_type = "excel" ->
  download_and_process_file tools url file_type w
  = (match fst (session_get tools url w) with
     | inl e => inl e
     | inr _ => inl name_error_io
     end, snd (session_get tools url w)).
Proof.
  intros Ht. unfold download_and_process_file.
  destruct (session_get tools url w) as [[e|content] w']; cbn [fst snd];
    [reflexivity|].
  destruct Ht as [-> | ->]; cbn [Text.eqb N.eqb Bool.eqb];
    [|reflexivity].
  unfold csv_attempt, io_BytesIO. now rewrite csv_retries_raise.
Qed.

Lemma prefix_append p x : prefix p (p ++ x) = true.
Proof.
  induction p as [|c p IH]; [reflexivity|].
  cbn [app]. now rewrite prefix_cons.
Qed.

Lemma names_error l e : names l (error_block (href l) e).
Proof.
  exists "Error processing ". split; [cbn; tauto|].
  unfold error_block. rewrite app_assoc. apply prefix_append.
Qed.

Lemma process_link_names l w : names l (fst (process_link tools l w)).
Proof.
  unfold process_link.
  destruct (download_and_process_file tools (href l)
              (_get_file_type (href l)) w) as [[e|d] w'] eqn:Hd;
    cbn [fst]; [apply names_error|].
  unfold block.
  destruct (Text.eqb (_get_file_type (href l)) "csv") eqn:Hcsv.
  - apply eqb_eq in Hcsv.
    rewrite (download_csv_or_excel _ _ _ (or_introl Hcsv)) in Hd.
    destruct (fst (session_get tools (href l) w)); discriminate.
  - destruct (Text.eqb (_get_file_type (href l)) "json").
    + destruct (json_dumps tools d) as [e|dumped]; [apply names_error|].
      exists "JSON file (". split; [cbn; tauto|].
      rewrite app_assoc. apply prefix_append.
    + destruct (Text.eqb (_get_file_type (href l)) "pdf").
      * exists "PDF file (". split; [cbn; tauto|].
        rewrite app_assoc. apply prefix_append.
      * exists "File (". split; [cbn; tauto|].
        rewrite app_assoc. apply prefix_append.
Qed.

Lemma process_links_names file_links :
  forall processed_data w,
    exists blocks,
      fst (process_links tools file_links processed_data w)
      = (processed_data ++ blocks)%list
      /\ Forall2 names file_links blocks.
Proof.
  induction file_links as [|l rest IH]; intros processed_data w;
    cbn [process_links].
  - exists []. split; [now rewrite app_nil_r|constructor].
  - pose proof (process_link_names l w) as Hl.
    destruct (process_link tools l w) as [b w']. cbn [fst] in Hl.
    destruct (IH (processed_data ++ [b])%list w') as (blocks & Hrun & Hall).
    exists (b :: blocks). split; [|now constructor].
    rewrite Hrun. now rewrite <- app_assoc.
Qed.

End File_tools.

(** X14.  A PDF goes through the base64 text unchanged: after a download
    that succeeded, the [pdf] branch of [download_and_process_file] returns
    a text (it never raises), [base64.b64decode] gives back from that text
    the very bytes that were downloaded, and so [_extract_pdf_text] is what
    the PDF reader says of the downloaded bytes. *)
Theorem X14_pdf_bytes_reach_the_reader {World : Type} (tools : Tools World)
  (url : str) (w : World) (content : string) (w' : World) :
  session_get tools url w = (inr content, w') ->
  exists encoded,
    download_and_process_file tools url "pdf" w
    = (inr (Value (JStr encoded)), w')
    /\ b64decode tools (Value (JStr encoded)) = inr (bytes content)
    /\ _extract_pdf_text tools (Value (JStr encoded))
       = if PDF_AVAILABLE tools then
           match read_pdf tools (bytes content) with
           | inr text => text
           | inl e => "Error extracting PDF: " ++ exn_msg e
           end
         else "PDF processing not available (PyPDF2 not installed)".
Proof.
  intros Hget. exists (b64encode content).
  split; [now apply download_pdf|].
  split; [apply b64decode_b64encode|].
  unfold _extract_pdf_text. rewrite b64decode_b64encode.
  now destruct (PDF_AVAILABLE tools).
Qed.

Lemma X14_pdf_bytes_reach_the_reader_witness :
  exists encoded,
    download_and_process_file Scripted2.tools report_pdf "pdf" tt
    = (inr (Value (JStr encoded)), tt)
    /\ b64decode Scripted2.tools (Value (JStr encoded))
       = inr (bytes pdf_content)
    /\ _extract_pdf_text Scripted2.tools (Value (JStr encoded))
       = if PDF_AVAILABLE Scripted2.tools then
           match read_pdf Scripted2.tools (bytes pdf_content) with
           | inr text => text
           | inl e => "Error extracting PDF: " ++ exn_msg e
           end
         else "PDF processing not available (PyPDF2 not installed)".
Proof.
  apply (X14_pdf_bytes_reach_the_reader Scripted2.tools report_pdf tt
           pdf_content tt).
  vm_compute. reflexivity.
Defined.

(** X15.  No CSV and no Excel file is ever parsed.  For a link whose file
    type is [csv] or [excel], [download_and_process_file] raises whatever
    the file holds and whatever pandas would make of it - the error of the
    download, or else the [NameError] of the unbound name [io] - and the
    loop of [_process_files_from_question] records an
    [Error processing <url>: ...] block for the link. *)
Theorem X15_csv_and_excel_files_are_never_parsed {World : Type}
  (tools : Tools World) (l : link) (w : World) :
  _get_file_type (href l) = "csv" \/ _get_file_type (href l) = "excel" ->
  exists e,
    download_and_process_file tools (href l) (_get_file_type (href l)) w
    = (inl e, snd (session_get tools (href l) w))
    /\ e = match fst (session_get tools (href l) w) with
           | inl e' => e'
           | inr _ => name_error_io
           end
    /\ process_link tools l w
       = (error_block (href l) e, snd (session_get tools (href l) w)).
Proof.
  intros Ht.
  pose proof (download_csv_or_excel tools (href l) _ w Ht) as Hd.
  exists (match fst (session_get tools (href l) w) with
          | inl e' => e'
          | inr _ => name_error_io
          end).
  split; [|split; [reflexivity|]].
  - rewrite Hd. now destruct (fst (session_get tools (href l) w)).
  - unfold process_link. rewrite Hd.
    now destruct (fst (session_get tools (href l) w)).
Qed.

Lemma X15_csv_and_excel_files_are_never_parsed_witness :
  let l := Link "Sales" sales_csv in
  exists e,
    download_and_process_file Scripted2.tools (href l)
      (_get_file_type (href l)) tt
    = (inl e, snd (session_get Scripted2.tools (href l) tt))
    /\ e = match fst (session_get Scripted2.tools (href l) tt) with
           | inl e' => e'
           | inr _ => name_error_io
           end
    /\ process_link Scripted2.tools l tt
       = (error_block (href l) e,
          snd (session_get Scripted2.tools (href l) tt)).
Proof.
  apply (X15_csv_and_excel_files_are_never_parsed Scripted2.tools
           (Link "Sales" sales_csv) tt).
  left. vm_compute. reflexivity.
Defined.

(** X16.  The link filter and the file typing agree: a link is kept as a
    file link exactly when [_get_file_type] knows the type of its address,
    so the loop never downloads a file of type [unknown]. *)
Theorem X16_file_links_have_a_known_type (l : link) :
  is_file_link l = true <-> _get_file_type (href l) <> "unknown".
Proof.
  unfold is_file_link, _get_file_type, extensions, existsb.
  destruct (contains ".pdf" (lower (href l)));
    [split; [discriminate|reflexivity]|].
  destruct (contains ".csv" (lower (href l)));
    [split; [discriminate|reflexivity]|].
  destruct (contains ".json" (lower (href l)));
    [split; [discriminate|reflexivity]|].
  destruct (contains ".xlsx" (lower (href l)));
    [split; [discriminate|reflexivity]|].
  destruct (contains ".txt" (lower (href l)));
    destruct (contains ".xls" (lower (href l))); cbn;
    (split; [discriminate || (intros _ H; discriminate H)
            | reflexivity || (intros H; now elim H)]).
Qed.

(** X17.  [_process_files_from_question] gives one block per file link, in
    the order of the page, whatever goes wrong with a file: it returns
    [None] when the links cannot be read or none is a file link, and
    otherwise the blocks joined by an empty line, the block of each file
    link starting with a label and the address of that link. *)
Theorem X17_one_block_per_file_link {World : Type} (tools : Tools World)
  (w : World) :
  match fst (page_links tools w) with
  | inl _ => fst (_process_files_from_question tools w) = None
  | inr links =>
      match filter is_file_link links with
      | [] => fst (_process_files_from_question tools w) = None
      | file_links =>
          exists blocks,
            fst (_process_files_from_question tools w)
            = Some (join (nl ++ nl) blocks)
            /\ Forall2 names file_links blocks
      end
  end.
Proof.
  unfold _process_files_from_question.
  destruct (page_links tools w) as [[e|links] w']; cbn [fst];
    [reflexivity|].
  destruct (filter is_file_link links) as [|l rest] eqn:Hf; [reflexivity|].
  destruct (process_links_names tools (l :: rest) [] w')
    as (blocks & Hrun & Hall).
  destruct (process_links tools (l :: rest) [] w') as [processed_data w''].
  cbn [fst app] in Hrun. subst processed_data.
  exists blocks. split; [|exact Hall].
  inversion Hall; subst. reflexivity.
Qed.

(* ------------------------------------------------------------------------- *)
(** ** A labelled payload comes back as it was encoded *)

Section Labelled_payload.

Lemma all_in_app cls a b :
  all_in cls (a ++ b) = (all_in cls a && all_in cls b)%bool.
Proof.
  unfold all_in. induction a as [|c a IH]; cbn; [reflexivity|].
  now rewrite IH, andb_assoc.
Qed.

Lemma all_in_weaken (cls cls' : char -> bool) s :
  (forall a, cls a = true -> cls' a = true) ->
  all_in cls s = true -> all_in cls' s = true.
Proof.
  intros Hcls. unfold all_in. induction s as [|c s IH]; cbn; [reflexivity|].
  intros H. apply andb_true_iff in H as [Hc Hs].
  now rewrite (Hcls _ Hc), IH.
Qed.

(** A pattern that starts with literals, one of them [c], matches nowhere
    in a text without [c]. *)
Lemma lits_need c p rest :
  In c p ->
  forall s, lacks c s -> match_here false (lits p ++ rest)%list s = None.
Proof.
  unfold lacks, all_in, lits.
  induction p as [|a p IH]; cbn [map app In];
    intros Hin s Hs; [contradiction|].
  destruct s as [|x s]; [reflexivity|].
  cbn [forallb] in Hs.
  apply andb_true_iff in Hs as [Hx Hs].
  cbn [match_here take1 chr_eq].
  destruct (N.eqb a x) eqn:Hax; [|reflexivity].
  apply N.eqb_eq in Hax. subst x.
  destruct Hin as [-> | Hin].
  - unfold char_eqb in Hx. now rewrite N.eqb_refl in Hx.
  - now rewrite (IH Hin s Hs).
Qed.

Lemma search_lits_need c p rest :
  In c p ->
  forall s, lacks c s -> search false (lits p ++ rest)%list s = None.
Proof.
  intros Hin s Hs. unfold search.
  enough (H : search_from false (lits p ++ rest)%list s = None) by now rewrite H.
  induction s as [|x s IH]; cbn [search_from];
    rewrite (lits_need c p rest Hin _ Hs); [reflexivity|].
  apply IH. unfold lacks, all_in in *.
  cbn [forallb] in Hs.
  now apply andb_true_iff in Hs as [_ Hs].
Qed.

(** A greedy run that stops where the rest of the pattern matches. *)
Lemma greedy_run_then cls k run rest y :
  all_in cls run = true -> stops_at cls rest -> k rest = Some y ->
  greedy cls k (run ++ rest) = Some (pushes run y).
Proof.
  intros Hall Hstop Hk. induction run as [|c run IH].
  - cbn [app pushes]. destruct rest as [|a r]; cbn [greedy];
      [exact Hk|].
    cbn in Hstop. now rewrite Hstop.
  - unfold all_in in Hall. cbn [forallb] in Hall.
    apply andb_true_iff in Hall as [Hc Hall].
    cbn [app greedy pushes]. rewrite Hc, (IH Hall). reflexivity.
Qed.

(** The characters of the alphabet are ASCII characters. *)
Lemma b64_char_ascii a : b64_char a = true -> (a < 128)%N.
Proof.
  unfold b64_char, is_upper, is_lower, is_digit, in_range, one_of, char_eqb.
  cbn [existsb]. intros H.
  repeat match type of H with
         | (_ || _)%bool = true => apply orb_prop in H as [H|H]
         end;
    try (apply andb_prop in H as [_ H]; apply N.leb_le in H; lia);
    try (apply N.eqb_eq in H; subst a; reflexivity);
    discriminate H.
Qed.

Lemma alphabet_apart :
  forallb (fun a => implb (b64_char a)
                      (negb (colon_or_space a)
                       && negb (char_eqb "(" a))) (below 128) = true.
Proof. vm_compute. reflexivity. Qed.

Lemma b64_char_apart a :
  b64_char a = true ->
  colon_or_space a = false /\ negb (char_eqb "(" a) = true.
Proof.
  intros H. pose proof alphabet_apart as Hall.
  rewrite forallb_forall in Hall.
  specialize (Hall a (in_below 128 a (b64_char_ascii a H))).
  cbv beta in Hall. rewrite H in Hall. cbn [implb] in Hall.
  apply andb_prop in Hall as [Hsep Hparen].
  now apply negb_true_iff in Hsep.
Qed.

Lemma b64_char_no_separator a :
  b64_char a = true -> colon_or_space a = false.
Proof. intros H. now destruct (b64_char_apart a H). Qed.

Lemma b64_char_no_paren a :
  b64_char a = true -> negb (char_eqb "(" a) = true.
Proof. intros H. now destruct (b64_char_apart a H). Qed.

Lemma separator_no_paren a :
  colon_or_space a = true -> negb (char_eqb "(" a) = true.
Proof.
  unfold char_eqb. intros H.
  destruct (N.eqb_spec "("%ch a) as [<-|_]; [discriminate H|reflexivity].
Qed.

Lemma b64encode_not_empty b : b <> EmptyString -> b64encode b <> [].
Proof.
  destruct b as [|b0 [|b1 [|b2 rest]]]; cbn [b64encode];
    intros H; [congruence| | |]; discriminate.
Qed.

(** The label pattern on a labelled payload: the group is the payload. *)
Lemma label_match sep payload :
  sep <> [] -> all_in colon_or_space sep = true ->
  payload <> [] -> all_in b64_char payload = true ->
  search false base64_label ("base64" ++ sep ++ payload)
  = Some (Match 1 ("base64" ++ sep ++ payload) (Some payload)).
Proof.
  intros Hsep Hsep_all Hpay Hpay_all.
  destruct sep as [|c0 sep]; [congruence|].
  destruct payload as [|e0 payload]; [congruence|].
  unfold all_in in Hsep_all, Hpay_all.
  cbn [forallb] in Hsep_all, Hpay_all.
  apply andb_true_iff in Hsep_all as [Hc0 Hsep_all].
  apply andb_true_iff in Hpay_all as [He0 Hpay_all].
  assert (Hgroup : match_here false [GOpen; Plus b64_char; GClose]
                     ((e0 :: payload))
                   = Some (Found ((e0 :: payload)) None
                             (Some ((e0 :: payload))))).
  { rewrite match_gopen.
    rewrite <- (app_nil_r payload) at 1.
    now rewrite (plus_close_run b64_char e0 payload "" He0 Hpay_all I). }
  assert (Hhere : match_here false base64_label
                    ("base64" ++ (c0 :: sep) ++ (e0 :: payload))
                  = Some (Found
                            ("base64" ++ (c0 :: sep) ++ (e0 :: payload))
                            None (Some ((e0 :: payload))))).
  { unfold base64_label.
    cbn [lits map app].
    rewrite !match_lit.
    change (match_here false
              [Plus colon_or_space; GOpen; Plus b64_char; GClose])
      with (take1 colon_or_space
              (greedy colon_or_space
                 (match_here false [GOpen; Plus b64_char; GClose]))).
    cbn [take1]. rewrite Hc0.
    rewrite (greedy_run_then colon_or_space _ sep ((e0 :: payload)) _
               Hsep_all (b64_char_no_separator _ He0) Hgroup).
    rewrite pushes_found. reflexivity. }
  unfold search. now rewrite (search_from_hit _ _ _ _ Hhere).
Qed.

Lemma contains_prefix needle hay :
  prefix needle hay = true -> contains needle hay = true.
Proof. intros H. destruct hay; cbn [contains]; now rewrite H. Qed.

Lemma b64decode_utf8_b64encode b t :
  B64.utf8_decode (bytes b) = Some t ->
  B64.b64decode_utf8 (b64encode b) = Some t.
Proof.
  intros Hvalid. unfold B64.b64decode_utf8.
  destruct (b64encode_chars (String.length b) b (le_n _)) as [_ Hascii].
  unfold all_in in Hascii. rewrite Hascii.
  rewrite (a2b_of_b64encode (String.length b)) by apply le_n.
  cbn [rev app]. exact Hvalid.
Qed.

(** Bytes that decode to a text that is not empty are not empty. *)
Lemma utf8_decode_not_empty b t :
  B64.utf8_decode (bytes b) = Some t -> t <> [] -> b <> EmptyString.
Proof. intros H Ht ->. cbn in H. congruence. Qed.

(** A text outside ASCII: the multiplication sign (U+00D7) is two bytes
    in the payload and one character in the text. *)
Example labelled_payload_outside_ascii :
  let b := String "6" (String " " (String (ascii_of_N 195)
             (String (ascii_of_N 151) (String " " (String "7"
                (String "?" EmptyString)))))) in
  b64encode b = "NiDDlyA3Pw=="
  /\ decode_step ("base64" ++ ": " ++ b64encode b)
     = ("6 " ++ [215%N] ++ " 7?")%list.
Proof. vm_compute. split; reflexivity. Qed.

End Labelled_payload.

(** X18.  A labelled payload comes back as it was encoded.  For every
    text that is not empty, given as the bytes of its UTF-8 encoding, the
    page content made of the word [base64], a separator of colons and
    white space and the base64 encoding of these bytes is replaced by the
    text itself in the decode step, and the extraction goes on from that
    text. *)
Theorem X18_labelled_payload_round_trip (sep : str) (b : string) (t : str) :
  sep <> [] -> all_in colon_or_space sep = true ->
  t <> [] -> B64.utf8_decode (bytes b) = Some t ->
  decode_step ("base64" ++ sep ++ b64encode b) = t
  /\ forall url,
       extract ("base64" ++ sep ++ b64encode b) url = locate t url.
Proof.
  intros Hsep Hsep_all Ht Hvalid.
  assert (Hpay : all_in b64_char (b64encode b) = true)
    by now destruct (b64encode_chars (String.length b) b (le_n _)).
  assert (Hno : all_in (fun a => negb (char_eqb "(" a))
                  ("base64" ++ sep ++ b64encode b) = true).
  { rewrite !all_in_app.
    rewrite (all_in_weaken _ _ _ separator_no_paren Hsep_all).
    rewrite (all_in_weaken _ _ _ b64_char_no_paren Hpay).
    reflexivity. }
  assert (Hstep : decode_step ("base64" ++ sep ++ b64encode b) = t).
  { unfold decode_step.
    assert (Hsig : signals_base64 ("base64" ++ sep ++ b64encode b) = true).
    { unfold signals_base64. rewrite lower_app.
      change (lower "base64") with "base64".
      rewrite (contains_prefix _ _ (prefix_append "base64" _)).
      apply orb_true_r. }
    rewrite Hsig.
    apply (decode_loop_first _ base64_patterns
             [atob_backtick; atob_quoted] base64_label []);
      [reflexivity|apply base64_patterns_grouped| |].
    - intros q [<-|[<-|[]]]; unfold decodes_with.
      + unfold atob_backtick.
        now rewrite (search_lits_need "(" "atob(`" _
                       ltac:(cbn; tauto) _ Hno).
      + unfold atob_quoted.
        now rewrite (search_lits_need "(" "atob(" _
                       ltac:(cbn; tauto) _ Hno).
    - unfold decodes_with.
      rewrite (label_match sep (b64encode b) Hsep Hsep_all
                 (b64encode_not_empty b (utf8_decode_not_empty b t Hvalid Ht))
                 Hpay).
      cbn [group1]. now apply b64decode_utf8_b64encode. }
  split; [exact Hstep|].
  intros url. unfold extract. now rewrite Hstep.
Qed.

Lemma X18_labelled_payload_round_trip_witness :
  decode_step ("base64" ++ ": " ++ b64encode "What is 6 times 7?"%string)
  = "What is 6 times 7?"
  /\ forall url,
       extract ("base64" ++ ": " ++ b64encode "What is 6 times 7?"%string)
         url
       = locate "What is 6 times 7?" url.
Proof.
  apply (X18_labelled_payload_round_trip ": " "What is 6 times 7?"%string
           "What is 6 times 7?").
  - discriminate.
  - vm_compute. reflexivity.
  - discriminate.
  - vm_compute. reflexivity.
Defined.
